(** * powermon: a shallow embedding of [main.go] and its properties

    The dashboard reads two text sources (powermetrics, line by line, and
    ioreg, one dump every five seconds), keeps the latest readings in one
    record and redraws a fixed-width box.  This file embeds the Go code of
    [main.go] function by function and proves what the specification says
    about it.

    Conventions of the embedding:
    - a Go [string] is its byte sequence, [list ascii];
    - a Go [int] (64 bits on the arm64 target) is a [Z], and every
      operation that can leave the 64-bit range is wrapped with [wrap64];
    - a Go [float64] is an IEEE-754 binary64 value, [spec_float] with
      precision 53 and maximal exponent 1024;
    - a call that panics returns [None]. *)

From Stdlib Require Import ZArith Lia Bool Ascii String List DecimalString.
From Stdlib Require Import Floats.SpecFloat.
Import ListNotations.

Local Open Scope Z_scope.
Local Open Scope list_scope.

(** ** Strings *)

Definition gostring := list ascii.

(** String literals of the source are written with [str]. *)
Definition str (s : string) : gostring := list_ascii_of_string s.

(** [len(s)]: the number of bytes of a string, of elements of a slice. *)
Definition len {A} (s : list A) : Z := Z.of_nat (length s).

(** ** Machine integers *)

Module Int64.

Definition min_int : Z := - 2 ^ 63.
Definition max_int : Z := 2 ^ 63 - 1.

Definition in_range (z : Z) : Prop := min_int <= z <= max_int.

(** Two's complement wrap-around of the mathematical result. *)
Definition wrap64 (z : Z) : Z := (z + 2 ^ 63) mod 2 ^ 64 - 2 ^ 63.

Definition sub (a b : Z) : Z := wrap64 (a - b).
Definition mul (a b : Z) : Z := wrap64 (a * b).
(** Go's [/] truncates toward zero. *)
Definition div (a b : Z) : Z := wrap64 (Z.quot a b).

End Int64.

(** ** [strings.Repeat]

    The library function panics on a negative count and when the length
    of the result does not fit an [int].  It then allocates the result
    in one piece: the runtime refuses more than [2^48] bytes
    ([makeslice: len out of range]) and a machine may have less.
    Allocation is outside this embedding.  What is proved below of the
    strings that the program builds with it stays far from those limits:
    rows are padded with at most 52 spaces, and bars are taken up to
    65535 cells, the largest number of columns a terminal can report. *)
Definition Repeat (s : gostring) (count : Z) : option gostring :=
  if count <? 0 then None
  else if len s * count >? Int64.max_int then None
  else Some (concat (repeat s (Z.to_nat count))).

(** ** ANSI colors *)

Definition ESC : ascii := "027"%char.
Definition NL : ascii := "010"%char.
Definition DQUOTE : ascii := "034"%char.

Definition Reset   : gostring := ESC :: str "[0m".
Definition Red     : gostring := ESC :: str "[31m".
Definition Green   : gostring := ESC :: str "[32m".
Definition Yellow  : gostring := ESC :: str "[33m".
Definition Blue    : gostring := ESC :: str "[34m".
Definition Magenta : gostring := ESC :: str "[35m".
Definition Cyan    : gostring := ESC :: str "[36m".
Definition White   : gostring := ESC :: str "[37m".
Definition Dim     : gostring := ESC :: str "[2m".

(** The nine constants of the [const] block. *)
Definition ansi_colors : list gostring :=
  [Reset; Red; Green; Yellow; Blue; Magenta; Cyan; White; Dim].

(** ** Bars *)

Definition FULL_BLOCK  : gostring := str "█".
Definition LIGHT_SHADE : gostring := str "░".

(** The two cell counts [(filled, empty)] that [colorBar] computes
    before it builds the string. *)
Definition colorBar_cells (pct width : Z) : Z * Z :=
  let pct := if pct <? 0 then 0 else pct in
  let pct := if pct >? 100 then 100 else pct in
  let filled := Int64.div (Int64.mul pct width) 100 in
  let empty := Int64.sub width filled in
  let empty := if empty <? 0 then 0 else empty in
  (filled, empty).

Definition colorBar (pct width : Z) (color : gostring) : option gostring :=
  let '(filled, empty) := colorBar_cells pct width in
  match Repeat FULL_BLOCK filled with
  | None => None
  | Some f =>
      match Repeat LIGHT_SHADE empty with
      | None => None
      | Some e => Some (color ++ f ++ Reset ++ Dim ++ e ++ Reset)
      end
  end.

(** The two cell counts [(sysBars, batBars)] of [splitBar]. *)
Definition splitBar_cells (sysPct batPct width : Z) : Z * Z :=
  let sysPct := if sysPct <? 0 then 0 else sysPct in
  let batPct := if batPct <? 0 then 0 else batPct in
  let sysBars := Int64.div (Int64.mul sysPct width) 100 in
  let batBars := Int64.sub width sysBars in
  let sysBars := if sysBars <? 0 then 0 else sysBars in
  let batBars := if batBars <? 0 then 0 else batBars in
  (sysBars, batBars).

Definition splitBar (sysPct batPct width : Z) : option gostring :=
  let '(sysBars, batBars) := splitBar_cells sysPct batPct width in
  match Repeat FULL_BLOCK sysBars with
  | None => None
  | Some s =>
      match Repeat FULL_BLOCK batBars with
      | None => None
      | Some b => Some (Cyan ++ s ++ Reset ++ Yellow ++ b ++ Reset)
      end
  end.

(** ** Regular expressions

    The fragment of Go's [regexp] syntax that the program uses: literal
    characters, character classes, the greedy quantifiers [*], [+] and [?]
    applied to one character class, concatenation, alternation and
    numbered capture groups.  All patterns of the program are ASCII, so
    matching on bytes and matching on runes coincide. *)

Inductive Regex : Type :=
| Eps
| Chr (c : ascii)
| Star (p : ascii -> bool)
| Plus (p : ascii -> bool)
| Opt (p : ascii -> bool)
| Cat (a b : Regex)
| Alt (a b : Regex)
| Group (i : nat) (a : Regex).

(** A literal string. *)
Fixpoint Lit (s : gostring) : Regex :=
  match s with
  | [] => Eps
  | [c] => Chr c
  | c :: s' => Cat (Chr c) (Lit s')
  end.

(** Concatenation of a sequence of pieces. *)
Fixpoint Seq (rs : list Regex) : Regex :=
  match rs with
  | [] => Eps
  | [r] => r
  | r :: rs' => Cat r (Seq rs')
  end.

Definition byte (c : ascii) : Z := Z.of_N (N_of_ascii c).

Definition in_rng (lo hi : Z) (c : ascii) : bool :=
  (lo <=? byte c) && (byte c <=? hi).

Definition is_char (x : ascii) : ascii -> bool := fun c => Ascii.eqb c x.

(** [\d] *)
Definition is_digit : ascii -> bool := in_rng 48 57.

(** [\s]: tab, newline, form feed, carriage return, space. *)
Definition is_space (c : ascii) : bool :=
  (byte c =? 9) || (byte c =? 10) || (byte c =? 12) || (byte c =? 13)
  || (byte c =? 32).

(** [[\d.]] *)
Definition is_digit_or_dot (c : ascii) : bool := is_digit c || (byte c =? 46).

(** [[0-9;]] *)
Definition is_digit_or_semi (c : ascii) : bool := is_digit c || (byte c =? 59).

(** Number of capture groups, [re.NumSubexp()]. *)
Fixpoint NumSubexp (r : Regex) : nat :=
  match r with
  | Cat a b | Alt a b => (NumSubexp a + NumSubexp b)%nat
  | Group _ a => S (NumSubexp a)
  | _ => 0%nat
  end.

(** Captures recorded so far, most recent first. *)
Definition captures := list (nat * gostring).

Definition orelse {A} (x y : option A) : option A :=
  match x with Some _ => x | None => y end.

(** The part of [s] that was consumed to reach its suffix [rest]. *)
Definition consumed (s rest : gostring) : gostring :=
  firstn (length s - length rest)%nat s.

Section Backtracking.
Context {R : Type}.

(** Greedy repetition of a class: the longest run first, then shorter
    ones. *)
Fixpoint rep (p : ascii -> bool) (s : gostring)
    (k : gostring -> option R) : option R :=
  match s with
  | c :: s' => if p c then orelse (rep p s' k) (k s) else k s
  | [] => k s
  end.

(** A backtracking matcher in continuation-passing style: the first
    success is the match that Go's leftmost-first semantics selects. *)
Fixpoint run (r : Regex) (s : gostring) (cs : captures)
    (k : gostring -> captures -> option R) : option R :=
  match r with
  | Eps => k s cs
  | Chr c =>
      match s with
      | x :: s' => if Ascii.eqb x c then k s' cs else None
      | [] => None
      end
  | Star p => rep p s (fun s' => k s' cs)
  | Plus p =>
      match s with
      | x :: s' => if p x then rep p s' (fun s'' => k s'' cs) else None
      | [] => None
      end
  | Opt p =>
      match s with
      | x :: s' => if p x then orelse (k s' cs) (k s cs) else k s cs
      | [] => k s cs
      end
  | Cat a b => run a s cs (fun s' cs' => run b s' cs' k)
  | Alt a b => orelse (run a s cs k) (run b s cs k)
  | Group i a => run a s cs (fun s' cs' => k s' ((i, consumed s s') :: cs'))
  end.
End Backtracking.

(** A match anchored at the start of [s]: the unread rest and the
    captures. *)
Definition match_at (r : Regex) (s : gostring) : option (gostring * captures) :=
  run r s [] (fun rest cs => Some (rest, cs)).

(** Length of the match anchored at the start of [s]. *)
Definition match_len (r : Regex) (s : gostring) : option nat :=
  match match_at r s with
  | Some (rest, _) => Some (length s - length rest)%nat
  | None => None
  end.

Fixpoint lookup_capture (i : nat) (cs : captures) : gostring :=
  match cs with
  | [] => []
  | (j, t) :: cs' => if Nat.eqb i j then t else lookup_capture i cs'
  end.

(** [re.FindStringSubmatch(s)]: the leftmost match and its groups, or
    the empty slice ([nil]) when there is none. *)
Fixpoint FindStringSubmatch (re : Regex) (s : gostring) : list gostring :=
  match match_at re s with
  | Some (rest, cs) =>
      consumed s rest
      :: map (fun i => lookup_capture i cs) (seq 1 (NumSubexp re))
  | None =>
      match s with
      | [] => []
      | _ :: s' => FindStringSubmatch re s'
      end
  end.

(** [re.MatchString(s)]. *)
Definition MatchString (re : Regex) (s : gostring) : bool :=
  match FindStringSubmatch re s with [] => false | _ => true end.

(** [re.ReplaceAllString(src, repl)] for a pattern whose matches are
    never empty and a replacement without [$]: matches are looked for
    from left to right, and after a match the search resumes at its end.
    [skip] is the number of bytes of the current match still to drop. *)
Fixpoint replace_from (re : Regex) (repl : gostring) (skip : nat)
    (s : gostring) : gostring :=
  match s with
  | [] => []
  | c :: s' =>
      match skip with
      | S n => replace_from re repl n s'
      | O =>
          match match_len re s with
          | Some (S n) => repl ++ replace_from re repl n s'
          | _ => c :: replace_from re repl 0 s'
          end
      end
  end.

Definition ReplaceAllString (re : Regex) (src repl : gostring) : gostring :=
  replace_from re repl 0 src.

(** ** UTF-8

    [len([]rune(s))] counts one rune per well-formed encoding and one
    (U+FFFD) per byte that does not start one. *)

Definition is_cont : ascii -> bool := in_rng 128 191.

(** Number of bytes of the first rune of [s], [utf8.DecodeRuneInString]'s
    size: 1 for a byte that starts no well-formed encoding. *)
Definition rune_width (s : gostring) : nat :=
  match s with
  | [] => 0%nat
  | b0 :: t =>
      let x := byte b0 in
      if x <? 194 then 1%nat
      else if x <? 224 then
        match t with
        | b1 :: _ => if is_cont b1 then 2%nat else 1%nat
        | _ => 1%nat
        end
      else if x <? 240 then
        match t with
        | b1 :: b2 :: _ =>
            if in_rng (if x =? 224 then 160 else 128)
                      (if x =? 237 then 159 else 191) b1
               && is_cont b2
            then 3%nat else 1%nat
        | _ => 1%nat
        end
      else if x <? 245 then
        match t with
        | b1 :: b2 :: b3 :: _ =>
            if in_rng (if x =? 240 then 144 else 128)
                      (if x =? 244 then 143 else 191) b1
               && is_cont b2 && is_cont b3
            then 4%nat else 1%nat
        | _ => 1%nat
        end
      else 1%nat
  end.

(** [skip] is the number of bytes of the current rune still to pass. *)
Fixpoint rune_count_from (skip : nat) (s : gostring) : nat :=
  match s with
  | [] => 0%nat
  | _ :: s' =>
      match skip with
      | S n => rune_count_from n s'
      | O => S (rune_count_from (rune_width s - 1)%nat s')
      end
  end.

(** [len([]rune(s))] *)
Definition RuneCount (s : gostring) : Z := Z.of_nat (rune_count_from 0 s).

(** ** Visible width and box rows *)

(** [\x1b\[[0-9;]*m] *)
Definition ansiRe : Regex :=
  Seq [Chr ESC; Chr "["; Star is_digit_or_semi; Chr "m"].

Definition visibleLen (s : gostring) : Z :=
  RuneCount (ReplaceAllString ansiRe s []).

Definition line_width : Z := 52.

Definition line (content : gostring) : option gostring :=
  let visible := visibleLen content in
  let pad := Int64.sub line_width visible in
  let pad := if pad <? 0 then 0 else pad in
  match Repeat (str " ") pad with
  | None => None
  | Some sp => Some (str "║ " ++ content ++ sp ++ str " ║")
  end.

(** ** [strconv] *)

(** The two causes a [*strconv.NumError] can carry. *)
Inductive NumError := ErrSyntax | ErrRange.

Definition digit_val (c : ascii) : Z := byte c - 48.

Fixpoint digits_value (acc : Z) (s : gostring) : Z :=
  match s with
  | [] => acc
  | c :: s' => digits_value (acc * 10 + digit_val c) s'
  end.

(** [strconv.Atoi]: an optional sign and decimal digits.  A syntax error
    returns 0, a value that does not fit returns the nearest bound, both
    with a non-nil error ([None] is [nil]). *)
Definition Atoi (s : gostring) : Z * option NumError :=
  match s with
  | [] => (0, Some ErrSyntax)
  | c :: t =>
      let neg := Ascii.eqb c "-" in
      let ds := if neg || Ascii.eqb c "+" then t else s in
      match ds with
      | [] => (0, Some ErrSyntax)
      | _ :: _ =>
          if forallb is_digit ds then
            let un := digits_value 0 ds in
            if neg then
              if un >? 2 ^ 63 then (Int64.min_int, Some ErrRange)
              else (- un, None)
            else
              if un >=? 2 ^ 63 then (Int64.max_int, Some ErrRange)
              else (un, None)
          else (0, Some ErrSyntax)
      end
  end.

(** *** float64 *)

Definition float64 := spec_float.

Definition f64_div : float64 -> float64 -> float64 := SFdiv 53 1024.
Definition f64_mul : float64 -> float64 -> float64 := SFmul 53 1024.
Definition f64_sub : float64 -> float64 -> float64 := SFsub 53 1024.
Definition f64_neg : float64 -> float64 := SFopp.

(** [float64(n)] for an integer [n]: rounding to nearest, ties to even. *)
Definition f64_of_int (n : Z) : float64 := binary_normalize 53 1024 n 0 false.

(** [int(f)]: truncation toward zero.  Outside the range of [int] the Go
    specification leaves the result to the implementation; this is the
    arm64 conversion, which saturates and sends NaN to 0. *)
Definition int_of_f64 (f : float64) : Z :=
  match f with
  | S754_zero _ | S754_nan => 0
  | S754_infinity s => if s then Int64.min_int else Int64.max_int
  | S754_finite s m e =>
      let a := match e with
               | Zneg k => Z.shiftr (Zpos m) (Zpos k)
               | _ => Z.shiftl (Zpos m) e
               end in
      let v := if s then - a else a in
      Z.max Int64.min_int (Z.min Int64.max_int v)
  end.

(** A non-negative integer as an exact (unrounded) binary value. *)
Definition exact_int (n : Z) : float64 :=
  match n with
  | Zpos p => S754_finite false p 0
  | _ => S754_zero false
  end.

(** Decimal digits with at most one point and at least one digit: the
    digits read as one integer, and the number of digits after the
    point. *)
Fixpoint read_decimal (sawdot sawdigits : bool) (mant dp : Z)
    (s : gostring) : option (Z * Z) :=
  match s with
  | [] => if sawdigits then Some (mant, dp) else None
  | c :: s' =>
      if is_digit c then
        read_decimal sawdot true (mant * 10 + digit_val c)
                     (if sawdot then dp + 1 else dp) s'
      else if byte c =? 46 then
        if sawdot then None else read_decimal true sawdigits mant dp s'
      else None
  end.

(** [strconv.ParseFloat(s, 64)] on a string of digits and points, which
    is all the program passes to it (the capture of [[\d.]+]): the
    decimal number rounded to the nearest binary64 value, ties to even,
    with a range error when that is infinite, and 0 with a syntax error
    for a malformed number.  Signs, exponents, hexadecimal and the
    special values of the library's grammar are not modelled. *)
Definition ParseFloat (s : gostring) : float64 * option NumError :=
  match read_decimal false false 0 0 s with
  | None => (S754_zero false, Some ErrSyntax)
  | Some (mant, dp) =>
      match f64_div (exact_int mant) (exact_int (10 ^ dp)) with
      | S754_infinity sg => (S754_infinity sg, Some ErrRange)
      | f => (f, None)
      end
  end.

(** ** The snapshot *)

Record PowerData : Type := mkPowerData {
  (* Live from powermetrics *)
  CPUPower : float64;
  GPUPower : float64;
  ANEPower : float64;
  PackagePower : float64;
  BatteryPct : Z;
  (* From ioreg *)
  ChargerWatts : Z;
  ChargerVoltage : Z;
  ChargerCurrent : Z;
  BatteryVoltage : Z;
  BatteryAmps : Z;
  Temperature : Z;
  IsCharging : bool;
  OnAC : bool
}.

(** The zero value of the global [data]. *)
Definition data0 : PowerData :=
  mkPowerData (S754_zero false) (S754_zero false) (S754_zero false)
              (S754_zero false) 0 0 0 0 0 0 0 false false.

Definition set_CPUPower (v : float64) (d : PowerData) : PowerData :=
  mkPowerData v (GPUPower d) (ANEPower d) (PackagePower d) (BatteryPct d)
    (ChargerWatts d) (ChargerVoltage d) (ChargerCurrent d) (BatteryVoltage d)
    (BatteryAmps d) (Temperature d) (IsCharging d) (OnAC d).
Definition set_GPUPower (v : float64) (d : PowerData) : PowerData :=
  mkPowerData (CPUPower d) v (ANEPower d) (PackagePower d) (BatteryPct d)
    (ChargerWatts d) (ChargerVoltage d) (ChargerCurrent d) (BatteryVoltage d)
    (BatteryAmps d) (Temperature d) (IsCharging d) (OnAC d).
Definition set_ANEPower (v : float64) (d : PowerData) : PowerData :=
  mkPowerData (CPUPower d) (GPUPower d) v (PackagePower d) (BatteryPct d)
    (ChargerWatts d) (ChargerVoltage d) (ChargerCurrent d) (BatteryVoltage d)
    (BatteryAmps d) (Temperature d) (IsCharging d) (OnAC d).
Definition set_PackagePower (v : float64) (d : PowerData) : PowerData :=
  mkPowerData (CPUPower d) (GPUPower d) (ANEPower d) v (BatteryPct d)
    (ChargerWatts d) (ChargerVoltage d) (ChargerCurrent d) (BatteryVoltage d)
    (BatteryAmps d) (Temperature d) (IsCharging d) (OnAC d).
Definition set_BatteryPct (v : Z) (d : PowerData) : PowerData :=
  mkPowerData (CPUPower d) (GPUPower d) (ANEPower d) (PackagePower d) v
    (ChargerWatts d) (ChargerVoltage d) (ChargerCurrent d) (BatteryVoltage d)
    (BatteryAmps d) (Temperature d) (IsCharging d) (OnAC d).
Definition set_ChargerWatts (v : Z) (d : PowerData) : PowerData :=
  mkPowerData (CPUPower d) (GPUPower d) (ANEPower d) (PackagePower d)
    (BatteryPct d) v (ChargerVoltage d) (ChargerCurrent d) (BatteryVoltage d)
    (BatteryAmps d) (Temperature d) (IsCharging d) (OnAC d).
Definition set_ChargerVoltage (v : Z) (d : PowerData) : PowerData :=
  mkPowerData (CPUPower d) (GPUPower d) (ANEPower d) (PackagePower d)
    (BatteryPct d) (ChargerWatts d) v (ChargerCurrent d) (BatteryVoltage d)
    (BatteryAmps d) (Temperature d) (IsCharging d) (OnAC d).
Definition set_ChargerCurrent (v : Z) (d : PowerData) : PowerData :=
  mkPowerData (CPUPower d) (GPUPower d) (ANEPower d) (PackagePower d)
    (BatteryPct d) (ChargerWatts d) (ChargerVoltage d) v (BatteryVoltage d)
    (BatteryAmps d) (Temperature d) (IsCharging d) (OnAC d).
Definition set_BatteryVoltage (v : Z) (d : PowerData) : PowerData :=
  mkPowerData (CPUPower d) (GPUPower d) (ANEPower d) (PackagePower d)
    (BatteryPct d) (ChargerWatts d) (ChargerVoltage d) (ChargerCurrent d) v
    (BatteryAmps d) (Temperature d) (IsCharging d) (OnAC d).
Definition set_BatteryAmps (v : Z) (d : PowerData) : PowerData :=
  mkPowerData (CPUPower d) (GPUPower d) (ANEPower d) (PackagePower d)
    (BatteryPct d) (ChargerWatts d) (ChargerVoltage d) (ChargerCurrent d)
    (BatteryVoltage d) v (Temperature d) (IsCharging d) (OnAC d).
Definition set_Temperature (v : Z) (d : PowerData) : PowerData :=
  mkPowerData (CPUPower d) (GPUPower d) (ANEPower d) (PackagePower d)
    (BatteryPct d) (ChargerWatts d) (ChargerVoltage d) (ChargerCurrent d)
    (BatteryVoltage d) (BatteryAmps d) v (IsCharging d) (OnAC d).
Definition set_IsCharging (v : bool) (d : PowerData) : PowerData :=
  mkPowerData (CPUPower d) (GPUPower d) (ANEPower d) (PackagePower d)
    (BatteryPct d) (ChargerWatts d) (ChargerVoltage d) (ChargerCurrent d)
    (BatteryVoltage d) (BatteryAmps d) (Temperature d) v (OnAC d).
Definition set_OnAC (v : bool) (d : PowerData) : PowerData :=
  mkPowerData (CPUPower d) (GPUPower d) (ANEPower d) (PackagePower d)
    (BatteryPct d) (ChargerWatts d) (ChargerVoltage d) (ChargerCurrent d)
    (BatteryVoltage d) (BatteryAmps d) (Temperature d) (IsCharging d) v.

(** ** Effects

    What a goroutine does besides computing: it writes to standard
    output, takes and releases the lock [data.mu], sleeps, starts
    goroutines and kills the child process.  A computation takes the
    snapshot and returns a result ([None] after a panic), the snapshot it
    leaves and the effects in the order they happened. *)

Inductive event : Type :=
| Out (s : gostring)
| MuLock
| MuUnlock
| MuRLock
| MuRUnlock
| Sleep (seconds : Z)
| Go (func : string)
| SignalNotify
| ProcessKill.

Definition M (A : Type) : Type :=
  PowerData -> option A * PowerData * list event.

Definition ret {A} (a : A) : M A := fun d => (Some a, d, []).

Definition bind {A B} (m : M A) (k : A -> M B) : M B :=
  fun d =>
    match m d with
    | (Some a, d1, t1) =>
        let '(r, d2, t2) := k a d1 in (r, d2, t1 ++ t2)
    | (None, d1, t1) => (None, d1, t1)
    end.

Notation "x <- m ;; k" := (bind m (fun x => k))
  (at level 61, m at next level, right associativity).
Notation "m ;; k" := (bind m (fun _ => k))
  (at level 61, right associativity).

Definition emit (e : event) : M unit := fun d => (Some tt, d, [e]).
Definition panic {A} : M A := fun d => (None, d, []).
(** Reading the global [data]. *)
Definition load : M PowerData := fun d => (Some d, d, []).
(** Assigning one field of the global [data]. *)
Definition store (f : PowerData -> PowerData) : M unit :=
  fun d => (Some tt, f d, []).

Definition lift {A} (o : option A) : M A :=
  match o with Some a => ret a | None => panic end.

(** [defer f(); body]: [f] runs when [body] returns and when it panics. *)
Definition defer {A} (f : M unit) (body : M A) : M A :=
  fun d =>
    let '(r, d1, t1) := body d in
    let '(_, d2, t2) := f d1 in
    (r, d2, t1 ++ t2).

Definition Print (s : gostring) : M unit := emit (Out s).
Definition Println (s : gostring) : M unit := emit (Out (s ++ [NL])).

Definition state_of {A} (x : option A * PowerData * list event) : PowerData :=
  snd (fst x).
Definition trace_of {A} (x : option A * PowerData * list event) : list event :=
  snd x.
Definition result_of {A} (x : option A * PowerData * list event) : option A :=
  fst (fst x).

(** ** The slow producer: [pollIoreg] *)

(** A key of the dump, with its quotes. *)
Definition quoted (key : string) : gostring := DQUOTE :: str key ++ [DQUOTE].

Definition yes_no : Regex := Alt (Lit (str "Yes")) (Lit (str "No")).

(** [key(\d+)]: a literal key followed by a captured run of digits. *)
Definition digits_after (key : gostring) : Regex :=
  Seq [Lit key; Group 1 (Plus is_digit)].

Definition watts_re : Regex := digits_after (quoted "Watts" ++ str "=").
Definition adapterV_re : Regex :=
  digits_after (quoted "AdapterVoltage" ++ str "=").
Definition adapterA_re : Regex := digits_after (quoted "Current" ++ str "=").
Definition batteryV_re : Regex :=
  digits_after (quoted "AppleRawBatteryVoltage" ++ str " = ").
(** ["Amperage" = (-?\d+)] *)
Definition batteryA_re : Regex :=
  Seq [Lit (quoted "Amperage" ++ str " = ");
       Group 1 (Cat (Opt (is_char "-")) (Plus is_digit))].
Definition temp_re : Regex := digits_after (quoted "Temperature" ++ str " = ").
Definition charging_re : Regex :=
  Seq [Lit (quoted "IsCharging" ++ str " = "); Group 1 yes_no].
Definition external_re : Regex :=
  Seq [Lit (quoted "ExternalConnected" ++ str " = "); Group 1 yes_no].

(** The map [patterns] of [pollIoreg]; [None] is the nil pointer that a
    missing key gives. *)
Definition patterns (key : string) : option Regex :=
  if String.eqb key "watts" then Some watts_re
  else if String.eqb key "adapterV" then Some adapterV_re
  else if String.eqb key "adapterA" then Some adapterA_re
  else if String.eqb key "batteryV" then Some batteryV_re
  else if String.eqb key "batteryA" then Some batteryA_re
  else if String.eqb key "temp" then Some temp_re
  else if String.eqb key "charging" then Some charging_re
  else if String.eqb key "external" then Some external_re
  else None.

Definition is_nil {A} (e : option A) : bool :=
  match e with None => true | Some _ => false end.

(** Only returns value if in sane range, otherwise returns (0, false). *)
Definition extractInt (s : gostring) (re : Regex) (min max : Z) : Z * bool :=
  let m := FindStringSubmatch re s in
  if len m >? 1 then
    let '(v, err) := Atoi (nth 1 m []) in
    if is_nil err && (v >=? min) && (v <=? max) then (v, true)
    else (0, false)
  else (0, false).

Fixpoint string_eqb (a b : gostring) : bool :=
  match a, b with
  | [], [] => true
  | x :: a', y :: b' => Ascii.eqb x y && string_eqb a' b'
  | _, _ => false
  end.

(** What [exec.Command(...).Output()] returned: the bytes of standard
    output and the error ([None] is [nil]). *)
Record CmdResult : Type := mkCmdResult {
  cmd_out : gostring;
  cmd_err : option gostring
}.

(** [if v, ok := extractInt(s, patterns[key], min, max); ok { field = v }] *)
Definition poll_int (s : gostring) (key : string) (min max : Z)
    (set : Z -> PowerData -> PowerData) : M unit :=
  re <- lift (patterns key) ;;
  let '(v, ok) := extractInt s re min max in
  if ok then store (set v) else ret tt.

(** [if m := patterns[key].FindStringSubmatch(s); len(m) > 1
     { field = m[1] == "Yes" }] *)
Definition poll_bool (s : gostring) (key : string)
    (set : bool -> PowerData -> PowerData) : M unit :=
  re <- lift (patterns key) ;;
  let m := FindStringSubmatch re s in
  if len m >? 1 then store (set (string_eqb (nth 1 m []) (str "Yes")))
  else ret tt.

(** One iteration of the [for] loop of [pollIoreg], given what the
    command returned. *)
Definition pollIoreg_iter (r : CmdResult) : M unit :=
  (if is_nil (cmd_err r) then
     let s := cmd_out r in
     emit MuLock ;;
     poll_int s "watts" 0 500 set_ChargerWatts ;;
     poll_int s "adapterV" 0 50000 set_ChargerVoltage ;;
     poll_int s "adapterA" 0 10000 set_ChargerCurrent ;;
     poll_int s "batteryV" 5000 25000 set_BatteryVoltage ;;
     poll_int s "batteryA" (-15000) 15000 set_BatteryAmps ;;
     poll_int s "temp" 0 10000 set_Temperature ;;
     poll_bool s "charging" set_IsCharging ;;
     poll_bool s "external" set_OnAC ;;
     emit MuUnlock
   else ret tt) ;;
  emit (Sleep 5).

(** The loop of [pollIoreg] never ends; this is its run over the first
    results of the command. *)
Fixpoint pollIoreg (rs : list CmdResult) : M unit :=
  match rs with
  | [] => ret tt
  | r :: rs' => pollIoreg_iter r ;; pollIoreg rs'
  end.

(** ** The renderer *)

Definition box_top : gostring :=
  str "╔══════════════════════════════════════════════════════╗".
Definition box_sep : gostring :=
  str "╠══════════════════════════════════════════════════════╣".
Definition box_bottom : gostring :=
  str "╚══════════════════════════════════════════════════════╝".

(** [%d] *)
Definition Itoa (n : Z) : gostring := str (NilZero.string_of_int (Z.to_int n)).

(** [fmt.Println(line(content))] *)
Definition put_line (content : gostring) : M unit :=
  row <- lift (line content) ;; Println row.

Definition clamp_pct (p : Z) : Z :=
  let p := if p <? 0 then 0 else p in
  if p >? 100 then 100 else p.

Section Render.

(** How [fmt] prints a [float64] under the verb [%.<prec>f]; the
    program only passes the text on. *)
Variable FormatFloat : float64 -> Z -> gostring.

(** [%<width>.<prec>f]: padded with spaces on the left. *)
Definition fmt_f (width prec : Z) (f : float64) : gostring :=
  let t := FormatFloat f prec in
  repeat " "%char (Z.to_nat (width - RuneCount t)) ++ t.

(** [now] is [time.Now().Format("15:04:05")]. *)
Definition render (now : gostring) : M unit :=
  emit MuRLock ;;
  defer (emit MuRUnlock)
    (Print (ESC :: str "[H") ;;
     d <- load ;;
     let k := f64_of_int 1000 in
     let cpuW := f64_div (CPUPower d) k in
     let gpuW := f64_div (GPUPower d) k in
     let aneW := f64_div (ANEPower d) k in
     let siliconW := f64_div (PackagePower d) k in
     let chargerV := f64_div (f64_of_int (ChargerVoltage d)) k in
     let chargerA := f64_div (f64_of_int (ChargerCurrent d)) k in
     let batteryV := f64_div (f64_of_int (BatteryVoltage d)) k in
     let batteryA := f64_div (f64_of_int (BatteryAmps d)) k in
     let batteryW := f64_mul batteryV batteryA in
     let tempC := f64_div (f64_of_int (Temperature d)) (f64_of_int 100) in
     let bar10 (w : float64) :=
       lift (colorBar (int_of_f64 (f64_mul w (f64_of_int 10))) 20 Magenta) in
     Println box_top ;;
     put_line (str "       LIVE POWER MONITOR  (Ctrl+C to stop)") ;;
     Println box_sep ;;
     put_line (Magenta ++ str "SILICON" ++ Reset ++ str " (live)") ;;
     bar <- bar10 cpuW ;;
     put_line (str "  CPU:  " ++ fmt_f 5 2 cpuW ++ str " W  [" ++ bar
               ++ str "]") ;;
     bar <- bar10 gpuW ;;
     put_line (str "  GPU:  " ++ fmt_f 5 2 gpuW ++ str " W  [" ++ bar
               ++ str "]") ;;
     bar <- bar10 aneW ;;
     put_line (str "  ANE:  " ++ fmt_f 5 2 aneW ++ str " W  [" ++ bar
               ++ str "]") ;;
     put_line (str "  Chip: " ++ fmt_f 5 2 siliconW ++ str " W") ;;
     Println box_sep ;;
     (if OnAC d then
        let systemW := f64_sub (f64_of_int (ChargerWatts d)) batteryW in
        put_line (Green ++ str "CHARGER" ++ Reset) ;;
        put_line (str "  " ++ fmt_f 0 1 chargerV ++ str "V × "
                  ++ fmt_f 0 2 chargerA ++ str "A = " ++ Green
                  ++ Itoa (ChargerWatts d) ++ str "W" ++ Reset) ;;
        Println box_sep ;;
        put_line (str "POWER SPLIT (~30s refresh)") ;;
        put_line (str "  → " ++ Cyan ++ str "System:  "
                  ++ fmt_f 5 1 systemW ++ str " W" ++ Reset) ;;
        put_line (str "  → " ++ Yellow ++ str "Battery: "
                  ++ fmt_f 5 1 batteryW ++ str " W" ++ Reset) ;;
        (* Visual split bar *)
        if ChargerWatts d >? 0 then
          let barWidth := 40 in
          let batteryPct :=
            clamp_pct
              (int_of_f64
                 (f64_mul (f64_div batteryW (f64_of_int (ChargerWatts d)))
                          (f64_of_int 100))) in
          let systemPct := Int64.sub 100 batteryPct in
          bar <- lift (splitBar systemPct batteryPct barWidth) ;;
          put_line (str "  [" ++ bar ++ str "]") ;;
          put_line (str "   " ++ Cyan ++ str "system " ++ Itoa systemPct
                    ++ str "%" ++ Reset ++ str "          " ++ Yellow
                    ++ str "battery " ++ Itoa batteryPct ++ str "%"
                    ++ Reset)
        else ret tt
      else
        let drainW := f64_neg batteryW in
        put_line (Red ++ str "ON BATTERY" ++ Reset) ;;
        put_line (str "  Drain: " ++ Red ++ fmt_f 0 1 drainW ++ str " W"
                  ++ Reset)) ;;
     Println box_sep ;;
     put_line (Yellow ++ str "BATTERY" ++ Reset) ;;
     let status :=
       if IsCharging d then Green ++ str "charging" ++ Reset
       else if OnAC d then Blue ++ str "full/maintaining" ++ Reset
       else Red ++ str "draining" ++ Reset in
     put_line (str "  " ++ Itoa (BatteryPct d) ++ str "% │ "
               ++ fmt_f 0 2 batteryV ++ str "V │ "
               ++ Itoa (BatteryAmps d) ++ str "mA │ " ++ fmt_f 0 1 tempC
               ++ str "°C") ;;
     put_line (str "  " ++ status) ;;
     bar <- lift (colorBar (BatteryPct d) 44 Yellow) ;;
     put_line (str "  [" ++ bar ++ str "]") ;;
     Println box_sep ;;
     put_line now ;;
     Println box_bottom ;;
     Println []).

(** ** The fast producer: [main] *)

(** [CPU Power:\s+([\d.]+)\s+mW] and its siblings. *)
Definition power_re (label : string) : Regex :=
  Seq [Lit (str label); Plus is_space; Group 1 (Plus is_digit_or_dot);
       Plus is_space; Lit (str "mW")].

Definition cpuPowerRe : Regex := power_re "CPU Power:".
Definition gpuPowerRe : Regex := power_re "GPU Power:".
Definition anePowerRe : Regex := power_re "ANE Power:".
Definition packageRe : Regex := power_re "Combined Power (CPU + GPU + ANE):".
Definition batteryPctRe : Regex :=
  Seq [Lit (str "percent_charge:"); Plus is_space; Group 1 (Plus is_digit)].

Fixpoint HasPrefix (s prefix : gostring) : bool :=
  match prefix, s with
  | [], _ => true
  | p :: prefix', c :: s' => Ascii.eqb c p && HasPrefix s' prefix'
  | _ :: _, [] => false
  end.

(** [if m := re.FindStringSubmatch(text); m != nil
     { field, _ = parse(m[1]) }] *)
Definition scan_field {V} (re : Regex) (text : gostring)
    (parse : gostring -> V * option NumError)
    (set : V -> PowerData -> PowerData) : M unit :=
  match FindStringSubmatch re text with
  | [] => ret tt
  | m => m1 <- lift (nth_error m 1) ;; store (set (fst (parse m1)))
  end.

(** The writes of one iteration of the scanner loop, under the lock. *)
Definition scan_line (text : gostring) : M unit :=
  emit MuLock ;;
  scan_field cpuPowerRe text ParseFloat set_CPUPower ;;
  scan_field gpuPowerRe text ParseFloat set_GPUPower ;;
  scan_field anePowerRe text ParseFloat set_ANEPower ;;
  scan_field packageRe text ParseFloat set_PackagePower ;;
  scan_field batteryPctRe text Atoi set_BatteryPct ;;
  emit MuUnlock.

(** A line of the scanner, with the wall-clock time at which it is
    handled. *)
Record Line : Type := mkLine {
  text : gostring;
  clock : gostring
}.

Fixpoint scanner_loop (ls : list Line) : M unit :=
  match ls with
  | [] => ret tt
  | l :: ls' =>
      scan_line (text l) ;;
      (if HasPrefix (text l) (str "***") then render (clock l)
       else ret tt) ;;
      scanner_loop ls'
  end.

(** [bufio.MaxScanTokenSize], the size to which the scanner lets its
    buffer grow. *)
Definition MaxScanTokenSize : Z := 65536.

(** The lines that [scanner.Scan] hands to the loop, of the lines that
    the child process writes.  A line and its newline must fit the
    buffer: at the first line of [MaxScanTokenSize] bytes or more [Scan]
    returns [false] ([bufio.ErrTooLong]) and the loop ends, whatever
    follows. *)
Fixpoint Scan (ls : list Line) : list Line :=
  match ls with
  | [] => []
  | l :: ls' =>
      if len (text l) >=? MaxScanTokenSize then [] else l :: Scan ls'
  end.

(** What the environment answers to [main]: the errors of
    [cmd.StdoutPipe()] and [cmd.Start()] ([None] is [nil]) and the lines
    the child process writes before its output closes, each without the
    newline that ends it ([powermetrics] writes no carriage return). *)
Record Env : Type := mkEnv {
  pipe_err : option gostring;
  start_err : option gostring;
  lines : list Line
}.

(** [main].  [Go f] records that the goroutine [f] is started: the
    poller, whose run is [pollIoreg], and the handler of the interrupt
    signal, which is not followed here. *)
Definition main (env : Env) : M unit :=
  Print (ESC :: str "[?25l") ;;      (* hide cursor *)
  Print (ESC :: str "[H" ++ ESC :: str "[2J") ;;  (* clear *)
  emit (Go "pollIoreg") ;;
  match pipe_err env with
  | Some err => Println (str "Error: " ++ err)
  | None =>
      match start_err env with
      | Some err =>
          Println (str "Error starting powermetrics (need sudo): " ++ err)
      | None =>
          emit SignalNotify ;;
          emit (Go "func1") ;;
          defer (emit ProcessKill) (scanner_loop (Scan (lines env)))
      end
  end.

End Render.


(** ** Auxiliary definitions used in the statements *)

(** [n] copies of a glyph. *)
Definition cells (glyph : gostring) (n : Z) : gostring :=
  concat (repeat glyph (Z.to_nat n)).

(** A computation that leaves the snapshot as it found it and whose only
    effect is output. *)
Definition prints_only {A} (m : M A) : Prop :=
  forall d,
    state_of (m d) = d /\ exists outs, trace_of (m d) = map Out outs.

(** [s] without the prefix [p], when it starts with it. *)
Fixpoint strip_prefix (p s : gostring) : option gostring :=
  match p, s with
  | [], _ => Some s
  | c :: p', x :: s' => if Ascii.eqb x c then strip_prefix p' s' else None
  | _ :: _, [] => None
  end.

(** The longest prefix of [s] in the class [p], and what follows it. *)
Fixpoint take_while (p : ascii -> bool) (s : gostring) : gostring :=
  match s with
  | c :: s' => if p c then c :: take_while p s' else []
  | [] => []
  end.

Fixpoint drop_while (p : ascii -> bool) (s : gostring) : gostring :=
  match s with
  | c :: s' => if p c then drop_while p s' else s
  | [] => []
  end.

(** The contract of the bounded extractor in the specification's words:
    the pattern matches, the captured value parses and lies within the
    range. *)
Definition extracts (s : gostring) (re : Regex) (min max v : Z) : Prop :=
  exists whole cap rest,
    FindStringSubmatch re s = whole :: cap :: rest
    /\ Atoi cap = (v, None)
    /\ min <= v <= max.

(** The value [num / den] of a finite [float64]. *)
Definition represents (f : float64) (num den : Z) : Prop :=
  match f with
  | S754_zero _ => num = 0
  | S754_finite sg m e =>
      let v := if sg then Zneg m else Zpos m in
      match e with
      | Zneg k => v * den = num * 2 ^ Zpos k
      | _ => v * 2 ^ e * den = num
      end
  | _ => False
  end.

(** A run of digits at the start of [t], and the same with an optional
    minus sign: what is left after it. *)
Definition unsigned_digits (t : gostring) : option gostring :=
  match t with
  | y :: u => if is_digit y then Some (drop_while is_digit u) else None
  | [] => None
  end.

Definition signed_digits (t : gostring) : option gostring :=
  match t with
  | x :: t' =>
      if is_char "-" x then orelse (unsigned_digits t') (unsigned_digits t)
      else unsigned_digits t
  | [] => None
  end.

(** The key of the battery current in a dump. *)
Definition amperage_key : gostring := quoted "Amperage" ++ str " = ".

(** What one conditional assignment of [pollIoreg] does to the
    snapshot. *)
Definition int_update (s : gostring) (re : Regex) (min max : Z)
    (set : Z -> PowerData -> PowerData) (d : PowerData) : PowerData :=
  let '(v, ok) := extractInt s re min max in
  if ok then set v d else d.

Definition bool_update (s : gostring) (re : Regex)
    (set : bool -> PowerData -> PowerData) (d : PowerData) : PowerData :=
  let m := FindStringSubmatch re s in
  if len m >? 1 then set (string_eqb (nth 1 m []) (str "Yes")) d else d.

(** The eight conditional assignments of one successful poll, in the
    order of the source. *)
Definition poll_update (s : gostring) (d : PowerData) : PowerData :=
  let d := int_update s watts_re 0 500 set_ChargerWatts d in
  let d := int_update s adapterV_re 0 50000 set_ChargerVoltage d in
  let d := int_update s adapterA_re 0 10000 set_ChargerCurrent d in
  let d := int_update s batteryV_re 5000 25000 set_BatteryVoltage d in
  let d := int_update s batteryA_re (-15000) 15000 set_BatteryAmps d in
  let d := int_update s temp_re 0 10000 set_Temperature d in
  let d := bool_update s charging_re set_IsCharging d in
  bool_update s external_re set_OnAC d.

(** What one conditional assignment of the scanner loop does to the
    snapshot: the field takes what the parser returns for the capture,
    whether or not the parser reports an error. *)
Definition field_update {V} (re : Regex) (text : gostring)
    (parse : gostring -> V * option NumError)
    (set : V -> PowerData -> PowerData) (d : PowerData) : PowerData :=
  match FindStringSubmatch re text with
  | _ :: m1 :: _ => set (fst (parse m1)) d
  | _ => d
  end.

(** The five conditional assignments of one line, in the order of the
    source. *)
Definition scan_update (text : gostring) (d : PowerData) : PowerData :=
  let d := field_update cpuPowerRe text ParseFloat set_CPUPower d in
  let d := field_update gpuPowerRe text ParseFloat set_GPUPower d in
  let d := field_update anePowerRe text ParseFloat set_ANEPower d in
  let d := field_update packageRe text ParseFloat set_PackagePower d in
  field_update batteryPctRe text Atoi set_BatteryPct d.

(** The integer fields of the slow producer with their keys and
    plausibility ranges, as [pollIoreg] declares them. *)
Record IntField : Type := mkIntField {
  if_key : string;
  if_min : Z;
  if_max : Z;
  if_get : PowerData -> Z
}.

Definition slow_int_fields : list IntField :=
  [ mkIntField "watts" 0 500 ChargerWatts;
    mkIntField "adapterV" 0 50000 ChargerVoltage;
    mkIntField "adapterA" 0 10000 ChargerCurrent;
    mkIntField "batteryV" 5000 25000 BatteryVoltage;
    mkIntField "batteryA" (-15000) 15000 BatteryAmps;
    mkIntField "temp" 0 10000 Temperature ].

(** The boolean fields of the slow producer. *)
Definition slow_bool_fields : list (string * (PowerData -> bool)) :=
  [ ("charging"%string, IsCharging); ("external"%string, OnAC) ].

(** The milliwatt fields of the fast producer with their patterns. *)
Definition fast_float_fields : list (Regex * (PowerData -> float64)) :=
  [ (cpuPowerRe, CPUPower); (gpuPowerRe, GPUPower); (anePowerRe, ANEPower);
    (packageRe, PackagePower) ].

(** Zero, a positive finite value or plus infinity: not negative and not
    NaN. *)
Definition f64_nonneg (f : float64) : bool :=
  match f with
  | S754_zero _ => true
  | S754_finite sg _ _ => negb sg
  | S754_infinity sg => negb sg
  | S754_nan => false
  end.

(** What is left of [s] after a color sequence at its start:
    [ESC], [[], any digits and semicolons, [m]. *)
Definition sgr_rest (s : gostring) : option gostring :=
  match strip_prefix [ESC; "["%char] s with
  | Some t =>
      match drop_while is_digit_or_semi t with
      | x :: rest => if Ascii.eqb x "m" then Some rest else None
      | [] => None
      end
  | None => None
  end.

(** [ansiRe.ReplaceAllString] with the empty replacement. *)
Definition strip_ansi (s : gostring) : gostring :=
  ReplaceAllString ansiRe s [].

(** A character that no color sequence contains after its first one. *)
Definition separator (c : ascii) : bool :=
  negb (is_digit_or_semi c) && negb (Ascii.eqb c "m")
  && negb (Ascii.eqb c "[").

(** A single-byte character. *)
Definition is_ascii (c : ascii) : bool := byte c <? 128.

(** [b] is empty or its first byte is in [P]. *)
Definition head_in (P : ascii -> bool) (b : gostring) : bool :=
  match b with
  | [] => true
  | c :: _ => P c
  end.

(** The two glyphs of which bars are made. *)
Definition glyph (g : gostring) : Prop := g = FULL_BLOCK \/ g = LIGHT_SHADE.

(** A computation that returns normally from every snapshot. *)
Definition never_panics {A} (m : M A) : Prop :=
  forall d, result_of (m d) <> None.

(** A line that marks the end of a sample: the scanner loop renders
    after it. *)
Definition is_delimiter (l : Line) : bool := HasPrefix (text l) (str "***").

Definition is_rlock (e : event) : bool :=
  match e with MuRLock => true | _ => false end.

Definition is_sleep (e : event) : bool :=
  match e with Sleep _ => true | _ => false end.

(** The snapshot after the writes of a sequence of lines. *)
Definition scan_all (ls : list Line) (d : PowerData) : PowerData :=
  fold_left (fun d l => scan_update (text l) d) ls d.

(** The snapshot after one iteration of the poller. *)
Definition poll_step (d : PowerData) (r : CmdResult) : PowerData :=
  if is_nil (cmd_err r) then poll_update (cmd_out r) d else d.

(** What one goroutine holds of [data.mu]. *)
Inductive lock_state : Type := Free | Writing | Reading.

(** The discipline of a goroutine on [data.mu], checked along its
    effects: it takes the lock only when it holds nothing (the lock is not
    reentrant), releases what it holds, has no effect at all while it
    holds the write lock, only writes output while it holds the read
    lock, and holds nothing at the end. *)
Fixpoint well_locked (st : lock_state) (t : list event) : bool :=
  match t with
  | [] => match st with Free => true | _ => false end
  | e :: t' =>
      match st, e with
      | Free, MuLock => well_locked Writing t'
      | Writing, MuUnlock => well_locked Free t'
      | Free, MuRLock => well_locked Reading t'
      | Reading, MuRUnlock => well_locked Free t'
      | Reading, Out _ => well_locked Reading t'
      | Free, (Out _ | Sleep _ | Go _ | SignalNotify | ProcessKill) =>
          well_locked Free t'
      | _, _ => false
      end
  end.

(** The effects of one iteration of the poller. *)
Definition poll_trace (r : CmdResult) : list event :=
  if is_nil (cmd_err r) then [MuLock; MuUnlock; Sleep 5] else [Sleep 5].

(** A result of the command without error. *)
Definition cmd_ok (r : CmdResult) : bool := is_nil (cmd_err r).

(** The row under the split bar that names the two shares. *)
Definition share_labels (systemPct batteryPct : Z) : gostring :=
  str "   " ++ Cyan ++ str "system " ++ Itoa systemPct ++ str "%" ++ Reset
  ++ str "          " ++ Yellow ++ str "battery " ++ Itoa batteryPct
  ++ str "%" ++ Reset.

(** A content whose row is as wide as the border of the box. *)
Definition fits_the_box (content : gostring) : bool :=
  match line content with
  | Some row => visibleLen row =? line_width + 4
  | None => false
  end.

(** No proper suffix of [key] is a prefix of it: a reading of the key
    cannot start inside another one. *)
Definition borderless (key : gostring) : bool :=
  forallb (fun n => negb (HasPrefix key (skipn n key)))
          (seq 1 (length key - 1)).

(** A character that is not a decimal digit. *)
Definition not_digit (c : ascii) : bool := negb (is_digit c).

(** A run of at least one character of the class [p] at the start of
    [t]: what is left after the longest one. *)
Definition plus_step (p : ascii -> bool) (t : gostring) : option gostring :=
  match t with
  | x :: u => if p x then Some (drop_while p u) else None
  | [] => None
  end.

(** What a power pattern reads after its label: white space, the number,
    white space and the unit; the number and what is left. *)
Definition power_reading (t : gostring) : option (gostring * gostring) :=
  match plus_step is_space t with
  | Some t1 =>
      match plus_step is_digit_or_dot t1 with
      | Some t2 =>
          match plus_step is_space t2 with
          | Some t3 =>
              match strip_prefix (str "mW") t3 with
              | Some rest => Some (consumed t1 t2, rest)
              | None => None
              end
          | None => None
          end
      | None => None
      end
  | None => None
  end.

(** A character that no power pattern reads after its label. *)
Definition stopper (c : ascii) : bool :=
  negb (is_space c) && negb (is_digit_or_dot c)
  && negb (Ascii.eqb c "m") && negb (Ascii.eqb c "W").

(** From the snapshot [d] the computation returns normally, leaves [d]
    as it is and its effects are [n] writes to the terminal. *)
Definition emits {A} (n : nat) (m : M A) (d : PowerData) : Prop :=
  exists a outs, m d = (Some a, d, map Out outs) /\ length outs = n.

(** The number of points in [s]. *)
Definition points (s : gostring) : nat :=
  length (filter (fun c => byte c =? 46) s).

(** Digits and points that are not a decimal number: more than one
    point, or no digit. *)
Definition malformed (s : gostring) : bool :=
  (2 <=? points s)%nat || negb (existsb is_digit s).

(** What the pattern of the battery percentage reads after its label:
    white space and the digits; the digits and what is left. *)
Definition percent_reading (t : gostring) : option (gostring * gostring) :=
  match plus_step is_space t with
  | Some t1 =>
      match plus_step is_digit t1 with
      | Some t2 => Some (consumed t1 t2, t2)
      | None => None
      end
  | None => None
  end.

(** What a flag pattern reads after its key: the word and what is
    left. *)
Definition flag_word (t : gostring) : option (gostring * gostring) :=
  match strip_prefix (str "Yes") t with
  | Some r => Some (str "Yes", r)
  | None =>
      match strip_prefix (str "No") t with
      | Some r => Some (str "No", r)
      | None => None
      end
  end.

(** From the snapshot [d] the computation writes [o] to the terminal. *)
Definition writes {A} (o : gostring) (m : M A) (d : PowerData) : Prop :=
  In (Out o) (trace_of (m d)).

(** * Properties *)

(** ** Machine integers *)

Lemma wrap64_id (z : Z) : Int64.in_range z -> Int64.wrap64 z = z.
Proof.
  unfold Int64.in_range, Int64.wrap64, Int64.min_int, Int64.max_int.
  intros H. rewrite Z.mod_small; lia.
Qed.

Lemma wrap64_range (z : Z) : Int64.in_range (Int64.wrap64 z).
Proof.
  unfold Int64.in_range, Int64.wrap64, Int64.min_int, Int64.max_int.
  pose proof (Z.mod_pos_bound (z + 2 ^ 63) (2 ^ 64) ltac:(lia)). lia.
Qed.

Lemma max_int_val : Int64.max_int = 9223372036854775807.
Proof. reflexivity. Qed.

Lemma min_int_val : Int64.min_int = -9223372036854775808.
Proof. reflexivity. Qed.

Ltac int64_simpl :=
  repeat match goal with
  | |- context [Int64.wrap64 ?z] =>
      rewrite (wrap64_id z)
        by (unfold Int64.in_range; rewrite max_int_val, min_int_val; lia)
  end.

(** ** Repetition and shares *)

Lemma Repeat_ok (s : gostring) (n : Z) :
  0 <= n -> len s * n <= Int64.max_int -> Repeat s n = Some (cells s n).
Proof.
  intros Hn Hlen. unfold Repeat.
  destruct (n <? 0) eqn:E; [lia|].
  destruct (len s * n >? Int64.max_int) eqn:E'; [lia|]. reflexivity.
Qed.

Lemma clamp_pct_range (p : Z) : 0 <= clamp_pct p <= 100.
Proof.
  unfold clamp_pct. destruct (p <? 0) eqn:E1.
  - simpl. lia.
  - destruct (p >? 100) eqn:E2; lia.
Qed.

(** Without overflow, the scaled count [p * width / 100] of a share
    [0 <= p <= 100] lies between 0 and [width]. *)
Lemma share_bounds (p width : Z) :
  0 <= p <= 100 -> 0 <= width -> 0 <= p * width / 100 <= width.
Proof.
  intros Hp Hw. split.
  - apply Z.div_pos; nia.
  - apply Z.div_le_upper_bound; nia.
Qed.

Lemma share_int64 (p width : Z) :
  0 <= p <= 100 -> 0 <= width -> 100 * width <= Int64.max_int ->
  Int64.div (Int64.mul p width) 100 = p * width / 100.
Proof.
  intros Hp Hw Hmax. rewrite max_int_val in Hmax.
  pose proof (share_bounds p width Hp Hw) as Hb.
  unfold Int64.div, Int64.mul.
  rewrite (wrap64_id (p * width))
    by (unfold Int64.in_range; rewrite max_int_val, min_int_val; nia).
  rewrite Z.quot_div_nonneg by nia.
  apply wrap64_id. unfold Int64.in_range.
  rewrite max_int_val, min_int_val. lia.
Qed.

(** ** Regular expressions *)

Lemma strip_prefix_app (p s : gostring) : strip_prefix p (p ++ s) = Some s.
Proof.
  induction p as [|c p IH]; simpl; [reflexivity|].
  rewrite Ascii.eqb_refl. exact IH.
Qed.

Lemma strip_prefix_Some (p s t : gostring) :
  strip_prefix p s = Some t -> s = p ++ t.
Proof.
  revert s. induction p as [|c p IH]; intros s H; simpl in *.
  - congruence.
  - destruct s as [|x s]; [discriminate|].
    destruct (Ascii.eqb x c) eqn:E; [|discriminate].
    apply Ascii.eqb_eq in E. subst x. f_equal. apply IH. exact H.
Qed.

Section RunLemmas.
Context {R : Type}.

Lemma run_Lit (L s : gostring) (cs : captures)
    (k : gostring -> captures -> option R) :
  run (Lit L) s cs k
  = match strip_prefix L s with Some r => k r cs | None => None end.
Proof.
  revert s. induction L as [|c L IH]; intros s.
  - reflexivity.
  - destruct L as [|c2 L].
    + simpl. destruct s as [|x s]; [reflexivity|].
      destruct (Ascii.eqb x c); reflexivity.
    + change (Lit (c :: c2 :: L)) with (Cat (Chr c) (Lit (c2 :: L))).
      cbn [run]. destruct s as [|x s]; [reflexivity|].
      cbn [strip_prefix]. destruct (Ascii.eqb x c); [apply IH|reflexivity].
Qed.

(** A greedy repetition whose continuation accepts the longest run
    stops there. *)
Lemma rep_greedy (p : ascii -> bool) (s : gostring)
    (k : gostring -> option R) (r : R) :
  k (drop_while p s) = Some r -> rep p s k = Some r.
Proof.
  induction s as [|c s IH]; simpl; intros H.
  - exact H.
  - destruct (p c); [|exact H]. rewrite (IH H). reflexivity.
Qed.

End RunLemmas.

Lemma take_drop_while (p : ascii -> bool) (s : gostring) :
  take_while p s ++ drop_while p s = s.
Proof.
  induction s as [|c s IH]; simpl; [reflexivity|].
  destruct (p c); simpl; [rewrite IH|]; reflexivity.
Qed.

Lemma take_while_all (p : ascii -> bool) (s : gostring) :
  forallb p (take_while p s) = true.
Proof.
  induction s as [|c s IH]; simpl; [reflexivity|].
  destruct (p c) eqn:E; simpl; [rewrite E, IH|]; reflexivity.
Qed.

Lemma consumed_app (a rest : gostring) : consumed (a ++ rest) rest = a.
Proof.
  unfold consumed. rewrite length_app.
  replace (length a + length rest - length rest)%nat with (length a) by lia.
  rewrite firstn_app, Nat.sub_diag, firstn_all. simpl. apply app_nil_r.
Qed.

Lemma FindStringSubmatch_length (re : Regex) (s : gostring) :
  FindStringSubmatch re s = []
  \/ length (FindStringSubmatch re s) = S (NumSubexp re).
Proof.
  induction s as [|c s IH]; simpl.
  - destruct (match_at re []) as [[rest cs]|]; [right|left; reflexivity].
    simpl. rewrite length_map, length_seq. reflexivity.
  - destruct (match_at re (c :: s)) as [[rest cs]|]; [right|exact IH].
    simpl. rewrite length_map, length_seq. reflexivity.
Qed.

(** ** The bounded extractor *)

Lemma extractInt_true (s : gostring) (re : Regex) (min max v : Z) :
  extractInt s re min max = (v, true) <-> extracts s re min max v.
Proof.
  unfold extractInt, extracts.
  destruct (FindStringSubmatch re s) as [|whole [|cap rest]] eqn:Hm.
  - simpl. split; [discriminate|]. intros (w & c & r & H & _). discriminate.
  - simpl. split; [discriminate|]. intros (w & c & r & H & _). discriminate.
  - replace (len (whole :: cap :: rest) >? 1) with true
      by (unfold len; simpl length; symmetry; apply Z.gtb_lt; lia).
    cbn [nth]. destruct (Atoi cap) as [v0 err] eqn:Ha. split.
    + intros H. exists whole, cap, rest. split; [reflexivity|].
      destruct err as [e|]; [discriminate|]. simpl in H.
      destruct (v0 >=? min) eqn:E1; [|discriminate].
      destruct (v0 <=? max) eqn:E2; [|discriminate].
      injection H as ->. split; [exact Ha|]. lia.
    + intros (w & c & r & H & Hc & Hr). injection H as -> -> ->.
      rewrite Hc in Ha. injection Ha as <- <-. simpl.
      destruct (v >=? min) eqn:E1; [|lia].
      destruct (v <=? max) eqn:E2; [|lia]. reflexivity.
Qed.

Lemma extractInt_false (s : gostring) (re : Regex) (min max v : Z) :
  extractInt s re min max = (v, false) -> v = 0.
Proof.
  unfold extractInt.
  destruct (len (FindStringSubmatch re s) >? 1); [|congruence].
  destruct (Atoi _) as [v0 err].
  destruct (is_nil err && (v0 >=? min) && (v0 <=? max)); congruence.
Qed.

Lemma extractInt_cases (s : gostring) (re : Regex) (min max : Z) :
  (exists v, extractInt s re min max = (v, true) /\ extracts s re min max v)
  \/ (extractInt s re min max = (0, false)
      /\ forall v, ~ extracts s re min max v).
Proof.
  destruct (extractInt s re min max) as [v [|]] eqn:E.
  - left. exists v. split; [reflexivity|]. apply extractInt_true. exact E.
  - right. rewrite (extractInt_false _ _ _ _ _ E) in *. split; [reflexivity|].
    intros v' H. apply extractInt_true in H. congruence.
Qed.

(** *** The pattern of the battery current *)

Lemma batteryA_match_at (s : gostring) :
  match_at batteryA_re s
  = match strip_prefix amperage_key s with
    | Some t =>
        match signed_digits t with
        | Some rest => Some (rest, [(1%nat, consumed t rest)])
        | None => None
        end
    | None => None
    end.
Proof.
  unfold match_at, batteryA_re. fold amperage_key.
  change (Seq [Lit amperage_key;
               Group 1 (Cat (Opt (is_char "-")) (Plus is_digit))])
    with (Cat (Lit amperage_key)
              (Group 1 (Cat (Opt (is_char "-")) (Plus is_digit)))).
  cbn [run]. rewrite run_Lit.
  destruct (strip_prefix amperage_key s) as [t|]; [|reflexivity].
  destruct t as [|x t']; [reflexivity|]. cbn [signed_digits].
  unfold unsigned_digits.
  destruct (is_char "-" x).
  - destruct t' as [|y u].
    + destruct (is_digit x); reflexivity.
    + destruct (is_digit y).
      * erewrite rep_greedy by reflexivity. reflexivity.
      * destruct (is_digit x); [|reflexivity].
        erewrite rep_greedy by reflexivity. reflexivity.
  - destruct (is_digit x); [|reflexivity].
    erewrite rep_greedy by reflexivity. reflexivity.
Qed.

Lemma strip_prefix_app_cases (L a X t : gostring) :
  strip_prefix L (a ++ X) = Some t ->
  (exists t', strip_prefix L a = Some t' /\ t = t' ++ X)
  \/ (exists L2, L = a ++ L2 /\ L2 <> [] /\ strip_prefix L2 X = Some t).
Proof.
  revert a. induction L as [|c L IH]; intros a H.
  - left. exists a. simpl in *. split; congruence.
  - destruct a as [|x a].
    + right. exists (c :: L). repeat split; [discriminate | exact H].
    + simpl in H |- *. destruct (Ascii.eqb x c) eqn:E; [|discriminate].
      apply Ascii.eqb_eq in E. subst x.
      destruct (IH a H) as [(t' & H1 & H2)|(L2 & H1 & H2 & H3)].
      * left. exists t'. split; assumption.
      * right. exists L2. subst L. repeat split; assumption.
Qed.

(** No proper suffix of the key starts a text that begins with the
    key's first two characters. *)
Lemma amperage_key_no_overlap (a L2 rest t : gostring) :
  a <> [] -> amperage_key = a ++ L2 -> L2 <> [] ->
  strip_prefix L2 (DQUOTE :: "A"%char :: rest) = Some t -> False.
Proof.
  intros Ha H HL2 Hs. vm_compute in H.
  destruct a as [|c a]; [contradiction|].
  simpl in H. injection H as _ H.
  repeat (destruct a as [|? a];
          [ simpl in H; subst L2; cbn in Hs; discriminate
          | simpl in H; injection H as _ H ]).
  destruct a; [simpl in H; subst L2; contradiction | discriminate].
Qed.

Lemma unsigned_digits_app (u X : gostring) :
  u <> [] ->
  unsigned_digits u = None -> unsigned_digits (u ++ X) = None.
Proof.
  destruct u as [|y u]; [contradiction|]. simpl.
  destruct (is_digit y); [discriminate|reflexivity].
Qed.

Lemma signed_digits_app (t rest : gostring) :
  signed_digits t = None ->
  signed_digits (t ++ DQUOTE :: rest) = None.
Proof.
  destruct t as [|x t]; [reflexivity|].
  cbn [signed_digits app]. destruct (is_char "-" x).
  - destruct (unsigned_digits t) eqn:E1; [discriminate|].
    cbn [orelse]. intros E2.
    change (x :: t ++ DQUOTE :: rest) with ((x :: t) ++ DQUOTE :: rest).
    rewrite (unsigned_digits_app (x :: t)) by (discriminate || assumption).
    destruct t as [|y t]; [reflexivity|].
    rewrite (unsigned_digits_app (y :: t)) by (discriminate || assumption).
    reflexivity.
  - intros E.
    change (x :: t ++ DQUOTE :: rest) with ((x :: t) ++ DQUOTE :: rest).
    apply unsigned_digits_app; [discriminate | exact E].
Qed.

(** A match cannot start before a key and run into it. *)
Lemma batteryA_no_crossing (a rest : gostring) :
  a <> [] ->
  match_at batteryA_re a = None ->
  match_at batteryA_re (a ++ DQUOTE :: "A"%char :: rest) = None.
Proof.
  intros Ha H. rewrite batteryA_match_at in *.
  destruct (strip_prefix amperage_key (a ++ DQUOTE :: "A"%char :: rest))
    as [t|] eqn:E; [|reflexivity].
  destruct (strip_prefix_app_cases _ _ _ _ E)
    as [(t' & H1 & H2)|(L2 & H1 & H2 & H3)].
  - rewrite H1 in H. subst t.
    destruct (signed_digits t') eqn:E'; [discriminate|].
    rewrite signed_digits_app by exact E'. reflexivity.
  - exfalso. exact (amperage_key_no_overlap a L2 rest t Ha H1 H2 H3).
Qed.

Lemma FindStringSubmatch_nil_cons (re : Regex) (c : ascii) (s : gostring) :
  FindStringSubmatch re (c :: s) = [] ->
  match_at re (c :: s) = None /\ FindStringSubmatch re s = [].
Proof.
  simpl. destruct (match_at re (c :: s)) as [[rest cs]|]; [discriminate|].
  intros H. split; [reflexivity | exact H].
Qed.

(** Text without a reading of the battery current does not change which
    reading is found after it. *)
Lemma batteryA_skip_prefix (pre rest : gostring) :
  FindStringSubmatch batteryA_re pre = [] ->
  FindStringSubmatch batteryA_re (pre ++ DQUOTE :: "A"%char :: rest)
  = FindStringSubmatch batteryA_re (DQUOTE :: "A"%char :: rest).
Proof.
  induction pre as [|c pre IH]; intros H; [reflexivity|].
  apply FindStringSubmatch_nil_cons in H. destruct H as [H1 H2].
  change ((c :: pre) ++ DQUOTE :: "A"%char :: rest)
    with (c :: (pre ++ DQUOTE :: "A"%char :: rest)).
  cbn [FindStringSubmatch].
  change (c :: (pre ++ DQUOTE :: "A"%char :: rest))
    with ((c :: pre) ++ DQUOTE :: "A"%char :: rest).
  rewrite batteryA_no_crossing by (discriminate || assumption).
  apply IH. exact H2.
Qed.

(** *** [Atoi] on digits *)

Lemma digit_val_range (c : ascii) : is_digit c = true -> 0 <= digit_val c <= 9.
Proof.
  unfold is_digit, in_rng, digit_val. intros H.
  apply andb_true_iff in H. destruct H as [H1 H2]. lia.
Qed.

Lemma digits_value_ge (s : gostring) (acc : Z) :
  forallb is_digit s = true -> 0 <= acc -> acc <= digits_value acc s.
Proof.
  revert acc. induction s as [|c s IH]; intros acc H Hacc; simpl in *.
  - lia.
  - apply andb_true_iff in H. destruct H as [Hc Hs].
    pose proof (digit_val_range c Hc).
    specialize (IH (acc * 10 + digit_val c) Hs ltac:(lia)). lia.
Qed.

(** However many digits follow it, -999999 stays below the range of the
    battery current, or stops being a number that fits. *)
Lemma Atoi_below_range (tw : gostring) :
  forallb is_digit tw = true ->
  let '(v, err) := Atoi (str "-999999" ++ tw) in
  is_nil err && (v >=? -15000) && (v <=? 15000) = false.
Proof.
  intros Htw. unfold Atoi.
  change (str "-999999" ++ tw)
    with ("-"%char :: (str "999999" ++ tw)).
  cbv iota beta. rewrite Ascii.eqb_refl. cbn [orb].
  change (str "999999" ++ tw) with ("9"%char :: (str "99999" ++ tw)).
  cbv iota beta.
  change ("9"%char :: (str "99999" ++ tw)) with (str "999999" ++ tw).
  rewrite forallb_app, Htw.
  change (forallb is_digit (str "999999")) with true. cbn [andb].
  assert (Hge : 999999 <= digits_value 0 (str "999999" ++ tw)).
  { change (digits_value 0 (str "999999" ++ tw))
      with (digits_value 999999 tw).
    apply digits_value_ge; [exact Htw | lia]. }
  destruct (digits_value 0 (str "999999" ++ tw) >? 2 ^ 63); [reflexivity|].
  cbn [is_nil andb].
  destruct (- digits_value 0 (str "999999" ++ tw) >=? -15000) eqn:E;
    [lia | reflexivity].
Qed.

Lemma FindStringSubmatch_eq (re : Regex) (s : gostring) :
  FindStringSubmatch re s
  = match match_at re s with
    | Some (rest, cs) =>
        consumed s rest
        :: map (fun i => lookup_capture i cs) (seq 1 (NumSubexp re))
    | None =>
        match s with
        | [] => []
        | _ :: s' => FindStringSubmatch re s'
        end
    end.
Proof. destruct s; reflexivity. Qed.

Lemma batteryA_find_at_key (t rest : gostring) :
  signed_digits t = Some rest ->
  FindStringSubmatch batteryA_re (amperage_key ++ t)
  = [consumed (amperage_key ++ t) rest; consumed t rest].
Proof.
  intros H. rewrite FindStringSubmatch_eq, batteryA_match_at.
  rewrite strip_prefix_app, H. reflexivity.
Qed.

(** The reading ["Amperage" = -999999], whatever follows it, is what the
    pattern finds and is rejected by the range of the battery current. *)
Lemma extractInt_amperage_rejected (pre post : gostring) :
  FindStringSubmatch batteryA_re pre = [] ->
  extractInt (pre ++ amperage_key ++ str "-999999" ++ post)
             batteryA_re (-15000) 15000
  = (0, false).
Proof.
  intros Hpre. unfold extractInt.
  change (amperage_key ++ str "-999999" ++ post)
    with (DQUOTE :: "A"%char
          :: (str "mperage" ++ DQUOTE :: str " = -999999" ++ post)).
  rewrite batteryA_skip_prefix by exact Hpre.
  change (DQUOTE :: "A"%char
          :: (str "mperage" ++ DQUOTE :: str " = -999999" ++ post))
    with (amperage_key ++ str "-999999" ++ post).
  rewrite (batteryA_find_at_key _ (drop_while is_digit post))
    by reflexivity.
  change (len [consumed (amperage_key ++ str "-999999" ++ post)
                        (drop_while is_digit post);
               consumed (str "-999999" ++ post) (drop_while is_digit post)]
          >? 1) with true.
  cbn [nth].
  replace (consumed (str "-999999" ++ post) (drop_while is_digit post))
    with (str "-999999" ++ take_while is_digit post).
  - pose proof (Atoi_below_range (take_while is_digit post)
                                 (take_while_all _ _)) as H.
    destruct (Atoi (str "-999999" ++ take_while is_digit post)) as [v err].
    rewrite H. reflexivity.
  - rewrite <- (take_drop_while is_digit post) at 2.
    rewrite app_assoc. symmetry. apply consumed_app.
Qed.

(** ** The slow producer as a function of the dump *)

Lemma poll_int_run (s : gostring) (key : string) (re : Regex) (min max : Z)
    (set : Z -> PowerData -> PowerData) (d : PowerData) :
  patterns key = Some re ->
  poll_int s key min max set d = (Some tt, int_update s re min max set d, []).
Proof.
  intros H. unfold poll_int, int_update, bind. rewrite H. simpl.
  destruct (extractInt s re min max) as [v [|]]; reflexivity.
Qed.

Lemma poll_bool_run (s : gostring) (key : string) (re : Regex)
    (set : bool -> PowerData -> PowerData) (d : PowerData) :
  patterns key = Some re ->
  poll_bool s key set d = (Some tt, bool_update s re set d, []).
Proof.
  intros H. unfold poll_bool, bool_update, bind. rewrite H. simpl.
  destruct (len (FindStringSubmatch re s) >? 1); reflexivity.
Qed.

Lemma pollIoreg_iter_ok (r : CmdResult) (d : PowerData) :
  cmd_err r = None ->
  pollIoreg_iter r d
  = (Some tt, poll_update (cmd_out r) d, [MuLock; MuUnlock; Sleep 5]).
Proof.
  intros H. unfold pollIoreg_iter. rewrite H. cbn [is_nil].
  unfold bind, emit.
  rewrite (poll_int_run _ "watts" watts_re) by reflexivity.
  rewrite (poll_int_run _ "adapterV" adapterV_re) by reflexivity.
  rewrite (poll_int_run _ "adapterA" adapterA_re) by reflexivity.
  rewrite (poll_int_run _ "batteryV" batteryV_re) by reflexivity.
  rewrite (poll_int_run _ "batteryA" batteryA_re) by reflexivity.
  rewrite (poll_int_run _ "temp" temp_re) by reflexivity.
  rewrite (poll_bool_run _ "charging" charging_re) by reflexivity.
  rewrite (poll_bool_run _ "external" external_re) by reflexivity.
  reflexivity.
Qed.

Section Frames.
Context {T : Type} (g : PowerData -> T).

Lemma int_update_frame (s : gostring) (re : Regex) (min max : Z)
    (set : Z -> PowerData -> PowerData) (d : PowerData) :
  (forall v d', g (set v d') = g d') ->
  g (int_update s re min max set d) = g d.
Proof.
  intros H. unfold int_update.
  destruct (extractInt s re min max) as [v [|]]; [apply H|reflexivity].
Qed.

Lemma bool_update_frame (s : gostring) (re : Regex)
    (set : bool -> PowerData -> PowerData) (d : PowerData) :
  (forall v d', g (set v d') = g d') ->
  g (bool_update s re set d) = g d.
Proof.
  intros H. unfold bool_update.
  destruct (len (FindStringSubmatch re s) >? 1); [apply H|reflexivity].
Qed.

End Frames.

Lemma int_update_own (g : PowerData -> Z) (s : gostring) (re : Regex)
    (min max : Z) (set : Z -> PowerData -> PowerData) (d : PowerData) :
  (forall v d', g (set v d') = v) ->
  g (int_update s re min max set d)
  = (let '(v, ok) := extractInt s re min max in if ok then v else g d).
Proof.
  intros H. unfold int_update.
  destruct (extractInt s re min max) as [v [|]]; [apply H|reflexivity].
Qed.

Lemma bool_update_own (g : PowerData -> bool) (s : gostring) (re : Regex)
    (set : bool -> PowerData -> PowerData) (d : PowerData) :
  (forall v d', g (set v d') = v) ->
  g (bool_update s re set d)
  = match FindStringSubmatch re s with
    | _ :: m1 :: _ => string_eqb m1 (str "Yes")
    | _ => g d
    end.
Proof.
  intros H. unfold bool_update.
  destruct (FindStringSubmatch re s) as [|w [|m1 rest]];
    [reflexivity | reflexivity |].
  replace (len (w :: m1 :: rest) >? 1) with true
    by (unfold len; simpl length; symmetry; apply Z.gtb_lt; lia).
  apply H.
Qed.

Ltac frame :=
  repeat first
    [ rewrite int_update_frame by reflexivity
    | rewrite bool_update_frame by reflexivity ].

(** C2.  The bounded extractor returns [(v, true)] exactly when the
    pattern matches, the captured group parses as an integer [v] and
    [min <= v <= max]; in every other case it returns [(0, false)].  In
    particular, a dump whose first reading of the battery current is
    ["Amperage" = -999999] leaves [BatteryAmps] as it was. *)
Theorem extractInt_contract :
  (forall s re min max v,
      extractInt s re min max = (v, true) <-> extracts s re min max v)
  /\ (forall s re min max,
        (forall v, ~ extracts s re min max v) ->
        extractInt s re min max = (0, false))
  /\ (forall pre post d,
        FindStringSubmatch batteryA_re pre = [] ->
        let dump := pre ++ quoted "Amperage" ++ str " = -999999" ++ post in
        patterns "batteryA" = Some batteryA_re
        /\ extractInt dump batteryA_re (-15000) 15000 = (0, false)
        /\ BatteryAmps (state_of (pollIoreg_iter (mkCmdResult dump None) d))
           = BatteryAmps d).
Proof.
  split; [exact extractInt_true|]. split.
  - intros s re min max H.
    destruct (extractInt_cases s re min max) as [(v & _ & Hv)|[H0 _]];
      [destruct (H v Hv) | exact H0].
  - intros pre post d Hpre dump.
    assert (Hdump : dump = pre ++ amperage_key ++ str "-999999" ++ post).
    { unfold dump, amperage_key. rewrite <- !app_assoc. reflexivity. }
    assert (Hx : extractInt dump batteryA_re (-15000) 15000 = (0, false)).
    { rewrite Hdump. apply extractInt_amperage_rejected. exact Hpre. }
    split; [reflexivity|]. split; [exact Hx|].
    rewrite pollIoreg_iter_ok by reflexivity.
    unfold state_of, poll_update. cbn [fst snd cmd_out]. frame.
    rewrite (int_update_own BatteryAmps) by reflexivity.
    rewrite Hx. frame. reflexivity.
Qed.

(** A dump of three lines: the charger's wattage is taken, the battery
    current is out of range and keeps its previous value. *)
Lemma extractInt_contract_witness :
  let pre := quoted "Watts" ++ str "=65" ++ [NL] in
  let post := NL :: quoted "Temperature" ++ str " = 3010" ++ [NL] in
  let dump := pre ++ quoted "Amperage" ++ str " = -999999" ++ post in
  let d := set_BatteryAmps (-1200) data0 in
  patterns "batteryA" = Some batteryA_re
  /\ extractInt dump batteryA_re (-15000) 15000 = (0, false)
  /\ BatteryAmps (state_of (pollIoreg_iter (mkCmdResult dump None) d))
     = BatteryAmps d.
Proof.
  apply (proj2 (proj2 extractInt_contract)
           (quoted "Watts" ++ str "=65" ++ [NL])
           (NL :: quoted "Temperature" ++ str " = 3010" ++ [NL])
           (set_BatteryAmps (-1200) data0)).
  vm_compute. reflexivity.
Defined.

(** ** The renderer only reads *)

Lemma prints_only_ret {A} (a : A) : prints_only (ret a).
Proof. intros d. split; [reflexivity|]. exists []. reflexivity. Qed.

Lemma prints_only_panic {A} : prints_only (@panic A).
Proof. intros d. split; [reflexivity|]. exists []. reflexivity. Qed.

Lemma prints_only_load : prints_only load.
Proof. intros d. split; [reflexivity|]. exists []. reflexivity. Qed.

Lemma prints_only_lift {A} (o : option A) : prints_only (lift o).
Proof. destruct o; [apply prints_only_ret | apply prints_only_panic]. Qed.

Lemma prints_only_Print (s : gostring) : prints_only (Print s).
Proof. intros d. split; [reflexivity|]. exists [s]. reflexivity. Qed.

Lemma prints_only_Println (s : gostring) : prints_only (Println s).
Proof. intros d. split; [reflexivity|]. exists [s ++ [NL]]. reflexivity. Qed.

Lemma prints_only_bind {A B} (m : M A) (k : A -> M B) :
  prints_only m -> (forall a, prints_only (k a)) -> prints_only (bind m k).
Proof.
  intros Hm Hk d. unfold bind.
  destruct (Hm d) as [Hs [o1 Ht]].
  destruct (m d) as [[[a|] d1] t1]; unfold state_of, trace_of in *;
    simpl in *; subst d1 t1.
  - destruct (Hk a d) as [Hs' [o2 Ht']].
    destruct (k a d) as [[r d2] t2]; unfold state_of, trace_of in *;
      simpl in *. subst t2. split; [exact Hs'|].
    exists (o1 ++ o2). rewrite map_app. reflexivity.
  - split; [reflexivity|]. exists o1. reflexivity.
Qed.

Lemma prints_only_put_line (content : gostring) :
  prints_only (put_line content).
Proof.
  unfold put_line. apply prints_only_bind.
  - apply prints_only_lift.
  - intros row. apply prints_only_Println.
Qed.

Create HintDb printer discriminated.
#[local] Hint Resolve prints_only_ret prints_only_load prints_only_lift
  prints_only_Print prints_only_Println prints_only_put_line : printer.
#[local] Hint Extern 2 (prints_only (bind _ _)) =>
  apply prints_only_bind; [ | intros ? ] : printer.
#[local] Hint Extern 3 (prints_only (if ?b then _ else _)) =>
  destruct b : printer.

(** Between taking and releasing the lock, a computation that only
    prints. *)
Lemma locked_printer {A} (lock unlock : event) (body : M A) (d : PowerData) :
  prints_only body ->
  state_of ((emit lock ;; defer (emit unlock) body) d) = d
  /\ exists outs,
       trace_of ((emit lock ;; defer (emit unlock) body) d)
       = lock :: map Out outs ++ [unlock].
Proof.
  intros Hb. destruct (Hb d) as [Hs [outs Ht]].
  unfold bind, defer, emit, state_of, trace_of in *.
  destruct (body d) as [[r d1] t1]. simpl in *. subst d1 t1.
  split; [reflexivity|]. exists outs. reflexivity.
Qed.

(** C9.  Whatever the snapshot holds, [render] leaves every field of it
    as it was: it takes the read lock, never the write lock, and between
    taking the read lock and releasing it its only effect is output to
    the terminal. *)
Theorem render_leaves_snapshot_unchanged
    (FormatFloat : float64 -> Z -> gostring) (now : gostring)
    (d : PowerData) :
  state_of (render FormatFloat now d) = d
  /\ (exists outs,
        trace_of (render FormatFloat now d)
        = MuRLock :: map Out outs ++ [MuRUnlock])
  /\ ~ In MuLock (trace_of (render FormatFloat now d)).
Proof.
  assert (H : state_of (render FormatFloat now d) = d
              /\ exists outs,
                   trace_of (render FormatFloat now d)
                   = MuRLock :: map Out outs ++ [MuRUnlock]).
  { unfold render. apply locked_printer. cbv zeta. auto 60 with printer. }
  destruct H as [Hs [outs Ht]].
  split; [exact Hs|]. split; [exists outs; exact Ht|].
  rewrite Ht. intros [Hin|Hin]; [discriminate Hin|].
  apply in_app_or in Hin. destruct Hin as [Hin|[Hin|[]]];
    [|discriminate Hin].
  apply in_map_iff in Hin. destruct Hin as (x & Hx & _). discriminate Hx.
Qed.

(** ** Failures of the external commands *)

(** C7.  When the command of one poll iteration fails, the iteration
    changes no field, prints nothing, takes no lock and does not panic:
    it only sleeps its five seconds, and the loop goes on with the next
    iteration from the same snapshot. *)
Theorem failed_poll_is_skipped (r : CmdResult) (rs : list CmdResult)
    (d : PowerData) :
  cmd_err r <> None ->
  pollIoreg_iter r d = (Some tt, d, [Sleep 5])
  /\ pollIoreg (r :: rs) d
     = (result_of (pollIoreg rs d), state_of (pollIoreg rs d),
        Sleep 5 :: trace_of (pollIoreg rs d)).
Proof.
  intros Herr.
  assert (Hiter : pollIoreg_iter r d = (Some tt, d, [Sleep 5])).
  { unfold pollIoreg_iter. destruct (cmd_err r) as [e|]; [|congruence].
    reflexivity. }
  split; [exact Hiter|].
  simpl pollIoreg. unfold bind at 1. rewrite Hiter.
  unfold result_of, state_of, trace_of.
  destruct (pollIoreg rs d) as [[res d'] t]. reflexivity.
Qed.

(** A failed run between two good ones: the reading of the first dump
    is still there when the second arrives. *)
Lemma failed_poll_is_skipped_witness :
  let bad := mkCmdResult (quoted "Watts" ++ str "=99") (Some (str "exit status 1")) in
  let good := mkCmdResult (quoted "Watts" ++ str "=65") None in
  let d := set_ChargerWatts 45 data0 in
  pollIoreg_iter bad d = (Some tt, d, [Sleep 5])
  /\ pollIoreg [bad; good] d
     = (result_of (pollIoreg [good] d), state_of (pollIoreg [good] d),
        Sleep 5 :: trace_of (pollIoreg [good] d)).
Proof.
  apply (failed_poll_is_skipped
           (mkCmdResult (quoted "Watts" ++ str "=99")
                        (Some (str "exit status 1")))
           [mkCmdResult (quoted "Watts" ++ str "=65") None]
           (set_ChargerWatts 45 data0)).
  simpl. discriminate.
Defined.

(** The poller takes the write lock and sleeps; it has no other
    effect. *)
Lemma pollIoreg_trace (rs : list CmdResult) (d : PowerData) :
  Forall (fun e => e = MuLock \/ e = MuUnlock \/ e = Sleep 5)
         (trace_of (pollIoreg rs d)).
Proof.
  revert d. induction rs as [|r rs IH]; intros d; [constructor|].
  cbn [pollIoreg]. unfold bind.
  assert (H : exists d1 t1,
             pollIoreg_iter r d = (Some tt, d1, t1)
             /\ Forall (fun e => e = MuLock \/ e = MuUnlock \/ e = Sleep 5) t1).
  { destruct (cmd_err r) as [e|] eqn:E.
    - exists d, [Sleep 5]. split.
      + unfold pollIoreg_iter. rewrite E. reflexivity.
      + repeat (apply Forall_cons; [auto|]). apply Forall_nil.
    - exists (poll_update (cmd_out r) d), [MuLock; MuUnlock; Sleep 5].
      split; [apply pollIoreg_iter_ok; exact E|].
      repeat (apply Forall_cons; [auto|]). apply Forall_nil. }
  destruct H as (d1 & t1 & -> & Ht1).
  specialize (IH d1). unfold trace_of in *.
  destruct (pollIoreg rs d1) as [[res d2] t2]. simpl in *.
  apply Forall_app. split; assumption.
Qed.

Lemma render_takes_read_lock
    (FormatFloat : float64 -> Z -> gostring) (now : gostring)
    (d : PowerData) :
  exists t, trace_of (render FormatFloat now d) = MuRLock :: t.
Proof.
  unfold render, bind at 1, trace_of. unfold emit at 1.
  destruct (defer _ _ d) as [[r d2] t2].
  simpl. eexists. reflexivity.
Qed.

(** C8.  When the pipe cannot be created or the process cannot be
    started, [main] prints the error and returns: the snapshot is
    untouched and the run consists of the two start-up writes, the start
    of the poller and the error line.  The renderer, whose every run
    begins by taking the read lock, is never entered: neither [main] nor
    the poller it has started takes that lock. *)
Theorem launch_failure_never_renders
    (FormatFloat : float64 -> Z -> gostring) (env : Env) (d : PowerData) :
  pipe_err env <> None \/ start_err env <> None ->
  exists msg err,
    main FormatFloat env d
    = (Some tt, d,
       [Out (ESC :: str "[?25l"); Out (ESC :: str "[H" ++ ESC :: str "[2J");
        Go "pollIoreg"; Out (msg ++ err ++ [NL])])
    /\ (pipe_err env = Some err \/ start_err env = Some err)
    /\ HasPrefix msg (str "Error") = true
    /\ ~ In MuRLock (trace_of (main FormatFloat env d))
    /\ (forall rs d0, ~ In MuRLock (trace_of (pollIoreg rs d0)))
    /\ (forall now d0,
          exists t, trace_of (render FormatFloat now d0) = MuRLock :: t).
Proof.
  intros Hfail.
  assert (Hshape : exists msg err,
    main FormatFloat env d
    = (Some tt, d,
       [Out (ESC :: str "[?25l"); Out (ESC :: str "[H" ++ ESC :: str "[2J");
        Go "pollIoreg"; Out (msg ++ err ++ [NL])])
    /\ (pipe_err env = Some err \/ start_err env = Some err)
    /\ HasPrefix msg (str "Error") = true).
  { unfold main. destruct (pipe_err env) as [e|] eqn:Hp.
    - exists (str "Error: "), e. split; [|split; [left|]; reflexivity].
      unfold bind, Print, Println, emit. simpl. reflexivity.
    - destruct (start_err env) as [e|] eqn:Hs.
      + exists (str "Error starting powermetrics (need sudo): "), e.
        split; [|split; [right|]; reflexivity].
        unfold bind, Print, Println, emit. simpl. reflexivity.
      + destruct Hfail; congruence. }
  destruct Hshape as (msg & err & Hmain & Herr & Hmsg).
  exists msg, err. split; [exact Hmain|]. split; [exact Herr|].
  split; [exact Hmsg|]. split.
  - rewrite Hmain. unfold trace_of. simpl.
    intros [H|[H|[H|[H|[]]]]]; discriminate H.
  - split.
    + intros rs d0 Hin.
      pose proof (pollIoreg_trace rs d0) as Hall.
      rewrite Forall_forall in Hall.
      destruct (Hall _ Hin) as [H|[H|H]]; discriminate H.
    + intros now d0. apply render_takes_read_lock.
Qed.

(** [sudo] refuses: the process does not start. *)
Lemma launch_failure_never_renders_witness :
  let FormatFloat := fun (_ : float64) (_ : Z) => str "0.00" in
  let env := mkEnv None (Some (str "exit status 1"))
                   [mkLine (str "*** Sampled system activity") (str "12:00:00")] in
  exists msg err,
    main FormatFloat env data0
    = (Some tt, data0,
       [Out (ESC :: str "[?25l"); Out (ESC :: str "[H" ++ ESC :: str "[2J");
        Go "pollIoreg"; Out (msg ++ err ++ [NL])])
    /\ (pipe_err env = Some err \/ start_err env = Some err)
    /\ HasPrefix msg (str "Error") = true
    /\ ~ In MuRLock (trace_of (main FormatFloat env data0))
    /\ (forall rs d0, ~ In MuRLock (trace_of (pollIoreg rs d0)))
    /\ (forall now d0,
          exists t, trace_of (render FormatFloat now d0) = MuRLock :: t).
Proof.
  apply (launch_failure_never_renders
           (fun (_ : float64) (_ : Z) => str "0.00")
           (mkEnv None (Some (str "exit status 1"))
                  [mkLine (str "*** Sampled system activity") (str "12:00:00")])
           data0).
  right. simpl. discriminate.
Defined.

(** ** The fast producer as a function of the line *)

Lemma scan_field_run {V} (re : Regex) (text : gostring)
    (parse : gostring -> V * option NumError)
    (set : V -> PowerData -> PowerData) (d : PowerData) :
  NumSubexp re = 1%nat ->
  scan_field re text parse set d
  = (Some tt, field_update re text parse set d, []).
Proof.
  intros Hn. unfold scan_field, field_update.
  destruct (FindStringSubmatch_length re text) as [H|H].
  - rewrite H. reflexivity.
  - rewrite Hn in H.
    destruct (FindStringSubmatch re text) as [|w [|m1 [|x rest]]];
      try discriminate H.
    reflexivity.
Qed.

Lemma scan_line_run (text : gostring) (d : PowerData) :
  scan_line text d = (Some tt, scan_update text d, [MuLock; MuUnlock]).
Proof.
  unfold scan_line, bind, emit.
  rewrite !scan_field_run by reflexivity. reflexivity.
Qed.

Section FieldFrames.
Context {T V : Type} (g : PowerData -> T).

Lemma field_update_frame (re : Regex) (text : gostring)
    (parse : gostring -> V * option NumError)
    (set : V -> PowerData -> PowerData) (d : PowerData) :
  (forall v d', g (set v d') = g d') ->
  g (field_update re text parse set d) = g d.
Proof.
  intros H. unfold field_update.
  destruct (FindStringSubmatch re text) as [|w [|m1 rest]];
    [reflexivity | reflexivity | apply H].
Qed.

End FieldFrames.

Lemma field_update_own {V} (g : PowerData -> V) (re : Regex)
    (text : gostring) (parse : gostring -> V * option NumError)
    (set : V -> PowerData -> PowerData) (d : PowerData) :
  (forall v d', g (set v d') = v) ->
  g (field_update re text parse set d)
  = match FindStringSubmatch re text with
    | _ :: m1 :: _ => fst (parse m1)
    | _ => g d
    end.
Proof.
  intros H. unfold field_update.
  destruct (FindStringSubmatch re text) as [|w [|m1 rest]];
    [reflexivity | reflexivity | apply H].
Qed.

Ltac field_frame :=
  repeat (rewrite field_update_frame by reflexivity).

(** ** [ParseFloat] never returns a negative number *)

Lemma shr_1_nonneg (mrs : shr_record) :
  0 <= shr_m mrs -> 0 <= shr_m (shr_1 mrs).
Proof.
  destruct mrs as [m r s]. simpl.
  destruct m as [|p|p]; [simpl; lia | | lia].
  intros _. destruct p; simpl; lia.
Qed.

Lemma iter_pos_invariant {A} (P : A -> Prop) (f : A -> A) :
  (forall x, P x -> P (f x)) ->
  forall n x, P x -> P (iter_pos f n x).
Proof.
  intros Hf. induction n as [n IH|n IH|]; intros x Hx; simpl.
  - apply IH, IH, Hf, Hx.
  - apply IH, IH, Hx.
  - apply Hf, Hx.
Qed.

Lemma shr_fexp_nonneg (m e : Z) (l : location) :
  0 <= m -> 0 <= shr_m (fst (shr_fexp 53 1024 m e l)).
Proof.
  intros Hm. unfold shr_fexp, shr.
  assert (H0 : 0 <= shr_m (shr_record_of_loc m l)).
  { destruct l as [|[| |]]; exact Hm. }
  destruct (fexp 53 1024 (Zdigits2 m + e) - e) as [|p|p]; simpl;
    try exact H0.
  apply (iter_pos_invariant (fun x => 0 <= shr_m x)); [|exact H0].
  exact shr_1_nonneg.
Qed.

Lemma round_nearest_even_nonneg (m : Z) (l : location) :
  0 <= m -> 0 <= round_nearest_even m l.
Proof.
  intros Hm. unfold round_nearest_even.
  destruct l as [|[| |]]; try lia. destruct (Z.even m); lia.
Qed.

Lemma binary_round_aux_nonneg (mx ex : Z) (lx : location) :
  0 <= mx -> f64_nonneg (binary_round_aux 53 1024 false mx ex lx) = true.
Proof.
  intros Hm. unfold binary_round_aux.
  pose proof (shr_fexp_nonneg mx ex lx Hm) as H1.
  destruct (shr_fexp 53 1024 mx ex lx) as [mrs' e']. simpl in H1.
  pose proof (shr_fexp_nonneg
                (round_nearest_even (shr_m mrs') (loc_of_shr_record mrs'))
                e' loc_Exact
                (round_nearest_even_nonneg _ _ H1)) as H2.
  destruct (shr_fexp 53 1024 _ e' loc_Exact) as [mrs'' e'']. simpl in H2.
  destruct (shr_m mrs'') as [|p|p]; [reflexivity | | lia].
  destruct (e'' <=? 1024 - 53); reflexivity.
Qed.

Lemma f64_div_exact_nonneg (a b : Z) :
  0 < b -> f64_nonneg (f64_div (exact_int a) (exact_int b)) = true.
Proof.
  intros Hb. unfold f64_div, exact_int.
  destruct b as [|q|q]; try lia.
  destruct a as [|p|p]; try reflexivity.
  unfold SFdiv, SFdiv_core_binary. cbn [xorb].
  match goal with
  | |- context [Z.div_eucl ?m (Zpos q)] => set (m' := m)
  end.
  assert (Hm' : 0 <= m').
  { unfold m'.
    match goal with
    | |- 0 <= match ?s with _ => _ end =>
        destruct s; try lia; apply Z.shiftl_nonneg; lia
    end. }
  pose proof (Z.div_eucl_eq m' (Zpos q) ltac:(lia)) as Heq.
  pose proof (Z.mod_pos_bound m' (Zpos q) ltac:(lia)) as Hmod.
  unfold Z.modulo in Hmod.
  destruct (Z.div_eucl m' (Zpos q)) as [qq r].
  apply binary_round_aux_nonneg. nia.
Qed.

Lemma read_decimal_nonneg (s : gostring) (sawdot sawdigits : bool)
    (mant dp mant' dp' : Z) :
  read_decimal sawdot sawdigits mant dp s = Some (mant', dp') ->
  0 <= mant -> 0 <= dp -> 0 <= mant' /\ 0 <= dp'.
Proof.
  revert sawdot sawdigits mant dp.
  induction s as [|c s IH]; intros sawdot sawdigits mant dp H Hm Hd;
    simpl in H.
  - destruct sawdigits; [|discriminate]. injection H as <- <-. lia.
  - destruct (is_digit c) eqn:Ec.
    + pose proof (digit_val_range c Ec).
      apply IH in H; [exact H | lia | destruct sawdot; lia].
    + destruct (byte c =? 46); [|discriminate].
      destruct sawdot; [discriminate|].
      apply IH in H; [exact H | lia | lia].
Qed.

Lemma ParseFloat_nonneg (s : gostring) :
  f64_nonneg (fst (ParseFloat s)) = true.
Proof.
  unfold ParseFloat.
  destruct (read_decimal false false 0 0 s) as [[mant dp]|] eqn:E;
    [|reflexivity].
  apply read_decimal_nonneg in E; [|lia|lia].
  pose proof (f64_div_exact_nonneg mant (10 ^ dp)
                (Z.pow_pos_nonneg 10 dp ltac:(lia) ltac:(lia))) as H.
  destruct (f64_div (exact_int mant) (exact_int (10 ^ dp))); exact H.
Qed.

(** ** The capture of the battery percentage is a run of digits *)

Lemma rep_some {R} (p : ascii -> bool) (s : gostring)
    (k : gostring -> option R) (r : R) :
  rep p s k = Some r -> exists s', k s' = Some r.
Proof.
  induction s as [|c s IH]; simpl; intros H.
  - exists []. exact H.
  - destruct (p c).
    + destruct (rep p s k) as [r'|] eqn:E.
      * simpl in H. injection H as <-. apply IH. reflexivity.
      * simpl in H. exists (c :: s). exact H.
    + exists (c :: s). exact H.
Qed.

Lemma consumed_cons (c : ascii) (s rest : gostring) :
  (length rest <= length s)%nat ->
  consumed (c :: s) rest = c :: consumed s rest.
Proof.
  intros H. unfold consumed. simpl length.
  replace (S (length s) - length rest)%nat
    with (S (length s - length rest)) by lia.
  reflexivity.
Qed.

Lemma drop_while_length (p : ascii -> bool) (s : gostring) :
  (length (drop_while p s) <= length s)%nat.
Proof.
  induction s as [|c s IH]; simpl; [lia|].
  destruct (p c); simpl; lia.
Qed.

Lemma consumed_drop_while (p : ascii -> bool) (s : gostring) :
  consumed s (drop_while p s) = take_while p s.
Proof.
  rewrite <- (take_drop_while p s) at 1. apply consumed_app.
Qed.

Lemma batteryPct_capture (text w m1 : gostring) (rest : list gostring) :
  FindStringSubmatch batteryPctRe text = w :: m1 :: rest ->
  m1 <> [] /\ forallb is_digit m1 = true.
Proof.
  induction text as [|c text IH]; rewrite FindStringSubmatch_eq.
  - vm_compute. discriminate.
  - destruct (match_at batteryPctRe (c :: text)) as [[r cs]|] eqn:E;
      [|exact IH].
    intros H. injection H as _ H _.
    change (NumSubexp batteryPctRe) with 1%nat in H. simpl in H.
    revert E. unfold match_at, batteryPctRe.
    change (Seq [Lit (str "percent_charge:"); Plus is_space;
                 Group 1 (Plus is_digit)])
      with (Cat (Lit (str "percent_charge:"))
                (Cat (Plus is_space) (Group 1 (Plus is_digit)))).
    cbn [run]. rewrite run_Lit.
    destruct (strip_prefix (str "percent_charge:") (c :: text)) as [t|];
      [|discriminate].
    destruct t as [|x t]; [discriminate|].
    destruct (is_space x); [|discriminate].
    intros E. apply rep_some in E. destruct E as [s' E].
    destruct s' as [|y u]; [discriminate|].
    destruct (is_digit y) eqn:Ey; [|discriminate].
    erewrite rep_greedy in E by reflexivity.
    injection E as <- <-. simpl in H. subst m1.
    rewrite consumed_cons by apply drop_while_length.
    rewrite consumed_drop_while. split; [discriminate|].
    simpl. rewrite Ey. apply take_while_all.
Qed.

Lemma Atoi_digits (s : gostring) :
  s <> [] -> forallb is_digit s = true ->
  0 <= fst (Atoi s) <= Int64.max_int.
Proof.
  intros Hne Hd. destruct s as [|c s]; [contradiction|].
  unfold Atoi.
  assert (Hc : is_digit c = true).
  { simpl in Hd. apply andb_true_iff in Hd. tauto. }
  assert (Hm : Ascii.eqb c "-" = false).
  { destruct (Ascii.eqb c "-") eqn:E; [|reflexivity].
    apply Ascii.eqb_eq in E. subst c. discriminate Hc. }
  assert (Hp : Ascii.eqb c "+" = false).
  { destruct (Ascii.eqb c "+") eqn:E; [|reflexivity].
    apply Ascii.eqb_eq in E. subst c. discriminate Hc. }
  rewrite Hm, Hp. cbn [orb]. rewrite Hd.
  pose proof (digits_value_ge (c :: s) 0 Hd ltac:(lia)) as Hge.
  rewrite max_int_val.
  destruct (digits_value 0 (c :: s) >=? 2 ^ 63) eqn:E; cbn [fst]; lia.
Qed.

(** ** Which readings reach the snapshot *)

Ltac slow_field :=
  rewrite pollIoreg_iter_ok by assumption;
  unfold state_of, poll_update; cbn [fst snd if_get if_key if_min if_max];
  frame.

Lemma slow_int_field_rule (f : IntField) (r : CmdResult) (d : PowerData) :
  In f slow_int_fields -> cmd_err r = None ->
  exists re,
    patterns (if_key f) = Some re
    /\ if_get f (state_of (pollIoreg_iter r d))
       = (let '(v, ok) := extractInt (cmd_out r) re (if_min f) (if_max f) in
          if ok then v else if_get f d).
Proof.
  intros Hin Herr. simpl in Hin.
  destruct Hin as [<-|[<-|[<-|[<-|[<-|[<-|[]]]]]]];
    eexists; (split; [reflexivity|]); slow_field.
  - rewrite (int_update_own ChargerWatts) by reflexivity. frame.
    reflexivity.
  - rewrite (int_update_own ChargerVoltage) by reflexivity. frame.
    reflexivity.
  - rewrite (int_update_own ChargerCurrent) by reflexivity. frame.
    reflexivity.
  - rewrite (int_update_own BatteryVoltage) by reflexivity. frame.
    reflexivity.
  - rewrite (int_update_own BatteryAmps) by reflexivity. frame.
    reflexivity.
  - rewrite (int_update_own Temperature) by reflexivity. frame.
    reflexivity.
Qed.

Lemma slow_bool_field_rule (key : string) (get : PowerData -> bool)
    (r : CmdResult) (d : PowerData) :
  In (key, get) slow_bool_fields -> cmd_err r = None ->
  exists re,
    patterns key = Some re
    /\ get (state_of (pollIoreg_iter r d))
       = match FindStringSubmatch re (cmd_out r) with
         | _ :: m1 :: _ => string_eqb m1 (str "Yes")
         | _ => get d
         end.
Proof.
  intros Hin Herr. simpl in Hin.
  destruct Hin as [H|[H|[]]]; injection H as <- <-;
    eexists; (split; [reflexivity|]); slow_field.
  - rewrite (bool_update_own IsCharging) by reflexivity. frame.
    reflexivity.
  - rewrite (bool_update_own OnAC) by reflexivity. frame. reflexivity.
Qed.

Lemma fast_float_field_rule (re : Regex) (get : PowerData -> float64)
    (text : gostring) (d : PowerData) :
  In (re, get) fast_float_fields ->
  get (state_of (scan_line text d))
  = match FindStringSubmatch re text with
    | _ :: m1 :: _ => fst (ParseFloat m1)
    | _ => get d
    end.
Proof.
  intros Hin. simpl in Hin. rewrite scan_line_run.
  unfold state_of, scan_update. cbn [fst snd].
  destruct Hin as [H|[H|[H|[H|[]]]]]; injection H as <- <-; field_frame.
  - rewrite (field_update_own CPUPower) by reflexivity. reflexivity.
  - rewrite (field_update_own GPUPower) by reflexivity. field_frame.
    reflexivity.
  - rewrite (field_update_own ANEPower) by reflexivity. field_frame.
    reflexivity.
  - rewrite (field_update_own PackagePower) by reflexivity. field_frame.
    reflexivity.
Qed.

Lemma batteryPct_rule (text : gostring) (d : PowerData) :
  BatteryPct (state_of (scan_line text d))
  = match FindStringSubmatch batteryPctRe text with
    | _ :: m1 :: _ => fst (Atoi m1)
    | _ => BatteryPct d
    end.
Proof.
  rewrite scan_line_run. unfold state_of, scan_update. cbn [fst snd].
  rewrite (field_update_own BatteryPct) by reflexivity. field_frame.
  reflexivity.
Qed.

(** C1, as the code has it.  Each integer field of the slow producer is
    assigned by a successful poll exactly when its pattern matches the
    dump, the capture parses and the value lies within the field's
    declared range, and keeps its previous value otherwise: a value
    outside the range never reaches these fields.  The two boolean fields
    are assigned whenever their pattern matches.  The fields of the fast
    producer have no range check: each is assigned whenever its pattern
    matches the line, with what the parser returns for the capture, and
    keeps its previous value when the pattern does not match; what is
    stored in a milliwatt field or in the battery percentage is never
    negative. *)
Theorem snapshot_update_rule :
  (forall f r d, In f slow_int_fields -> cmd_err r = None ->
     exists re,
       patterns (if_key f) = Some re
       /\ let d' := state_of (pollIoreg_iter r d) in
          (forall v, extracts (cmd_out r) re (if_min f) (if_max f) v ->
                     if_get f d' = v)
          /\ ((forall v, ~ extracts (cmd_out r) re (if_min f) (if_max f) v) ->
              if_get f d' = if_get f d)
          /\ (if_get f d' = if_get f d
              \/ if_min f <= if_get f d' <= if_max f))
  /\ (forall key get r d, In (key, get) slow_bool_fields ->
        cmd_err r = None ->
        exists re,
          patterns key = Some re
          /\ get (state_of (pollIoreg_iter r d))
             = match FindStringSubmatch re (cmd_out r) with
               | _ :: m1 :: _ => string_eqb m1 (str "Yes")
               | _ => get d
               end)
  /\ (forall re get text d, In (re, get) fast_float_fields ->
        let d' := state_of (scan_line text d) in
        get d' = match FindStringSubmatch re text with
                 | _ :: m1 :: _ => fst (ParseFloat m1)
                 | _ => get d
                 end
        /\ (f64_nonneg (get d) = true -> f64_nonneg (get d') = true))
  /\ (forall text d,
        let d' := state_of (scan_line text d) in
        BatteryPct d' = match FindStringSubmatch batteryPctRe text with
                        | _ :: m1 :: _ => fst (Atoi m1)
                        | _ => BatteryPct d
                        end
        /\ (0 <= BatteryPct d -> 0 <= BatteryPct d')).
Proof.
  split; [|split; [|split]].
  - intros f r d Hin Herr.
    destruct (slow_int_field_rule f r d Hin Herr) as (re & Hre & Hget).
    exists re. split; [exact Hre|]. cbv zeta. rewrite Hget.
    destruct (extractInt_cases (cmd_out r) re (if_min f) (if_max f))
      as [(v & Hv & Hx)|[H0 Hno]].
    + rewrite Hv. split; [|split].
      * intros v' Hx'. apply extractInt_true in Hx'. congruence.
      * intros Hno. destruct (Hno v Hx).
      * right. destruct Hx as (_ & _ & _ & _ & _ & Hr). exact Hr.
    + rewrite H0. split; [|split].
      * intros v Hx. destruct (Hno v Hx).
      * reflexivity.
      * left. reflexivity.
  - exact slow_bool_field_rule.
  - intros re get text d Hin. cbv zeta.
    rewrite (fast_float_field_rule re get text d Hin).
    split; [reflexivity|]. intros Hd.
    destruct (FindStringSubmatch re text) as [|w [|m1 rest]];
      [exact Hd | exact Hd | apply ParseFloat_nonneg].
  - intros text d. cbv zeta. rewrite batteryPct_rule.
    split; [reflexivity|]. intros Hd.
    destruct (FindStringSubmatch batteryPctRe text) as [|w [|m1 rest]] eqn:E;
      [exact Hd | exact Hd |].
    destruct (batteryPct_capture _ _ _ _ E) as [Hne Hdig].
    apply (Atoi_digits m1 Hne Hdig).
Qed.

(** C1, as the specification states it, fails for the fields of the fast
    producer: a battery percentage of 150 is stored although it lies
    outside 0..100, and a match that does not parse as a number
    overwrites the previous reading with 0. *)
Lemma fast_producer_has_no_range_check :
  BatteryPct (state_of (scan_line (str "percent_charge: 150") data0)) = 150
  /\ ~ (0 <= 150 <= 100)
  /\ (let d := set_CPUPower (f64_of_int 1500) data0 in
      CPUPower (state_of (scan_line (str "CPU Power: 1.2.3 mW") d))
      = S754_zero false
      /\ CPUPower d <> S754_zero false).
Proof.
  split; [vm_compute; reflexivity|]. split; [lia|].
  cbv zeta. split; [vm_compute; reflexivity|]. vm_compute. discriminate.
Qed.

(** ** Stripping color sequences *)

Lemma orelse_None_r {A} (x : option A) : orelse x None = x.
Proof. destruct x; reflexivity. Qed.

(** A greedy repetition whose continuation rejects every text that
    starts inside the class never gives a character back. *)
Lemma rep_no_backtrack {R} (p : ascii -> bool) (s : gostring)
    (k : gostring -> option R) :
  (forall x s', p x = true -> k (x :: s') = None) ->
  rep p s k = k (drop_while p s).
Proof.
  intros Hk. induction s as [|c s IH]; simpl; [reflexivity|].
  destruct (p c) eqn:E; [|reflexivity].
  rewrite (Hk c s E), orelse_None_r. exact IH.
Qed.

Lemma ansi_match_at (s : gostring) :
  match_at ansiRe s
  = match sgr_rest s with Some rest => Some (rest, []) | None => None end.
Proof.
  unfold match_at, ansiRe, sgr_rest.
  change (Seq [Chr ESC; Chr "["; Star is_digit_or_semi; Chr "m"])
    with (Cat (Chr ESC)
              (Cat (Chr "[") (Cat (Star is_digit_or_semi) (Chr "m")))).
  cbn [run strip_prefix].
  destruct s as [|x s]; [reflexivity|].
  destruct (Ascii.eqb x ESC); [|reflexivity].
  destruct s as [|y s]; [reflexivity|].
  destruct (Ascii.eqb y "["); [|reflexivity].
  rewrite rep_no_backtrack.
  - destruct (drop_while is_digit_or_semi s) as [|z rest]; [reflexivity|].
    destruct (Ascii.eqb z "m"); reflexivity.
  - intros z s' Hz. destruct (Ascii.eqb z "m") eqn:E; [|reflexivity].
    apply Ascii.eqb_eq in E. subst z. discriminate Hz.
Qed.

Lemma sgr_rest_shape (s rest : gostring) :
  sgr_rest s = Some rest ->
  exists params, s = ESC :: "["%char :: params ++ "m"%char :: rest.
Proof.
  unfold sgr_rest.
  destruct (strip_prefix [ESC; "["%char] s) as [t|] eqn:E; [|discriminate].
  apply strip_prefix_Some in E. subst s.
  pose proof (take_drop_while is_digit_or_semi t) as Ht.
  destruct (drop_while is_digit_or_semi t) as [|x r]; [discriminate|].
  destruct (Ascii.eqb x "m") eqn:Ex; [|discriminate].
  apply Ascii.eqb_eq in Ex. subst x. intros H. injection H as <-.
  exists (take_while is_digit_or_semi t). rewrite Ht. reflexivity.
Qed.

Lemma replace_from_skip (re : Regex) (repl a rest : gostring) :
  replace_from re repl (length a) (a ++ rest) = replace_from re repl 0 rest.
Proof. induction a as [|c a IH]; [destruct rest|]; simpl; auto. Qed.

(** The recursion of [strip_ansi]: a color sequence at the start is
    dropped, any other first byte is kept. *)
Lemma strip_ansi_eq (s : gostring) :
  strip_ansi s
  = match sgr_rest s with
    | Some rest => strip_ansi rest
    | None =>
        match s with
        | [] => []
        | c :: s' => c :: strip_ansi s'
        end
    end.
Proof.
  unfold strip_ansi, ReplaceAllString.
  destruct s as [|c s']; [reflexivity|].
  cbn [replace_from]. unfold match_len. rewrite ansi_match_at.
  destruct (sgr_rest (c :: s')) as [rest|] eqn:E; [|reflexivity].
  destruct (sgr_rest_shape _ _ E) as [params Hs].
  injection Hs as -> ->.
  replace (length (ESC :: "["%char :: params ++ "m"%char :: rest)
           - length rest)%nat
    with (S (length ("["%char :: params ++ ["m"%char])))
    by (cbn [length]; rewrite !length_app; cbn [length]; lia).
  cbn [app].
  replace ("["%char :: params ++ "m"%char :: rest)
    with (("["%char :: params ++ ["m"%char]) ++ rest)
    by (simpl; rewrite <- app_assoc; reflexivity).
  apply replace_from_skip.
Qed.

Lemma sgr_rest_length (s rest : gostring) :
  sgr_rest s = Some rest -> (length rest < length s)%nat.
Proof.
  intros H. destruct (sgr_rest_shape _ _ H) as [params ->].
  simpl. rewrite length_app. simpl. lia.
Qed.

Lemma drop_while_app_sep (p : ascii -> bool) (t b : gostring) (c : ascii) :
  p c = false ->
  drop_while p (t ++ c :: b) = drop_while p t ++ c :: b.
Proof.
  intros Hc. induction t as [|x t IH]; simpl.
  - rewrite Hc. reflexivity.
  - destruct (p x); [exact IH | reflexivity].
Qed.

(** A separator after [a] does not change which color sequences are
    found in [a]. *)
Lemma sgr_rest_app_sep (a b : gostring) (c : ascii) :
  separator c = true -> a <> [] ->
  sgr_rest (a ++ c :: b)
  = match sgr_rest a with Some r => Some (r ++ c :: b) | None => None end.
Proof.
  intros Hc Ha. unfold separator in Hc.
  apply andb_true_iff in Hc. destruct Hc as [Hc Hc3].
  apply andb_true_iff in Hc. destruct Hc as [Hc1 Hc2].
  apply negb_true_iff in Hc1, Hc2, Hc3.
  unfold sgr_rest.
  destruct a as [|x a]; [contradiction|]. cbn [app strip_prefix].
  destruct (Ascii.eqb x ESC); [|reflexivity].
  destruct a as [|y a]; cbn [app strip_prefix].
  - rewrite Hc3. reflexivity.
  - destruct (Ascii.eqb y "["); [|reflexivity].
    rewrite drop_while_app_sep by exact Hc1.
    destruct (drop_while is_digit_or_semi a) as [|z r]; cbn [app].
    + rewrite Hc2. reflexivity.
    + destruct (Ascii.eqb z "m"); reflexivity.
Qed.

Lemma strip_ansi_app_sep (a b : gostring) (c : ascii) :
  separator c = true ->
  strip_ansi (a ++ c :: b) = strip_ansi a ++ strip_ansi (c :: b).
Proof.
  intros Hc. remember (length a) as n eqn:Hn. revert a Hn.
  induction n as [n IH] using lt_wf_ind. intros a Hn.
  destruct a as [|x a].
  - rewrite (strip_ansi_eq []). reflexivity.
  - rewrite (strip_ansi_eq ((x :: a) ++ c :: b)), (strip_ansi_eq (x :: a)).
    rewrite sgr_rest_app_sep by (assumption || discriminate).
    destruct (sgr_rest (x :: a)) as [r|] eqn:E.
    + apply (IH (length r)); [|reflexivity].
      subst n. apply sgr_rest_length. exact E.
    + cbn [app]. f_equal. apply (IH (length a)); [|reflexivity].
      subst n. simpl. lia.
Qed.

Lemma strip_ansi_no_esc (c : ascii) (s : gostring) :
  Ascii.eqb c ESC = false -> strip_ansi (c :: s) = c :: strip_ansi s.
Proof.
  intros H. rewrite strip_ansi_eq. unfold sgr_rest. cbn [strip_prefix].
  rewrite H. reflexivity.
Qed.

Lemma strip_ansi_plain (s : gostring) :
  MatchString ansiRe s = false -> strip_ansi s = s.
Proof.
  unfold MatchString. induction s as [|c s IH]; intros H.
  - reflexivity.
  - destruct (FindStringSubmatch ansiRe (c :: s)) eqn:E; [|discriminate].
    apply FindStringSubmatch_nil_cons in E. destruct E as [E1 E2].
    rewrite strip_ansi_eq. rewrite ansi_match_at in E1.
    destruct (sgr_rest (c :: s)); [discriminate|].
    f_equal. apply IH. rewrite E2. reflexivity.
Qed.

(** ** Counting runes *)

Lemma rune_count_skip (n : nat) (s : gostring) :
  rune_count_from n s = rune_count_from 0 (skipn n s).
Proof.
  revert n. induction s as [|c s IH]; intros n.
  - destruct n; reflexivity.
  - destruct n as [|n]; [reflexivity|]. simpl. apply IH.
Qed.

Lemma rune_count_eq (c : ascii) (s : gostring) :
  rune_count_from 0 (c :: s)
  = S (rune_count_from 0 (skipn (rune_width (c :: s) - 1) s)).
Proof. cbn [rune_count_from]. rewrite rune_count_skip. reflexivity. Qed.

(** A byte outside 128..191 is in none of the ranges of a second,
    third or fourth byte. *)
Lemma in_rng_not_cont (lo hi : Z) (c : ascii) :
  128 <= lo -> hi <= 191 -> is_cont c = false -> in_rng lo hi c = false.
Proof.
  unfold is_cont, in_rng. intros Hlo Hhi Hc.
  apply andb_false_iff in Hc. apply andb_false_iff.
  destruct Hc as [Hc|Hc]; [left|right]; lia.
Qed.

Lemma is_cont_ascii (c : ascii) : is_ascii c = true -> is_cont c = false.
Proof.
  unfold is_ascii, is_cont, in_rng. intros Hc.
  destruct (128 <=? byte c) eqn:E; [lia | reflexivity].
Qed.

Lemma rune_width_ascii (c : ascii) (s : gostring) :
  is_ascii c = true -> rune_width (c :: s) = 1%nat.
Proof.
  unfold is_ascii, rune_width. intros H.
  destruct (byte c <? 194) eqn:E; [reflexivity | lia].
Qed.

(** The width of a rune never reaches past the end of the string. *)
Lemma rune_width_bounds (c : ascii) (s : gostring) :
  (1 <= rune_width (c :: s) <= length (c :: s))%nat.
Proof.
  unfold rune_width.
  destruct (byte c <? 194); [simpl; lia|].
  destruct (byte c <? 224).
  { destruct s as [|b1 s]; [simpl; lia|].
    destruct (is_cont b1); simpl; lia. }
  destruct (byte c <? 240).
  { destruct s as [|b1 [|b2 s]]; try (simpl; lia).
    destruct (in_rng _ _ b1 && is_cont b2); simpl; lia. }
  destruct (byte c <? 245); [|simpl; lia].
  destruct s as [|b1 [|b2 [|b3 s]]]; try (simpl; lia).
  destruct (in_rng _ _ b1 && is_cont b2 && is_cont b3); simpl; lia.
Qed.

(** A byte that starts a rune, put after [a], does not change how the
    bytes of [a] group into runes. *)
Lemma rune_width_app_start (a b : gostring) (c : ascii) :
  is_cont c = false -> a <> [] ->
  rune_width (a ++ c :: b) = rune_width a.
Proof.
  intros Hcont Ha.
  destruct a as [|b0 a]; [contradiction|].
  unfold rune_width. cbn [app].
  destruct (byte b0 <? 194); [reflexivity|].
  destruct (byte b0 <? 224).
  { destruct a as [|b1 a]; cbn [app]; [rewrite Hcont|]; reflexivity. }
  destruct (byte b0 <? 240).
  { destruct a as [|b1 [|b2 a]]; cbn [app]; try reflexivity.
    - destruct b as [|b2 b]; [reflexivity|].
      rewrite in_rng_not_cont; [reflexivity | | | exact Hcont].
      + destruct (byte b0 =? 224); lia.
      + destruct (byte b0 =? 237); lia.
    - rewrite Hcont, andb_false_r. reflexivity. }
  destruct (byte b0 <? 245); [|reflexivity].
  destruct a as [|b1 [|b2 [|b3 a]]]; cbn [app]; try reflexivity.
  - destruct b as [|b2 [|b3 b]]; try reflexivity.
    rewrite in_rng_not_cont; [reflexivity | | | exact Hcont].
    + destruct (byte b0 =? 240); lia.
    + destruct (byte b0 =? 244); lia.
  - destruct b as [|b3 b]; [reflexivity|].
    rewrite Hcont, andb_false_r. reflexivity.
  - rewrite Hcont, andb_false_r. reflexivity.
Qed.

Lemma rune_count_app_start (a b : gostring) (c : ascii) :
  is_cont c = false ->
  rune_count_from 0 (a ++ c :: b)
  = (rune_count_from 0 a + rune_count_from 0 (c :: b))%nat.
Proof.
  intros Hc. remember (length a) as n eqn:Hn. revert a Hn.
  induction n as [n IH] using lt_wf_ind. intros a Hn.
  destruct a as [|x a]; [reflexivity|].
  change ((x :: a) ++ c :: b) with (x :: (a ++ c :: b)).
  rewrite (rune_count_eq x (a ++ c :: b)), (rune_count_eq x a).
  change (x :: (a ++ c :: b)) with ((x :: a) ++ c :: b).
  rewrite rune_width_app_start by (assumption || discriminate).
  pose proof (rune_width_bounds x a) as Hw. simpl length in Hw.
  rewrite skipn_app.
  replace (rune_width (x :: a) - 1 - length a)%nat with 0%nat by lia.
  cbn [skipn plus].
  rewrite (IH (length (skipn (rune_width (x :: a) - 1) a)));
    [reflexivity | | reflexivity].
  subst n. rewrite length_skipn. simpl. lia.
Qed.

Lemma rune_count_app_ascii (a b : gostring) (c : ascii) :
  is_ascii c = true ->
  rune_count_from 0 (a ++ c :: b)
  = (rune_count_from 0 a + rune_count_from 0 (c :: b))%nat.
Proof. intros Hc. apply rune_count_app_start, is_cont_ascii, Hc. Qed.

Lemma rune_count_ascii (s : gostring) :
  forallb is_ascii s = true -> rune_count_from 0 s = length s.
Proof.
  induction s as [|c s IH]; [reflexivity|]. simpl forallb. intros H.
  apply andb_true_iff in H. destruct H as [Hc Hs].
  rewrite rune_count_eq, rune_width_ascii by exact Hc.
  simpl. rewrite IH by exact Hs. reflexivity.
Qed.

Lemma rune_count_le (s : gostring) :
  (rune_count_from 0 s <= length s)%nat.
Proof.
  remember (length s) as n eqn:Hn. revert s Hn.
  induction n as [n IH] using lt_wf_ind. intros s Hn.
  destruct s as [|c s]; [simpl; lia|].
  rewrite rune_count_eq.
  pose proof (rune_width_bounds c s) as Hw. simpl length in Hw.
  pose proof (length_skipn (rune_width (c :: s) - 1) s) as Hk.
  specialize (IH (length (skipn (rune_width (c :: s) - 1) s))).
  subst n. cbn [length] in *.
  specialize (IH ltac:(lia) _ eq_refl). lia.
Qed.

Lemma strip_ansi_length (s : gostring) :
  (length (strip_ansi s) <= length s)%nat.
Proof.
  remember (length s) as n eqn:Hn. revert s Hn.
  induction n as [n IH] using lt_wf_ind. intros s Hn.
  rewrite strip_ansi_eq. destruct (sgr_rest s) as [r|] eqn:E.
  - apply sgr_rest_length in E.
    specialize (IH (length r) ltac:(lia) r eq_refl). lia.
  - destruct s as [|c s]; [simpl; lia|]. subst n. simpl.
    specialize (IH (length s) ltac:(simpl; lia) s eq_refl). lia.
Qed.

Lemma visibleLen_bounds (s : gostring) : 0 <= visibleLen s <= len s.
Proof.
  unfold visibleLen, RuneCount, len. fold (strip_ansi s).
  pose proof (rune_count_le (strip_ansi s)).
  pose proof (strip_ansi_length s). lia.
Qed.

(** ** Visible width *)

Lemma visibleLen_strip (s : gostring) :
  visibleLen s = RuneCount (strip_ansi s).
Proof. reflexivity. Qed.

Lemma strip_ansi_color (color s : gostring) :
  In color ansi_colors -> strip_ansi (color ++ s) = strip_ansi s.
Proof.
  intros Hin. rewrite strip_ansi_eq.
  assert (H : sgr_rest (color ++ s) = Some s).
  { simpl in Hin.
    destruct Hin as [<-|[<-|[<-|[<-|[<-|[<-|[<-|[<-|[<-|[]]]]]]]]]];
      reflexivity. }
  rewrite H. reflexivity.
Qed.

(** C10.  A color constant in front of a string and [Reset] behind it do
    not change its visible length; a string without a color sequence has
    as visible length the number of its code points (for single-byte
    text, of its bytes); escape sequences that do not end in [m], such as
    those that move the cursor or clear the screen, count in full. *)
Theorem visibleLen_ignores_colors :
  (forall color s, In color ansi_colors ->
                   visibleLen (color ++ s) = visibleLen s)
  /\ (forall s, visibleLen (s ++ Reset) = visibleLen s)
  /\ (forall s, MatchString ansiRe s = false -> visibleLen s = RuneCount s)
  /\ (forall s, MatchString ansiRe s = false -> forallb is_ascii s = true ->
                visibleLen s = len s)
  /\ visibleLen (ESC :: str "[H") = 3
  /\ visibleLen (ESC :: str "[2J") = 4
  /\ visibleLen (ESC :: str "[?25l") = 6.
Proof.
  split; [|split; [|split; [|split]]].
  - intros color s Hin. rewrite !visibleLen_strip.
    rewrite strip_ansi_color by exact Hin. reflexivity.
  - intros s. rewrite !visibleLen_strip. unfold Reset.
    rewrite strip_ansi_app_sep by reflexivity.
    change (strip_ansi (ESC :: str "[0m")) with (@nil ascii).
    rewrite app_nil_r. reflexivity.
  - intros s H. rewrite visibleLen_strip, strip_ansi_plain by exact H.
    reflexivity.
  - intros s H Ha. rewrite visibleLen_strip, strip_ansi_plain by exact H.
    unfold RuneCount, len. rewrite rune_count_ascii by exact Ha.
    reflexivity.
  - repeat split; vm_compute; reflexivity.
Qed.

(** Plain text of the dashboard, and text that holds a sequence. *)
Lemma visibleLen_ignores_colors_witness :
  visibleLen (Green ++ str "CHARGER") = visibleLen (str "CHARGER")
  /\ visibleLen (str "POWER SPLIT (~30s refresh)")
     = len (str "POWER SPLIT (~30s refresh)").
Proof.
  split.
  - apply (proj1 visibleLen_ignores_colors Green (str "CHARGER")).
    simpl. tauto.
  - apply (proj1 (proj2 (proj2 (proj2 visibleLen_ignores_colors)))
             (str "POWER SPLIT (~30s refresh)"));
      vm_compute; reflexivity.
Defined.

(** ** Box rows *)

Lemma cells_single (c : ascii) (n : Z) :
  cells [c] n = repeat c (Z.to_nat n).
Proof.
  unfold cells. induction (Z.to_nat n) as [|k IH]; simpl; [|rewrite IH];
    reflexivity.
Qed.

Lemma strip_ansi_spaces (n : nat) (t : gostring) :
  strip_ansi (repeat " "%char n ++ t) = repeat " "%char n ++ strip_ansi t.
Proof.
  induction n as [|n IH]; [reflexivity|]. cbn [repeat app].
  rewrite strip_ansi_no_esc by reflexivity. rewrite IH. reflexivity.
Qed.

Lemma rune_count_spaces (n : nat) (t : gostring) :
  rune_count_from 0 (repeat " "%char n ++ t) = (n + rune_count_from 0 t)%nat.
Proof.
  induction n as [|n IH]; [reflexivity|]. cbn [repeat app].
  rewrite rune_count_eq, rune_width_ascii by reflexivity.
  cbn [Nat.sub skipn]. rewrite IH. reflexivity.
Qed.

(** The visible length of content followed by [n] spaces and a tail that
    holds no color sequence and starts with a single-byte separator. *)
Lemma visibleLen_padded (content tail : gostring) (n : nat) (c : ascii) :
  separator c = true -> is_ascii c = true ->
  strip_ansi (c :: tail) = c :: tail ->
  visibleLen (content ++ repeat " "%char n ++ c :: tail)
  = visibleLen content + Z.of_nat n + RuneCount (c :: tail).
Proof.
  intros Hsep Hasc Htail. rewrite !visibleLen_strip. unfold RuneCount.
  destruct n as [|n].
  - cbn [repeat app]. rewrite strip_ansi_app_sep by exact Hsep.
    rewrite Htail, rune_count_app_ascii by exact Hasc. lia.
  - cbn [repeat app]. rewrite strip_ansi_app_sep by reflexivity.
    change (" "%char :: repeat " "%char n ++ c :: tail)
      with (repeat " "%char (S n) ++ c :: tail).
    rewrite strip_ansi_spaces, Htail. cbn [repeat app].
    rewrite rune_count_app_ascii by reflexivity.
    change (" "%char :: repeat " "%char n ++ c :: tail)
      with (repeat " "%char (S n) ++ c :: tail).
    rewrite rune_count_spaces. lia.
Qed.

Lemma line_pad (content : gostring) :
  len content <= Int64.max_int ->
  line content
  = Some (str "║ " ++ content
          ++ cells (str " ") (Z.max 0 (line_width - visibleLen content))
          ++ str " ║").
Proof.
  intros Hlen. pose proof (visibleLen_bounds content) as Hv.
  rewrite max_int_val in Hlen. unfold line, line_width, Int64.sub in *.
  int64_simpl.
  replace (if 52 - visibleLen content <? 0 then 0
           else 52 - visibleLen content)
    with (Z.max 0 (52 - visibleLen content))
    by (destruct (52 - visibleLen content <? 0) eqn:E; lia).
  rewrite Repeat_ok;
    [reflexivity | lia | rewrite max_int_val; change (len (str " ")) with 1; lia].
Qed.

(** C4, as the code has it.  The row that [line] builds is the content
    between the borders ["║ "] and [" ║"], padded with spaces: content and
    padding together are exactly 52 cells wide when the content is at most
    52 cells wide, and as wide as the content when it is wider (nothing
    is cut off); the whole row is 4 cells wider than that.  The content
    is any Go string, that is, any byte sequence whose length fits an
    [int]. *)
Theorem line_visible_width (content : gostring) :
  len content <= Int64.max_int ->
  exists pad,
    pad = Z.max 0 (line_width - visibleLen content)
    /\ line content
       = Some (str "║ " ++ content ++ cells (str " ") pad ++ str " ║")
    /\ visibleLen (content ++ cells (str " ") pad)
       = Z.max line_width (visibleLen content)
    /\ visibleLen (str "║ " ++ content ++ cells (str " ") pad ++ str " ║")
       = Z.max line_width (visibleLen content) + 4.
Proof.
  intros Hlen. pose proof (visibleLen_bounds content) as Hv.
  exists (Z.max 0 (line_width - visibleLen content)).
  split; [reflexivity|]. split; [apply line_pad; exact Hlen|].
  change (str " ") with [" "%char]. rewrite cells_single.
  set (n := Z.to_nat (Z.max 0 (line_width - visibleLen content))).
  assert (Hn : Z.of_nat n = Z.max 0 (line_width - visibleLen content))
    by (unfold n; lia).
  split.
  - destruct n as [|n].
    + cbn [repeat]. rewrite app_nil_r. lia.
    + replace (repeat " "%char (S n)) with (repeat " "%char n ++ [" "%char])
        by (symmetry; apply (repeat_cons n " "%char)).
      rewrite (visibleLen_padded content [] n " "%char) by reflexivity.
      change (RuneCount [" "%char]) with 1. lia.
  - rewrite visibleLen_strip.
    change (str "║ " ++ content ++ repeat " "%char n ++ str " ║")
      with ("226"%char :: "149"%char :: "145"%char :: " "%char
            :: (content ++ repeat " "%char n ++ " "%char :: str "║")).
    rewrite !strip_ansi_no_esc by reflexivity.
    unfold RuneCount.
    rewrite rune_count_eq.
    change (rune_width ("226"%char :: "149"%char :: "145"%char :: " "%char
              :: strip_ansi (content ++ repeat " "%char n
                             ++ " "%char :: str "║")))
      with 3%nat.
    cbn [Nat.sub skipn].
    rewrite rune_count_eq, rune_width_ascii by reflexivity.
    cbn [Nat.sub skipn].
    pose proof (visibleLen_padded content (str "║") n " "%char
                  eq_refl eq_refl eq_refl) as Hp.
    rewrite visibleLen_strip in Hp. unfold RuneCount in Hp.
    change (Z.of_nat (rune_count_from 0 (" "%char :: str "║"))) with 2 in Hp.
    rewrite visibleLen_strip in Hp. unfold RuneCount in Hp.
    unfold visibleLen, RuneCount in Hn, Hv |- *. fold (strip_ansi content) in *.
    lia.
Qed.

(** One of the rows of the dashboard: colored text, shorter than the
    box. *)
Lemma line_visible_width_witness :
  exists pad,
    pad = Z.max 0 (line_width - visibleLen (Yellow ++ str "BATTERY" ++ Reset))
    /\ line (Yellow ++ str "BATTERY" ++ Reset)
       = Some (str "║ " ++ (Yellow ++ str "BATTERY" ++ Reset)
               ++ cells (str " ") pad ++ str " ║")
    /\ visibleLen ((Yellow ++ str "BATTERY" ++ Reset) ++ cells (str " ") pad)
       = Z.max line_width (visibleLen (Yellow ++ str "BATTERY" ++ Reset))
    /\ visibleLen (str "║ " ++ (Yellow ++ str "BATTERY" ++ Reset)
                   ++ cells (str " ") pad ++ str " ║")
       = Z.max line_width (visibleLen (Yellow ++ str "BATTERY" ++ Reset)) + 4.
Proof.
  apply (line_visible_width (Yellow ++ str "BATTERY" ++ Reset)).
  vm_compute. discriminate.
Defined.

(** C4, as the specification states it, fails for content wider than the
    box: 60 cells of content get no padding and are not cut, so the row
    is 64 cells wide and its interior 60, not 52. *)
Lemma line_overflows_long_content :
  visibleLen (repeat "x"%char 60) = 60
  /\ line (repeat "x"%char 60)
     = Some (str "║ " ++ repeat "x"%char 60 ++ str " ║")
  /\ visibleLen (str "║ " ++ repeat "x"%char 60 ++ str " ║") = 64
  /\ 60 <> line_width
  /\ 64 <> line_width.
Proof.
  repeat split; try (vm_compute; reflexivity); unfold line_width; lia.
Qed.

(** ** The visible width of a bar *)

Lemma strip_ansi_app (a b : gostring) :
  head_in separator b = true ->
  strip_ansi (a ++ b) = strip_ansi a ++ strip_ansi b.
Proof.
  destruct b as [|c b]; intros H.
  - rewrite !app_nil_r. reflexivity.
  - apply strip_ansi_app_sep. exact H.
Qed.

Lemma rune_count_app (a b : gostring) :
  head_in (fun c => negb (is_cont c)) b = true ->
  rune_count_from 0 (a ++ b)
  = (rune_count_from 0 a + rune_count_from 0 b)%nat.
Proof.
  destruct b as [|c b]; intros H.
  - rewrite app_nil_r. simpl. lia.
  - apply rune_count_app_start. apply negb_true_iff. exact H.
Qed.

Section Glyphs.
Variable g : gostring.
Hypothesis Hg : glyph g.

Lemma strip_ansi_glyph (t : gostring) : strip_ansi (g ++ t) = g ++ strip_ansi t.
Proof.
  destruct Hg as [-> | ->]; cbn [FULL_BLOCK LIGHT_SHADE str
                                 list_ascii_of_string app];
    rewrite !strip_ansi_no_esc by reflexivity; reflexivity.
Qed.

Lemma rune_count_glyph (t : gostring) :
  rune_count_from 0 (g ++ t) = S (rune_count_from 0 t).
Proof. destruct Hg as [-> | ->]; reflexivity. Qed.

Lemma head_in_glyph (P : ascii -> bool) (t : gostring) :
  P "226"%char = true -> head_in P (g ++ t) = true.
Proof. intros HP. destruct Hg as [-> | ->]; exact HP. Qed.

Lemma strip_ansi_cells (n : Z) (t : gostring) :
  strip_ansi (cells g n ++ t) = cells g n ++ strip_ansi t.
Proof.
  unfold cells. induction (Z.to_nat n) as [|k IH]; [reflexivity|].
  cbn [repeat concat]. rewrite <- !app_assoc.
  rewrite strip_ansi_glyph, IH. reflexivity.
Qed.

Lemma rune_count_cells (n : Z) (t : gostring) :
  rune_count_from 0 (cells g n ++ t)
  = (Z.to_nat n + rune_count_from 0 t)%nat.
Proof.
  unfold cells. induction (Z.to_nat n) as [|k IH]; [reflexivity|].
  cbn [repeat concat]. rewrite <- !app_assoc.
  rewrite rune_count_glyph, IH. reflexivity.
Qed.

Lemma head_in_cells (P : ascii -> bool) (n : Z) (t : gostring) :
  P "226"%char = true -> head_in P t = true ->
  head_in P (cells g n ++ t) = true.
Proof.
  intros HP Ht. unfold cells. destruct (Z.to_nat n) as [|k]; [exact Ht|].
  cbn [repeat concat]. rewrite <- !app_assoc.
  apply head_in_glyph. exact HP.
Qed.

End Glyphs.

(** A bar of two runs of glyphs, each closed by [Reset], the second one
    opened by a color constant: its visible width is that of what opens
    it plus the two counts. *)
Lemma visibleLen_bar (c1 c2 g1 g2 : gostring) (n1 n2 : Z) :
  glyph g1 -> glyph g2 -> In c2 ansi_colors -> 0 <= n1 -> 0 <= n2 ->
  visibleLen (c1 ++ cells g1 n1 ++ Reset ++ c2 ++ cells g2 n2 ++ Reset)
  = visibleLen c1 + n1 + n2.
Proof.
  intros Hg1 Hg2 Hc2 Hn1 Hn2. rewrite !visibleLen_strip.
  rewrite strip_ansi_app
    by (apply head_in_cells; [exact Hg1 | reflexivity | reflexivity]).
  rewrite (strip_ansi_cells g1 Hg1).
  rewrite (strip_ansi_color Reset) by (simpl; tauto).
  rewrite (strip_ansi_color c2) by exact Hc2.
  rewrite (strip_ansi_cells g2 Hg2).
  change (strip_ansi Reset) with (@nil ascii).
  unfold RuneCount.
  rewrite rune_count_app
    by (apply head_in_cells; [exact Hg1 | reflexivity |];
        apply head_in_cells; [exact Hg2 | reflexivity | reflexivity]).
  rewrite (rune_count_cells g1 Hg1), (rune_count_cells g2 Hg2).
  simpl rune_count_from. lia.
Qed.

(** ** Bars *)

Lemma colorBar_cells_spec (pct width : Z) :
  0 <= width -> 100 * width <= Int64.max_int ->
  colorBar_cells pct width
  = (clamp_pct pct * width / 100, width - clamp_pct pct * width / 100).
Proof.
  intros Hw Hmax.
  pose proof (clamp_pct_range pct) as Hp.
  pose proof (share_bounds _ _ Hp Hw) as Hb.
  unfold colorBar_cells. fold (clamp_pct pct).
  rewrite (share_int64 _ _ Hp Hw Hmax).
  rewrite max_int_val in Hmax.
  unfold Int64.sub. int64_simpl.
  destruct (_ <? 0) eqn:E; [lia|]. reflexivity.
Qed.

(** C5, as the code has it.  For every integer [pct] and every width from
    0 to 65535, the widest a terminal can be, [colorBar] clamps [pct] to
    0..100, fills [pct * width / 100] cells and leaves the rest of the
    [width] cells empty: filled and empty cells add up to exactly
    [width].  For such a width the product with the percentage fits an
    [int], and the bar, of less than 200 KiB, is far below what the
    runtime refuses to allocate. *)
Theorem colorBar_total_width (pct width : Z) (color : gostring) :
  0 <= width -> width <= 65535 ->
  exists filled empty,
    colorBar_cells pct width = (filled, empty)
    /\ filled = Z.max 0 (Z.min 100 pct) * width / 100
    /\ 0 <= filled /\ 0 <= empty
    /\ filled + empty = width
    /\ colorBar pct width color
       = Some (color ++ cells FULL_BLOCK filled ++ Reset ++ Dim
               ++ cells LIGHT_SHADE empty ++ Reset)
    /\ visibleLen (color ++ cells FULL_BLOCK filled ++ Reset ++ Dim
                   ++ cells LIGHT_SHADE empty ++ Reset)
       = visibleLen color + width.
Proof.
  intros Hw Hcols.
  assert (Hmax : 100 * width <= Int64.max_int) by (rewrite max_int_val; lia).
  pose proof (clamp_pct_range pct) as Hp.
  pose proof (share_bounds _ _ Hp Hw) as Hb.
  pose proof (colorBar_cells_spec pct width Hw Hmax) as Hc.
  exists (clamp_pct pct * width / 100), (width - clamp_pct pct * width / 100).
  split; [exact Hc|].
  split.
  { f_equal. f_equal. unfold clamp_pct.
    destruct (pct <? 0) eqn:E1; [simpl; lia|].
    destruct (pct >? 100) eqn:E2; lia. }
  split; [lia|]. split; [lia|]. split; [lia|]. split.
  - unfold colorBar. rewrite Hc.
    rewrite max_int_val in Hmax.
    rewrite Repeat_ok;
      [| lia | rewrite max_int_val; change (len FULL_BLOCK) with 3; lia].
    rewrite Repeat_ok;
      [| lia | rewrite max_int_val; change (len LIGHT_SHADE) with 3; lia].
    reflexivity.
  - rewrite visibleLen_bar;
      [lia | left; reflexivity | right; reflexivity | simpl; tauto
       | lia | lia].
Qed.

(** A width of 20 cells, as the renderer uses it. *)
Lemma colorBar_total_width_witness :
  exists filled empty,
    colorBar_cells 37 20 = (filled, empty)
    /\ filled = Z.max 0 (Z.min 100 37) * 20 / 100
    /\ 0 <= filled /\ 0 <= empty
    /\ filled + empty = 20
    /\ colorBar 37 20 Magenta
       = Some (Magenta ++ cells FULL_BLOCK filled ++ Reset ++ Dim
               ++ cells LIGHT_SHADE empty ++ Reset)
    /\ visibleLen (Magenta ++ cells FULL_BLOCK filled ++ Reset ++ Dim
                   ++ cells LIGHT_SHADE empty ++ Reset)
       = visibleLen Magenta + 20.
Proof.
  apply (colorBar_total_width 37 20 Magenta); lia.
Defined.

(** C5, as the specification states it, fails for large widths, which
    the program cannot turn into a bar.  Here the product of the width
    with the clamped percentage leaves the 64-bit range: [3 * 2^62] wraps
    to a negative number, the filled count is negative and
    [strings.Repeat] panics. *)
Lemma colorBar_overflow_panics :
  0 <= 2 ^ 62 <= Int64.max_int
  /\ fst (colorBar_cells 3 (2 ^ 62)) = -46116860184273879
  /\ colorBar 3 (2 ^ 62) Magenta = None.
Proof.
  split; [rewrite max_int_val; lia|].
  split; vm_compute; reflexivity.
Qed.

Lemma splitBar_cells_spec (sysPct batPct width : Z) :
  sysPct <= 100 -> 0 <= width -> 100 * width <= Int64.max_int ->
  splitBar_cells sysPct batPct width
  = (Z.max 0 sysPct * width / 100, width - Z.max 0 sysPct * width / 100).
Proof.
  intros Hs Hw Hmax.
  assert (Hp : 0 <= Z.max 0 sysPct <= 100) by lia.
  pose proof (share_bounds _ _ Hp Hw) as Hb.
  unfold splitBar_cells.
  replace (if sysPct <? 0 then 0 else sysPct) with (Z.max 0 sysPct)
    by (destruct (sysPct <? 0) eqn:E; lia).
  rewrite (share_int64 _ _ Hp Hw Hmax).
  rewrite max_int_val in Hmax.
  unfold Int64.sub. int64_simpl.
  destruct (Z.max 0 sysPct * width / 100 <? 0) eqn:E1; [lia|].
  destruct (width - Z.max 0 sysPct * width / 100 <? 0) eqn:E2; [lia|].
  reflexivity.
Qed.

(** C3, as the code has it.  For a system share of at most 100 (a
    negative one counts as 0), any battery share and every width from 0
    to 65535, the widest a terminal can be, [splitBar] draws
    [sysPct * width / 100] system cells and gives the remainder of the
    [width] cells to the battery segment: the two segments add up to
    exactly [width].  For such a width the product with the share fits
    an [int], and the bar, of less than 200 KiB, is far below what the
    runtime refuses to allocate. *)
Theorem splitBar_total_width (sysPct batPct width : Z) :
  sysPct <= 100 -> 0 <= width -> width <= 65535 ->
  exists sysBars batBars,
    splitBar_cells sysPct batPct width = (sysBars, batBars)
    /\ sysBars = Z.max 0 sysPct * width / 100
    /\ batBars = width - sysBars
    /\ 0 <= sysBars /\ 0 <= batBars
    /\ sysBars + batBars = width
    /\ splitBar sysPct batPct width
       = Some (Cyan ++ cells FULL_BLOCK sysBars ++ Reset ++ Yellow
               ++ cells FULL_BLOCK batBars ++ Reset)
    /\ visibleLen (Cyan ++ cells FULL_BLOCK sysBars ++ Reset ++ Yellow
                   ++ cells FULL_BLOCK batBars ++ Reset)
       = width.
Proof.
  intros Hs Hw Hcols.
  assert (Hmax : 100 * width <= Int64.max_int) by (rewrite max_int_val; lia).
  assert (Hp : 0 <= Z.max 0 sysPct <= 100) by lia.
  pose proof (share_bounds _ _ Hp Hw) as Hb.
  pose proof (splitBar_cells_spec sysPct batPct width Hs Hw Hmax) as Hc.
  exists (Z.max 0 sysPct * width / 100),
         (width - Z.max 0 sysPct * width / 100).
  repeat (split; [first [exact Hc | reflexivity | lia]|]).
  split.
  - unfold splitBar. rewrite Hc.
    rewrite max_int_val in Hmax.
    rewrite !Repeat_ok;
      try lia; try (rewrite max_int_val; change (len FULL_BLOCK) with 3; lia).
    reflexivity.
  - rewrite visibleLen_bar;
      [ | left; reflexivity | left; reflexivity | simpl; tauto | lia | lia].
    change (visibleLen Cyan) with 0. lia.
Qed.

(** The split bar of the renderer: 40 cells, shares 63 and 37. *)
Lemma splitBar_total_width_witness :
  exists sysBars batBars,
    splitBar_cells 63 37 40 = (sysBars, batBars)
    /\ sysBars = Z.max 0 63 * 40 / 100
    /\ batBars = 40 - sysBars
    /\ 0 <= sysBars /\ 0 <= batBars
    /\ sysBars + batBars = 40
    /\ splitBar 63 37 40
       = Some (Cyan ++ cells FULL_BLOCK sysBars ++ Reset ++ Yellow
               ++ cells FULL_BLOCK batBars ++ Reset)
    /\ visibleLen (Cyan ++ cells FULL_BLOCK sysBars ++ Reset ++ Yellow
                   ++ cells FULL_BLOCK batBars ++ Reset)
       = 40.
Proof.
  apply (splitBar_total_width 63 37 40); lia.
Defined.

(** C3, as the specification states it, fails for a system share above
    100: the system segment alone is then longer than the bar, the
    battery segment is cut to 0 and the two add up to more than the width
    (here 80 cells in a bar of 40). *)
Lemma splitBar_oversized_share :
  splitBar_cells 200 0 40 = (80, 0)
  /\ splitBar 200 0 40
     = Some (Cyan ++ cells FULL_BLOCK 80 ++ Reset ++ Yellow
             ++ cells FULL_BLOCK 0 ++ Reset)
  /\ visibleLen (Cyan ++ cells FULL_BLOCK 80 ++ Reset ++ Yellow
                 ++ cells FULL_BLOCK 0 ++ Reset) = 80
  /\ 80 + 0 <> 40.
Proof.
  split; [vm_compute; reflexivity|].
  split; [vm_compute; reflexivity|].
  split; [vm_compute; reflexivity|]. lia.
Qed.


(** * Further properties of the program *)

(** ** Nothing in the renderer panics *)

Lemma line_total (content : gostring) : line content <> None.
Proof.
  unfold line.
  set (pad := Int64.sub line_width (visibleLen content)).
  assert (Hpad : Int64.in_range pad) by apply wrap64_range.
  unfold Int64.in_range in Hpad. rewrite max_int_val, min_int_val in Hpad.
  unfold Repeat. change (len (str " ")) with 1. rewrite max_int_val.
  destruct (pad <? 0) eqn:E.
  - simpl. discriminate.
  - destruct (pad <? 0) eqn:E1; [discriminate|].
    destruct (1 * pad >? 9223372036854775807) eqn:E2; [lia|discriminate].
Qed.

Lemma colorBar_ok (pct width : Z) (color : gostring) :
  0 <= width -> 100 * width <= Int64.max_int ->
  colorBar pct width color <> None.
Proof.
  intros Hw Hmax.
  pose proof (clamp_pct_range pct) as Hp.
  pose proof (share_bounds _ _ Hp Hw) as Hb.
  unfold colorBar. rewrite (colorBar_cells_spec pct width Hw Hmax).
  rewrite max_int_val in Hmax.
  rewrite Repeat_ok;
    [| lia | rewrite max_int_val; change (len FULL_BLOCK) with 3; lia].
  rewrite Repeat_ok;
    [| lia | rewrite max_int_val; change (len LIGHT_SHADE) with 3; lia].
  discriminate.
Qed.

Lemma splitBar_ok (sysPct batPct width : Z) :
  sysPct <= 100 -> 0 <= width -> 100 * width <= Int64.max_int ->
  splitBar sysPct batPct width <> None.
Proof.
  intros Hs Hw Hmax.
  assert (Hp : 0 <= Z.max 0 sysPct <= 100) by lia.
  pose proof (share_bounds _ _ Hp Hw) as Hb.
  unfold splitBar. rewrite (splitBar_cells_spec sysPct batPct width Hs Hw Hmax).
  rewrite max_int_val in Hmax.
  rewrite !Repeat_ok;
    try lia; try (rewrite max_int_val; change (len FULL_BLOCK) with 3; lia).
  discriminate.
Qed.

(** The shares that [render] passes to [splitBar]. *)
Lemma render_shares (x : Z) :
  0 <= clamp_pct x <= 100
  /\ Int64.sub 100 (clamp_pct x) = 100 - clamp_pct x.
Proof.
  pose proof (clamp_pct_range x) as H. split; [exact H|].
  unfold Int64.sub. int64_simpl. reflexivity.
Qed.

Lemma never_panics_ret {A} (a : A) : never_panics (ret a).
Proof. intros d. discriminate. Qed.

Lemma never_panics_load : never_panics load.
Proof. intros d. discriminate. Qed.

Lemma never_panics_emit (e : event) : never_panics (emit e).
Proof. intros d. discriminate. Qed.

Lemma never_panics_store (f : PowerData -> PowerData) :
  never_panics (store f).
Proof. intros d. discriminate. Qed.

Lemma never_panics_lift {A} (o : option A) :
  o <> None -> never_panics (lift o).
Proof. intros H d. destruct o; [discriminate|contradiction]. Qed.

Lemma never_panics_bind {A B} (m : M A) (k : A -> M B) :
  never_panics m -> (forall a, never_panics (k a)) -> never_panics (bind m k).
Proof.
  intros Hm Hk d. unfold bind, result_of. specialize (Hm d).
  unfold result_of in Hm.
  destruct (m d) as [[[a|] d1] t1]; [|contradiction].
  specialize (Hk a d1). unfold result_of in Hk.
  destruct (k a d1) as [[r d2] t2]. exact Hk.
Qed.

Lemma never_panics_defer {A} (f : M unit) (body : M A) :
  never_panics body -> never_panics (defer f body).
Proof.
  intros Hb d. unfold defer, result_of. specialize (Hb d).
  unfold result_of in Hb.
  destruct (body d) as [[r d1] t1]. destruct (f d1) as [[r' d2] t2].
  exact Hb.
Qed.

Lemma never_panics_put_line (content : gostring) :
  never_panics (put_line content).
Proof.
  unfold put_line. apply never_panics_bind.
  - apply never_panics_lift, line_total.
  - intros row. apply never_panics_emit.
Qed.

Lemma never_panics_bar (pct width : Z) (color : gostring) :
  0 <= width -> 100 * width <= Int64.max_int ->
  never_panics (lift (colorBar pct width color)).
Proof. intros Hw Hmax. apply never_panics_lift, colorBar_ok; assumption. Qed.

Lemma never_panics_split (x : Z) :
  never_panics
    (lift (splitBar (Int64.sub 100 (clamp_pct x)) (clamp_pct x) 40)).
Proof.
  apply never_panics_lift. destruct (render_shares x) as [Hr ->].
  apply splitBar_ok; [lia | lia | rewrite max_int_val; lia].
Qed.

Create HintDb total discriminated.
#[local] Hint Resolve never_panics_ret never_panics_load never_panics_emit
  never_panics_store never_panics_put_line never_panics_split : total.
#[local] Hint Extern 1 (never_panics (Print _)) =>
  apply never_panics_emit : total.
#[local] Hint Extern 1 (never_panics (Println _)) =>
  apply never_panics_emit : total.
#[local] Hint Extern 1 (never_panics (lift (colorBar _ _ _))) =>
  apply never_panics_bar; [lia | rewrite max_int_val; lia] : total.
#[local] Hint Extern 2 (never_panics (bind _ _)) =>
  apply never_panics_bind; [ | intros ? ] : total.
#[local] Hint Extern 2 (never_panics (defer _ _)) =>
  apply never_panics_defer : total.
#[local] Hint Extern 3 (never_panics (if ?b then _ else _)) =>
  destruct b : total.

Lemma render_total (FormatFloat : float64 -> Z -> gostring)
    (now : gostring) : never_panics (render FormatFloat now).
Proof. unfold render. cbv zeta. auto 80 with total. Qed.

(** One run of the renderer, whole. *)
Lemma render_run (FormatFloat : float64 -> Z -> gostring) (now : gostring)
    (d : PowerData) :
  exists outs,
    render FormatFloat now d
    = (Some tt, d, MuRLock :: map Out outs ++ [MuRUnlock]).
Proof.
  assert (H : state_of (render FormatFloat now d) = d
              /\ exists outs,
                   trace_of (render FormatFloat now d)
                   = MuRLock :: map Out outs ++ [MuRUnlock]).
  { unfold render. apply locked_printer. cbv zeta. auto 60 with printer. }
  destruct H as [Hs [outs Ht]]. exists outs.
  pose proof (render_total FormatFloat now d) as Hr.
  unfold state_of, trace_of, result_of in *.
  destruct (render FormatFloat now d) as [[[[]|] d1] t1]; simpl in *;
    [|contradiction].
  subst. reflexivity.
Qed.

(** X1.  [render] returns normally
    from every snapshot, whatever its fields hold and whatever the
    formatter and the clock print, and [line] builds a row for every
    content: no bar count is negative and no padding overflows. *)
Theorem render_always_returns :
  (forall FormatFloat now d, result_of (render FormatFloat now d) = Some tt)
  /\ (forall content, exists row, line content = Some row)
  /\ (forall pct color,
        (exists bar, colorBar pct 20 color = Some bar)
        /\ (exists bar, colorBar pct 44 color = Some bar)).
Proof.
  split; [|split].
  - intros FormatFloat now d.
    pose proof (render_total FormatFloat now d) as H.
    destruct (result_of (render FormatFloat now d)) as [[]|];
      [reflexivity | contradiction].
  - intros content. pose proof (line_total content) as H.
    destruct (line content) as [row|]; [exists row; reflexivity|contradiction].
  - intros pct color. split.
    + pose proof (colorBar_ok pct 20 color ltac:(lia)
                    ltac:(rewrite max_int_val; lia)) as H.
      destruct (colorBar pct 20 color) as [bar|];
        [exists bar; reflexivity | contradiction].
    + pose proof (colorBar_ok pct 44 color ltac:(lia)
                    ltac:(rewrite max_int_val; lia)) as H.
      destruct (colorBar pct 44 color) as [bar|];
        [exists bar; reflexivity | contradiction].
Qed.

(** ** The lock *)

Lemma well_locked_app (st : lock_state) (t1 t2 : list event) :
  well_locked st t1 = true ->
  well_locked st (t1 ++ t2) = well_locked Free t2.
Proof.
  revert st. induction t1 as [|e t1 IH]; intros st H.
  - destruct st; [reflexivity | discriminate | discriminate].
  - destruct st, e; simpl in H |- *; try discriminate H; apply IH, H.
Qed.

Lemma well_locked_reader (outs : list gostring) :
  well_locked Free (MuRLock :: map Out outs ++ [MuRUnlock]) = true.
Proof. simpl. induction outs as [|o outs IH]; [reflexivity | exact IH]. Qed.

Lemma filter_rlock_reader (outs : list gostring) :
  filter is_rlock (MuRLock :: map Out outs ++ [MuRUnlock]) = [MuRLock].
Proof.
  simpl. f_equal. induction outs as [|o outs IH]; [reflexivity | exact IH].
Qed.

(** ** The scanner loop as a whole *)

Lemma scanner_loop_run (FormatFloat : float64 -> Z -> gostring)
    (ls : list Line) (d : PowerData) :
  exists t,
    scanner_loop FormatFloat ls d = (Some tt, scan_all ls d, t)
    /\ length (filter is_rlock t) = length (filter is_delimiter ls)
    /\ well_locked Free t = true.
Proof.
  revert d. induction ls as [|l ls IH]; intros d.
  - exists []. repeat split.
  - cbn [scanner_loop]. unfold bind.
    rewrite scan_line_run.
    destruct (IH (scan_update (text l) d)) as (t & Hrun & Hcount & Hlock).
    cbn [filter scan_all fold_left]. unfold is_delimiter at 1.
    destruct (HasPrefix (text l) (str "***")).
    + destruct (render_run FormatFloat (clock l) (scan_update (text l) d))
        as [outs Hr].
      rewrite Hr. fold (scan_all ls (scan_update (text l) d)).
      rewrite Hrun.
      exists ([MuLock; MuUnlock]
              ++ (MuRLock :: map Out outs ++ [MuRUnlock]) ++ t).
      split; [reflexivity|]. split.
      * rewrite !filter_app, filter_rlock_reader. simpl. rewrite Hcount.
        reflexivity.
      * rewrite (well_locked_app Free [MuLock; MuUnlock]) by reflexivity.
        rewrite well_locked_app by apply well_locked_reader. exact Hlock.
    + cbn [ret]. fold (scan_all ls (scan_update (text l) d)).
      rewrite Hrun.
      exists ([MuLock; MuUnlock] ++ [] ++ t).
      split; [reflexivity|]. split; [exact Hcount | exact Hlock].
Qed.

Lemma scan_all_fold (ls : list Line) (d : PowerData) :
  scan_all ls d = fold_left (fun d l => state_of (scan_line (text l) d)) ls d.
Proof.
  unfold scan_all. revert d. induction ls as [|l ls IH]; intros d;
    [reflexivity|].
  cbn [fold_left]. rewrite scan_line_run. apply IH.
Qed.

(** X2.  The scanner loop never panics, and the snapshot it leaves is the one
    that the writes of its lines build, one line after the other:
    rendering in between changes nothing. *)
Theorem scanner_loop_snapshot (FormatFloat : float64 -> Z -> gostring)
    (ls : list Line) (d : PowerData) :
  result_of (scanner_loop FormatFloat ls d) = Some tt
  /\ state_of (scanner_loop FormatFloat ls d)
     = fold_left (fun d l => state_of (scan_line (text l) d)) ls d.
Proof.
  destruct (scanner_loop_run FormatFloat ls d) as (t & Hrun & _).
  rewrite Hrun. split; [reflexivity|].
  unfold state_of at 1. cbn [fst snd]. apply scan_all_fold.
Qed.

(** X3.  The scanner loop renders exactly once for every line that starts
    with the delimiter ["***"], and never otherwise. *)
Theorem renders_once_per_delimiter
    (FormatFloat : float64 -> Z -> gostring) (ls : list Line)
    (d : PowerData) :
  length (filter is_rlock (trace_of (scanner_loop FormatFloat ls d)))
  = length (filter (fun l => HasPrefix (text l) (str "***")) ls).
Proof.
  destruct (scanner_loop_run FormatFloat ls d) as (t & Hrun & Hcount & _).
  rewrite Hrun. exact Hcount.
Qed.

(** ** The poller as a whole *)

Lemma pollIoreg_iter_run (r : CmdResult) (d : PowerData) :
  pollIoreg_iter r d = (Some tt, poll_step d r, poll_trace r).
Proof.
  unfold poll_step, poll_trace.
  destruct (cmd_err r) as [e|] eqn:E.
  - unfold pollIoreg_iter. rewrite E. reflexivity.
  - rewrite pollIoreg_iter_ok by exact E. reflexivity.
Qed.

Lemma pollIoreg_run (rs : list CmdResult) (d : PowerData) :
  pollIoreg rs d
  = (Some tt, fold_left poll_step rs d, flat_map poll_trace rs).
Proof.
  revert d. induction rs as [|r rs IH]; intros d; [reflexivity|].
  cbn [pollIoreg]. unfold bind. rewrite pollIoreg_iter_run, IH.
  reflexivity.
Qed.

Lemma fold_poll_step_filter (rs : list CmdResult) (d : PowerData) :
  fold_left poll_step (filter cmd_ok rs) d = fold_left poll_step rs d.
Proof.
  revert d. induction rs as [|r rs IH]; intros d; [reflexivity|].
  cbn [filter fold_left]. unfold cmd_ok at 1, poll_step at 3.
  destruct (is_nil (cmd_err r)) eqn:E.
  - cbn [fold_left]. unfold poll_step at 2. rewrite E. apply IH.
  - apply IH.
Qed.

(** X4.  Over any sequence of results of the command the poller never
    panics, sleeps exactly once per iteration, and leaves the snapshot
    that the successful results alone would have left: failed runs of the
    command can be struck from the sequence without changing the
    outcome. *)
Theorem pollIoreg_ignores_failures (rs : list CmdResult) (d : PowerData) :
  result_of (pollIoreg rs d) = Some tt
  /\ state_of (pollIoreg rs d)
     = state_of (pollIoreg (filter (fun r => is_nil (cmd_err r)) rs) d)
  /\ length (filter is_sleep (trace_of (pollIoreg rs d))) = length rs.
Proof.
  rewrite !pollIoreg_run. unfold result_of, state_of, trace_of.
  cbn [fst snd]. split; [reflexivity|]. split.
  - symmetry. apply (fold_poll_step_filter rs d).
  - induction rs as [|r rs IH]; [reflexivity|].
    cbn [flat_map length]. rewrite filter_app, length_app, IH.
    unfold poll_trace. destruct (is_nil (cmd_err r)); reflexivity.
Qed.

Lemma well_locked_poll (rs : list CmdResult) :
  well_locked Free (flat_map poll_trace rs) = true.
Proof.
  induction rs as [|r rs IH]; [reflexivity|]. cbn [flat_map].
  rewrite well_locked_app; [exact IH|].
  unfold poll_trace. destruct (is_nil (cmd_err r)); reflexivity.
Qed.

(** ** [main] as a whole *)

Lemma main_run (FormatFloat : float64 -> Z -> gostring) (env : Env)
    (d : PowerData) :
  pipe_err env = None -> start_err env = None ->
  main FormatFloat env d
  = (Some tt, scan_all (Scan (lines env)) d,
     [Out (ESC :: str "[?25l"); Out (ESC :: str "[H" ++ ESC :: str "[2J");
      Go "pollIoreg"; SignalNotify; Go "func1"]
     ++ trace_of (scanner_loop FormatFloat (Scan (lines env)) d)
     ++ [ProcessKill]).
Proof.
  intros Hp Hs. unfold main. rewrite Hp, Hs.
  destruct (scanner_loop_run FormatFloat (Scan (lines env)) d)
    as (t & Hrun & _).
  unfold bind, defer, Print, emit. rewrite Hrun. reflexivity.
Qed.

(** The lines that the scanner hands over are the lines before the first
    one that does not fit its buffer. *)
Lemma Scan_prefix (ls : list Line) :
  exists rest,
    ls = Scan ls ++ rest
    /\ Forall (fun l => len (text l) < MaxScanTokenSize) (Scan ls)
    /\ match rest with
       | [] => True
       | l :: _ => MaxScanTokenSize <= len (text l)
       end.
Proof.
  induction ls as [|l ls (rest & Hls & Hall & Hrest)].
  - exists []. repeat split. apply Forall_nil.
  - cbn [Scan]. destruct (len (text l) >=? MaxScanTokenSize) eqn:E.
    + exists (l :: ls). split; [reflexivity|]. split; [apply Forall_nil|].
      lia.
    + exists rest. split; [cbn [app]; f_equal; exact Hls|].
      split; [apply Forall_cons; [lia | exact Hall] | exact Hrest].
Qed.

(** X5.  When the child process has been started, [main] handles its
    lines in order up to the end of the output or to the first line of
    65536 bytes or more, which the scanner refuses, and handles nothing
    after such a line.  It does not panic, leaves the snapshot that the
    writes of the handled lines build, and its last effect is to kill the
    child process: the run is the two start-up writes, the start of the
    poller and of the signal handler, the scanner loop over the handled
    lines, and [Process.Kill]. *)
Theorem main_reads_what_fits
    (FormatFloat : float64 -> Z -> gostring) (env : Env) (d : PowerData) :
  pipe_err env = None -> start_err env = None ->
  exists handled rest,
    lines env = handled ++ rest
    /\ Forall (fun l => len (text l) < 65536) handled
    /\ match rest with [] => True | l :: _ => 65536 <= len (text l) end
    /\ result_of (main FormatFloat env d) = Some tt
    /\ state_of (main FormatFloat env d)
       = fold_left (fun d l => state_of (scan_line (text l) d)) handled d
    /\ trace_of (main FormatFloat env d)
       = [Out (ESC :: str "[?25l");
          Out (ESC :: str "[H" ++ ESC :: str "[2J");
          Go "pollIoreg"; SignalNotify; Go "func1"]
         ++ trace_of (scanner_loop FormatFloat handled d)
         ++ [ProcessKill].
Proof.
  intros Hp Hs. destruct (Scan_prefix (lines env)) as (rest & Hls & Hall & Hr).
  exists (Scan (lines env)), rest.
  split; [exact Hls|]. split; [exact Hall|]. split; [exact Hr|].
  rewrite (main_run FormatFloat env d Hp Hs).
  split; [reflexivity|]. split; [|reflexivity].
  unfold state_of at 1. cbn [fst snd]. apply scan_all_fold.
Qed.

(** A reading, a line of 65536 bytes, and a second reading that is never
    handled: the snapshot keeps the first. *)
Lemma main_reads_what_fits_witness :
  let FormatFloat := fun (_ : float64) (_ : Z) => str "0.00" in
  let env := mkEnv None None
               [mkLine (str "percent_charge: 50") (str "12:00:00");
                mkLine (repeat "x"%char (Z.to_nat 65536)) (str "12:00:01");
                mkLine (str "percent_charge: 60") (str "12:00:02")] in
  (exists handled rest,
     lines env = handled ++ rest
     /\ Forall (fun l => len (text l) < 65536) handled
     /\ match rest with [] => True | l :: _ => 65536 <= len (text l) end
     /\ result_of (main FormatFloat env data0) = Some tt
     /\ state_of (main FormatFloat env data0)
        = fold_left (fun d l => state_of (scan_line (text l) d)) handled data0
     /\ trace_of (main FormatFloat env data0)
        = [Out (ESC :: str "[?25l");
           Out (ESC :: str "[H" ++ ESC :: str "[2J");
           Go "pollIoreg"; SignalNotify; Go "func1"]
          ++ trace_of (scanner_loop FormatFloat handled data0)
          ++ [ProcessKill])
  /\ BatteryPct (state_of (main FormatFloat env data0)) = 50.
Proof.
  cbv zeta. split.
  - apply (main_reads_what_fits
             (fun (_ : float64) (_ : Z) => str "0.00")
             (mkEnv None None
                [mkLine (str "percent_charge: 50") (str "12:00:00");
                 mkLine (repeat "x"%char (Z.to_nat 65536)) (str "12:00:01");
                 mkLine (str "percent_charge: 60") (str "12:00:02")])
             data0); reflexivity.
  - vm_compute. reflexivity.
Defined.

(** X6.  Both goroutines keep the discipline of the lock, whatever they
    read: each takes [data.mu] only while it holds nothing, so neither
    can block on itself; the write lock is released before anything else
    happens, in particular before rendering and before sleeping; under
    the read lock the only effects are writes to the terminal; and at the
    end of the run nothing is held. *)
Theorem lock_discipline :
  (forall FormatFloat env d,
      well_locked Free (trace_of (main FormatFloat env d)) = true)
  /\ (forall rs d, well_locked Free (trace_of (pollIoreg rs d)) = true).
Proof.
  split.
  - intros FormatFloat env d.
    destruct (pipe_err env) as [e|] eqn:Hp.
    + unfold main. rewrite Hp. reflexivity.
    + destruct (start_err env) as [e|] eqn:Hs.
      * unfold main. rewrite Hp, Hs. reflexivity.
      * rewrite (main_run FormatFloat env d Hp Hs).
        destruct (scanner_loop_run FormatFloat (Scan (lines env)) d)
          as (t & Hrun & _ & Hlock).
        rewrite Hrun. unfold trace_of. cbn [snd].
        rewrite (well_locked_app Free
                   [Out (ESC :: str "[?25l");
                    Out (ESC :: str "[H" ++ ESC :: str "[2J");
                    Go "pollIoreg"; SignalNotify; Go "func1"])
          by reflexivity.
        rewrite well_locked_app by exact Hlock. reflexivity.
  - intros rs d. rewrite pollIoreg_run. apply well_locked_poll.
Qed.

(** ** The two producers side by side *)

Lemma PowerData_ext (a b : PowerData) :
  CPUPower a = CPUPower b -> GPUPower a = GPUPower b ->
  ANEPower a = ANEPower b -> PackagePower a = PackagePower b ->
  BatteryPct a = BatteryPct b -> ChargerWatts a = ChargerWatts b ->
  ChargerVoltage a = ChargerVoltage b ->
  ChargerCurrent a = ChargerCurrent b ->
  BatteryVoltage a = BatteryVoltage b -> BatteryAmps a = BatteryAmps b ->
  Temperature a = Temperature b -> IsCharging a = IsCharging b ->
  OnAC a = OnAC b -> a = b.
Proof. destruct a, b. simpl. intros. subst. reflexivity. Qed.

(** Peeling the assignments to other fields off a projection. *)
Ltac peel :=
  repeat first
    [ rewrite field_update_frame by reflexivity
    | rewrite int_update_frame by reflexivity
    | rewrite bool_update_frame by reflexivity ].

(** The assignment to the projected field itself. *)
Ltac own :=
  match goal with
  | |- context [?g (field_update ?re ?t ?p ?s ?d)] =>
      rewrite (field_update_own g re t p s d) by reflexivity
  | |- context [?g (int_update ?x ?re ?lo ?hi ?s ?d)] =>
      rewrite (int_update_own g x re lo hi s d) by reflexivity
  | |- context [?g (bool_update ?x ?re ?s ?d)] =>
      rewrite (bool_update_own g x re s d) by reflexivity
  end.

(** A reading met before is the same reading. *)
Ltac known_reading :=
  match goal with
  | H : FindStringSubmatch ?re ?t = _
    |- context [FindStringSubmatch ?re ?t] => rewrite H
  | H : extractInt ?x ?re ?lo ?hi = _
    |- context [extractInt ?x ?re ?lo ?hi] => rewrite H
  end.

Ltac split_reading :=
  match goal with
  | |- context [match FindStringSubmatch ?re ?t with _ => _ end] =>
      destruct (FindStringSubmatch re t) as [|? [|? ?]] eqn:?
  | |- context [let '(_, _) := extractInt ?x ?re ?lo ?hi in _] =>
      destruct (extractInt x re lo hi) as [? [|]] eqn:?
  end.

Ltac by_field :=
  apply PowerData_ext; unfold scan_update, poll_update; cbv zeta;
  repeat (peel; repeat own; repeat known_reading; repeat split_reading;
          cbv iota beta);
  reflexivity.

Lemma scan_poll_commute (text s : gostring) (d : PowerData) :
  scan_update text (poll_update s d) = poll_update s (scan_update text d).
Proof. by_field. Qed.

Lemma scan_update_idempotent (text : gostring) (d : PowerData) :
  scan_update text (scan_update text d) = scan_update text d.
Proof. by_field. Qed.

Lemma poll_update_idempotent (s : gostring) (d : PowerData) :
  poll_update s (poll_update s d) = poll_update s d.
Proof. by_field. Qed.

(** X7.  The two producers write disjoint parts of the snapshot: a line
    of the child process never changes one of the eight fields of the
    poller, and an iteration of the poller, successful or not, never
    changes one of the five fields of the scanner loop. *)
Theorem producers_write_disjoint_fields :
  (forall text d,
      let d' := state_of (scan_line text d) in
      (forall f, In f slow_int_fields -> if_get f d' = if_get f d)
      /\ IsCharging d' = IsCharging d /\ OnAC d' = OnAC d)
  /\ (forall r d,
        let d' := state_of (pollIoreg_iter r d) in
        (forall re get, In (re, get) fast_float_fields -> get d' = get d)
        /\ BatteryPct d' = BatteryPct d).
Proof.
  split.
  - intros text d. cbv zeta. rewrite scan_line_run.
    unfold state_of, scan_update. cbn [fst snd]. split; [|split].
    + intros f Hin. simpl in Hin.
      destruct Hin as [<-|[<-|[<-|[<-|[<-|[<-|[]]]]]]]; cbn [if_get];
        peel; reflexivity.
    + peel. reflexivity.
    + peel. reflexivity.
  - intros r d. cbv zeta. rewrite pollIoreg_iter_run.
    unfold state_of, poll_step, poll_update. cbn [fst snd].
    destruct (is_nil (cmd_err r)).
    + split.
      * intros re get Hin. simpl in Hin.
        destruct Hin as [E|[E|[E|[E|[]]]]]; inversion E; subst get;
          peel; reflexivity.
      * peel. reflexivity.
    + split; reflexivity.
Qed.

(** X8.  The critical sections of the two producers commute: the
    snapshot after a line of the child process and an iteration of the
    poller does not depend on which of the two goroutines got the lock
    first. *)
Theorem producers_commute (text : gostring) (r : CmdResult)
    (d : PowerData) :
  state_of (scan_line text (state_of (pollIoreg_iter r d)))
  = state_of (pollIoreg_iter r (state_of (scan_line text d))).
Proof.
  rewrite !scan_line_run, !pollIoreg_iter_run. unfold state_of.
  cbn [fst snd]. unfold poll_step.
  destruct (is_nil (cmd_err r)); [apply scan_poll_commute | reflexivity].
Qed.

(** X9.  Reading the same text again changes nothing: a line of the
    child process that arrives twice in a row leaves the snapshot of its
    first arrival, and so does a dump that the poller sees in two
    consecutive iterations, as happens when it polls every five seconds a
    source that changes less often. *)
Theorem rereading_changes_nothing :
  (forall text d,
      state_of (scan_line text (state_of (scan_line text d)))
      = state_of (scan_line text d))
  /\ (forall r d,
        state_of (pollIoreg (r :: r :: []) d)
        = state_of (pollIoreg (r :: []) d)).
Proof.
  split.
  - intros text d. rewrite !scan_line_run. unfold state_of. cbn [fst snd].
    apply scan_update_idempotent.
  - intros r d. rewrite !pollIoreg_run. unfold state_of.
    cbn [fst snd fold_left]. unfold poll_step.
    destruct (is_nil (cmd_err r));
      [apply poll_update_idempotent | reflexivity].
Qed.

(** ** Invariants of whole runs *)

Lemma poll_step_range (f : IntField) (r : CmdResult) (d : PowerData) :
  In f slow_int_fields ->
  if_get f (poll_step d r) = if_get f d
  \/ if_min f <= if_get f (poll_step d r) <= if_max f.
Proof.
  intros Hin. unfold poll_step.
  destruct (cmd_err r) as [e|] eqn:E; [left; reflexivity|]. cbn [is_nil].
  destruct (slow_int_field_rule f r d Hin E) as (re & _ & Hrule).
  rewrite (pollIoreg_iter_ok r d E) in Hrule. unfold state_of in Hrule.
  cbn [fst snd] in Hrule. rewrite Hrule.
  destruct (extractInt (cmd_out r) re (if_min f) (if_max f)) as [v [|]] eqn:Ex;
    [|left; reflexivity].
  right. apply extractInt_true in Ex.
  destruct Ex as (_ & _ & _ & _ & _ & Hr). exact Hr.
Qed.

(** X10.  However long the poller runs and whatever the command prints,
    each of its six integer fields holds either the value it had when
    the poller started or a value within the range declared for it; a
    field that starts within its range stays there. *)
Theorem slow_fields_stay_in_range (f : IntField) (rs : list CmdResult)
    (d : PowerData) :
  In f slow_int_fields ->
  let v := if_get f (state_of (pollIoreg rs d)) in
  (v = if_get f d \/ if_min f <= v <= if_max f)
  /\ (if_min f <= if_get f d <= if_max f -> if_min f <= v <= if_max f).
Proof.
  intros Hin. cbv zeta. rewrite pollIoreg_run. unfold state_of.
  cbn [fst snd].
  assert (H : if_get f (fold_left poll_step rs d) = if_get f d
              \/ if_min f <= if_get f (fold_left poll_step rs d) <= if_max f).
  { revert d. induction rs as [|r rs IH]; intros d; [left; reflexivity|].
    cbn [fold_left].
    destruct (IH (poll_step d r)) as [E|Hr]; [|right; exact Hr].
    rewrite E. apply poll_step_range. exact Hin. }
  split; [exact H|]. intros Hd. destruct H as [E|Hr]; [rewrite E|]; assumption.
Qed.

(** The battery voltage over a failed poll, a dump with a voltage
    outside the range and a dump with a plausible one. *)
Lemma slow_fields_stay_in_range_witness :
  let f := mkIntField "batteryV" 5000 25000 BatteryVoltage in
  let rs := [mkCmdResult [] (Some (str "exit status 1"));
             mkCmdResult (quoted "AppleRawBatteryVoltage" ++ str " = 99999")
                         None;
             mkCmdResult (quoted "AppleRawBatteryVoltage" ++ str " = 12345")
                         None] in
  let v := if_get f (state_of (pollIoreg rs data0)) in
  In f slow_int_fields
  /\ ((v = if_get f data0 \/ if_min f <= v <= if_max f)
      /\ (if_min f <= if_get f data0 <= if_max f ->
          if_min f <= v <= if_max f))
  /\ v = 12345.
Proof.
  cbv zeta. split; [|split].
  - simpl. tauto.
  - apply (slow_fields_stay_in_range
             (mkIntField "batteryV" 5000 25000 BatteryVoltage)).
    simpl. tauto.
  - vm_compute. reflexivity.
Defined.

Lemma scan_step_nonneg (text : gostring) (d : PowerData) :
  (forall re get, In (re, get) fast_float_fields ->
     f64_nonneg (get d) = true ->
     f64_nonneg (get (scan_update text d)) = true)
  /\ (0 <= BatteryPct d -> 0 <= BatteryPct (scan_update text d)).
Proof.
  split.
  - intros re get Hin Hd.
    pose proof (fast_float_field_rule re get text d Hin) as Hrule.
    rewrite scan_line_run in Hrule. unfold state_of in Hrule.
    cbn [fst snd] in Hrule. rewrite Hrule.
    destruct (FindStringSubmatch re text) as [|w [|m1 rest]];
      [exact Hd | exact Hd | apply ParseFloat_nonneg].
  - intros Hd. pose proof (batteryPct_rule text d) as Hrule.
    rewrite scan_line_run in Hrule. unfold state_of in Hrule.
    cbn [fst snd] in Hrule. rewrite Hrule.
    destruct (FindStringSubmatch batteryPctRe text) as [|w [|m1 rest]] eqn:E;
      [exact Hd | exact Hd |].
    destruct (batteryPct_capture _ _ _ _ E) as [Hne Hdig].
    apply (Atoi_digits m1 Hne Hdig).
Qed.

Lemma scan_all_nonneg (ls : list Line) (d : PowerData) :
  (forall re get, In (re, get) fast_float_fields ->
     f64_nonneg (get d) = true ->
     f64_nonneg (get (scan_all ls d)) = true)
  /\ (0 <= BatteryPct d -> 0 <= BatteryPct (scan_all ls d)).
Proof.
  unfold scan_all. revert d. induction ls as [|l ls IH]; intros d.
  - split; [intros re get _ H; exact H | intros H; exact H].
  - cbn [fold_left].
    destruct (IH (scan_update (text l) d)) as [IHf IHb].
    destruct (scan_step_nonneg (text l) d) as [Hf Hb]. split.
    + intros re get Hin Hd. apply (IHf re get Hin). apply (Hf re get Hin Hd).
    + intros Hd. apply IHb, Hb, Hd.
Qed.

(** X11.  Whatever the child process prints and whether or not it could
    be started, [main] never leaves a negative number or a NaN in one of
    its four milliwatt fields, nor a negative battery percentage, when
    there was none before; from the zero value of [data] this holds of
    every run. *)
Theorem fast_fields_never_negative :
  (forall FormatFloat env d,
      let d' := state_of (main FormatFloat env d) in
      (forall re get, In (re, get) fast_float_fields ->
         f64_nonneg (get d) = true -> f64_nonneg (get d') = true)
      /\ (0 <= BatteryPct d -> 0 <= BatteryPct d'))
  /\ (forall FormatFloat env,
        let d' := state_of (main FormatFloat env data0) in
        (forall re get, In (re, get) fast_float_fields ->
           f64_nonneg (get d') = true)
        /\ 0 <= BatteryPct d' <= Int64.max_int).
Proof.
  assert (Hstate : forall FormatFloat env d,
    state_of (main FormatFloat env d) = d
    \/ state_of (main FormatFloat env d) = scan_all (Scan (lines env)) d).
  { intros FormatFloat env d.
    destruct (pipe_err env) as [e|] eqn:Hp.
    - left. unfold main. rewrite Hp. reflexivity.
    - destruct (start_err env) as [e|] eqn:Hs.
      + left. unfold main. rewrite Hp, Hs. reflexivity.
      + right. rewrite (main_run FormatFloat env d Hp Hs). reflexivity. }
  assert (Hgen : forall FormatFloat env d,
    (forall re get, In (re, get) fast_float_fields ->
       f64_nonneg (get d) = true ->
       f64_nonneg (get (state_of (main FormatFloat env d))) = true)
    /\ (0 <= BatteryPct d ->
        0 <= BatteryPct (state_of (main FormatFloat env d)))).
  { intros FormatFloat env d.
    destruct (Hstate FormatFloat env d) as [-> | ->].
    - split; [intros re get _ H; exact H | intros H; exact H].
    - apply scan_all_nonneg. }
  split; [exact Hgen|].
  intros FormatFloat env. cbv zeta.
  destruct (Hgen FormatFloat env data0) as [Hf Hb]. split.
  - intros re get Hin. apply (Hf re get Hin). simpl in Hin.
    destruct Hin as [E|[E|[E|[E|[]]]]]; inversion E; reflexivity.
  - split; [apply Hb; simpl; lia|].
    destruct (Hstate FormatFloat env data0) as [-> | ->];
      [rewrite max_int_val; simpl; lia|].
    unfold scan_all.
    assert (Hle : forall ls d, BatteryPct d <= Int64.max_int ->
              BatteryPct (fold_left (fun d l => scan_update (text l) d) ls d)
              <= Int64.max_int).
    { induction ls as [|l ls IH]; intros d Hd; [exact Hd|].
      cbn [fold_left]. apply IH.
      pose proof (batteryPct_rule (text l) d) as Hrule.
      rewrite scan_line_run in Hrule. unfold state_of in Hrule.
      cbn [fst snd] in Hrule. rewrite Hrule.
      destruct (FindStringSubmatch batteryPctRe (text l))
        as [|w [|m1 rest]] eqn:E; [exact Hd | exact Hd |].
      destruct (batteryPct_capture _ _ _ _ E) as [Hne Hdig].
      apply (Atoi_digits m1 Hne Hdig). }
    apply Hle. rewrite max_int_val. simpl. lia.
Qed.

(** ** Bars and their rows *)

Lemma colorBar_shape (pct width : Z) (color : gostring) :
  0 <= width -> 100 * width <= Int64.max_int ->
  colorBar pct width color
  = Some (color ++ cells FULL_BLOCK (clamp_pct pct * width / 100) ++ Reset
          ++ Dim
          ++ cells LIGHT_SHADE (width - clamp_pct pct * width / 100)
          ++ Reset).
Proof.
  intros Hw Hmax.
  pose proof (clamp_pct_range pct) as Hp.
  pose proof (share_bounds _ _ Hp Hw) as Hb.
  unfold colorBar. rewrite (colorBar_cells_spec pct width Hw Hmax).
  rewrite max_int_val in Hmax.
  rewrite Repeat_ok;
    [| lia | rewrite max_int_val; change (len FULL_BLOCK) with 3; lia].
  rewrite Repeat_ok;
    [| lia | rewrite max_int_val; change (len LIGHT_SHADE) with 3; lia].
  reflexivity.
Qed.

Lemma splitBar_shape (sysPct batPct width : Z) :
  sysPct <= 100 -> 0 <= width -> 100 * width <= Int64.max_int ->
  splitBar sysPct batPct width
  = Some (Cyan ++ cells FULL_BLOCK (Z.max 0 sysPct * width / 100) ++ Reset
          ++ Yellow
          ++ cells FULL_BLOCK (width - Z.max 0 sysPct * width / 100)
          ++ Reset).
Proof.
  intros Hs Hw Hmax.
  assert (Hp : 0 <= Z.max 0 sysPct <= 100) by lia.
  pose proof (share_bounds _ _ Hp Hw) as Hb.
  unfold splitBar. rewrite (splitBar_cells_spec sysPct batPct width Hs Hw Hmax).
  rewrite max_int_val in Hmax.
  rewrite !Repeat_ok;
    try lia; try (rewrite max_int_val; change (len FULL_BLOCK) with 3; lia).
  reflexivity.
Qed.

Lemma clamp_pct_mono (p q : Z) : p <= q -> clamp_pct p <= clamp_pct q.
Proof.
  intros H. unfold clamp_pct.
  destruct (p <? 0) eqn:E1; destruct (q <? 0) eqn:E2;
    repeat match goal with
           | |- context [?x >? 100] => destruct (x >? 100) eqn:?
           end; lia.
Qed.

(** X12.  A bar grows with its percentage: of two percentages the
    larger one never fills fewer cells nor leaves more empty; a percentage
    of 0 or less gives the empty bar and one of 100 or more the full bar,
    for every width from 0 to 65535, the widest a terminal can be. *)
Theorem colorBar_grows_with_pct (pct1 pct2 width : Z) (color : gostring) :
  0 <= width -> width <= 65535 -> pct1 <= pct2 ->
  fst (colorBar_cells pct1 width) <= fst (colorBar_cells pct2 width)
  /\ snd (colorBar_cells pct2 width) <= snd (colorBar_cells pct1 width)
  /\ (pct1 <= 0 ->
      colorBar pct1 width color
      = Some (color ++ Reset ++ Dim ++ cells LIGHT_SHADE width ++ Reset))
  /\ (100 <= pct2 ->
      colorBar pct2 width color
      = Some (color ++ cells FULL_BLOCK width ++ Reset ++ Dim ++ Reset)).
Proof.
  intros Hw Hcols Hle.
  assert (Hmax : 100 * width <= Int64.max_int) by (rewrite max_int_val; lia).
  rewrite !(colorBar_cells_spec _ width Hw Hmax). cbn [fst snd].
  pose proof (clamp_pct_mono pct1 pct2 Hle) as Hm.
  pose proof (clamp_pct_range pct1) as H1.
  assert (Hdiv : clamp_pct pct1 * width / 100 <= clamp_pct pct2 * width / 100)
    by (apply Z.div_le_mono; nia).
  split; [exact Hdiv|]. split; [lia|]. split.
  - intros H0. rewrite (colorBar_shape pct1 width color Hw Hmax).
    replace (clamp_pct pct1) with 0
      by (unfold clamp_pct; destruct (pct1 <? 0) eqn:E;
          [reflexivity | destruct (pct1 >? 100) eqn:E'; lia]).
    rewrite Z.mul_0_l, Z.div_0_l, Z.sub_0_r by lia. reflexivity.
  - intros H100. rewrite (colorBar_shape pct2 width color Hw Hmax).
    replace (clamp_pct pct2) with 100
      by (unfold clamp_pct; destruct (pct2 <? 0) eqn:E;
          [lia | destruct (pct2 >? 100) eqn:E'; lia]).
    replace (100 * width / 100) with width
      by (rewrite Z.mul_comm, Z.div_mul; lia).
    rewrite Z.sub_diag. reflexivity.
Qed.

(** The bar of the battery at 40 and at 80 percent. *)
Lemma colorBar_grows_with_pct_witness :
  (fst (colorBar_cells 40 44) <= fst (colorBar_cells 80 44)
   /\ snd (colorBar_cells 80 44) <= snd (colorBar_cells 40 44)
   /\ (40 <= 0 ->
       colorBar 40 44 Yellow
       = Some (Yellow ++ Reset ++ Dim ++ cells LIGHT_SHADE 44 ++ Reset))
   /\ (100 <= 80 ->
       colorBar 80 44 Yellow
       = Some (Yellow ++ cells FULL_BLOCK 44 ++ Reset ++ Dim ++ Reset)))
  /\ colorBar_cells 40 44 = (17, 27)
  /\ colorBar_cells 80 44 = (35, 9).
Proof.
  split; [|split; vm_compute; reflexivity].
  apply (colorBar_grows_with_pct 40 80 44 Yellow); lia.
Defined.

Lemma visibleLen_app (a b : gostring) (c : ascii) :
  separator c = true -> is_cont c = false -> Ascii.eqb c ESC = false ->
  visibleLen (a ++ c :: b) = visibleLen a + visibleLen (c :: b).
Proof.
  intros Hs Hc He. rewrite !visibleLen_strip. unfold RuneCount.
  rewrite strip_ansi_app_sep by exact Hs.
  rewrite (strip_ansi_no_esc c b) by exact He.
  rewrite rune_count_app_start by exact Hc. lia.
Qed.

(** The row of a content that fits the box. *)
Lemma line_fits (content : gostring) :
  visibleLen content <= line_width ->
  exists row, line content = Some row /\ visibleLen row = line_width + 4.
Proof.
  intros Hfit. pose proof (visibleLen_bounds content) as [Hv _].
  unfold line_width in *.
  set (n := Z.to_nat (52 - visibleLen content)).
  exists (str "║ " ++ content ++ repeat " "%char n ++ str " ║"). split.
  - unfold line, line_width, Int64.sub. int64_simpl.
    destruct (52 - visibleLen content <? 0) eqn:E; [lia|].
    rewrite Repeat_ok;
      [| lia
       | rewrite max_int_val; change (len (str " ")) with 1; lia].
    change (str " ") with [" "%char]. rewrite cells_single. reflexivity.
  - rewrite visibleLen_strip.
    change (str "║ " ++ content ++ repeat " "%char n ++ str " ║")
      with ("226"%char :: "149"%char :: "145"%char :: " "%char
            :: (content ++ repeat " "%char n ++ " "%char :: str "║")).
    rewrite !strip_ansi_no_esc by reflexivity.
    unfold RuneCount.
    rewrite rune_count_eq.
    change (rune_width ("226"%char :: "149"%char :: "145"%char :: " "%char
              :: strip_ansi (content ++ repeat " "%char n
                             ++ " "%char :: str "║")))
      with 3%nat.
    cbn [Nat.sub skipn].
    rewrite rune_count_eq, rune_width_ascii by reflexivity.
    cbn [Nat.sub skipn].
    pose proof (visibleLen_padded content (str "║") n " "%char
                  eq_refl eq_refl eq_refl) as Hp.
    rewrite visibleLen_strip in Hp. unfold RuneCount in Hp.
    change (Z.of_nat (rune_count_from 0 (" "%char :: str "║"))) with 2 in Hp.
    assert (Hn : Z.of_nat n = 52 - visibleLen content) by (unfold n; lia).
    lia.
Qed.

Lemma bar_row_width (c1 c2 g1 g2 : gostring) (n1 n2 : Z) :
  glyph g1 -> glyph g2 -> In c1 ansi_colors -> In c2 ansi_colors ->
  0 <= n1 -> 0 <= n2 ->
  visibleLen (str "  [" ++ (c1 ++ cells g1 n1 ++ Reset ++ c2 ++ cells g2 n2
                            ++ Reset) ++ str "]")
  = 4 + n1 + n2.
Proof.
  intros Hg1 Hg2 Hc1 Hc2 Hn1 Hn2.
  rewrite app_assoc.
  rewrite (visibleLen_app _ [] "]"%char) by reflexivity.
  replace (str "  [" ++ c1 ++ cells g1 n1 ++ Reset ++ c2 ++ cells g2 n2
           ++ Reset)
    with ((str "  [" ++ c1) ++ cells g1 n1 ++ Reset ++ c2 ++ cells g2 n2
          ++ Reset)
    by (rewrite <- app_assoc; reflexivity).
  rewrite (visibleLen_bar _ c2 g1 g2 n1 n2 Hg1 Hg2 Hc2 Hn1 Hn2).
  assert (H3 : visibleLen (str "  [" ++ c1) = 3).
  { simpl in Hc1.
    destruct Hc1 as [<-|[<-|[<-|[<-|[<-|[<-|[<-|[<-|[<-|[]]]]]]]]]];
      vm_compute; reflexivity. }
  rewrite H3. change (visibleLen ["]"%char]) with 1. lia.
Qed.

Lemma fits_the_box_row (content : gostring) :
  fits_the_box content = true ->
  exists row, line content = Some row /\ visibleLen row = line_width + 4.
Proof.
  unfold fits_the_box. destruct (line content) as [row|]; [|discriminate].
  intros H. exists row. split; [reflexivity | apply Z.eqb_eq; exact H].
Qed.

Lemma share_labels_fit (b : Z) :
  0 <= b <= 100 -> fits_the_box (share_labels (100 - b) b) = true.
Proof.
  intros Hb.
  assert (Hall : forallb (fun n => fits_the_box
                            (share_labels (100 - Z.of_nat n) (Z.of_nat n)))
                         (seq 0 101) = true) by (vm_compute; reflexivity).
  rewrite forallb_forall in Hall.
  specialize (Hall (Z.to_nat b)). rewrite Z2Nat.id in Hall by lia.
  apply Hall. apply in_seq. lia.
Qed.

(** The rows with a bar, the row of the two shares and the status row,
    as [line] builds them. *)
Lemma bar_rows_width :
  visibleLen box_top = 56
  /\ (forall pct, exists bar row,
        colorBar pct 44 Yellow = Some bar
        /\ line (str "  [" ++ bar ++ str "]") = Some row
        /\ visibleLen row = visibleLen box_top)
  /\ (forall x,
        let batteryPct := clamp_pct x in
        let systemPct := Int64.sub 100 batteryPct in
        exists bar row labels,
          splitBar systemPct batteryPct 40 = Some bar
          /\ line (str "  [" ++ bar ++ str "]") = Some row
          /\ visibleLen row = visibleLen box_top
          /\ line (str "   " ++ Cyan ++ str "system " ++ Itoa systemPct
                   ++ str "%" ++ Reset ++ str "          " ++ Yellow
                   ++ str "battery " ++ Itoa batteryPct ++ str "%" ++ Reset)
             = Some labels
          /\ visibleLen labels = visibleLen box_top)
  /\ (forall d,
        let status :=
          if IsCharging d then Green ++ str "charging" ++ Reset
          else if OnAC d then Blue ++ str "full/maintaining" ++ Reset
          else Red ++ str "draining" ++ Reset in
        exists row,
          line (str "  " ++ status) = Some row
          /\ visibleLen row = visibleLen box_top).
Proof.
  assert (Htop : visibleLen box_top = 56) by (vm_compute; reflexivity).
  split; [exact Htop|]. rewrite Htop. split; [|split].
  - intros pct.
    pose proof (clamp_pct_range pct) as Hp.
    pose proof (share_bounds _ 44 Hp ltac:(lia)) as Hs.
    eexists. 
    rewrite (colorBar_shape pct 44 Yellow ltac:(lia)
               ltac:(rewrite max_int_val; lia)).
    destruct (line_fits (str "  [" ++ (Yellow
                ++ cells FULL_BLOCK (clamp_pct pct * 44 / 100) ++ Reset
                ++ Dim
                ++ cells LIGHT_SHADE (44 - clamp_pct pct * 44 / 100)
                ++ Reset) ++ str "]")) as (row & Hrow & Hw).
    { rewrite bar_row_width;
        [unfold line_width; lia | left; reflexivity | right; reflexivity
         | simpl; tauto | simpl; tauto | lia | lia]. }
    exists row. split; [reflexivity|]. split; [exact Hrow | exact Hw].
  - intros x. cbv zeta. destruct (render_shares x) as [Hr ->].
    pose proof (share_bounds (100 - clamp_pct x) 40 ltac:(lia) ltac:(lia))
      as Hs.
    rewrite (splitBar_shape (100 - clamp_pct x) (clamp_pct x) 40
               ltac:(lia) ltac:(lia) ltac:(rewrite max_int_val; lia)).
    replace (Z.max 0 (100 - clamp_pct x)) with (100 - clamp_pct x) by lia.
    destruct (line_fits (str "  [" ++ (Cyan
                ++ cells FULL_BLOCK ((100 - clamp_pct x) * 40 / 100) ++ Reset
                ++ Yellow
                ++ cells FULL_BLOCK (40 - (100 - clamp_pct x) * 40 / 100)
                ++ Reset) ++ str "]")) as (row & Hrow & Hw).
    { rewrite bar_row_width;
        [unfold line_width; lia | left; reflexivity | left; reflexivity
         | simpl; tauto | simpl; tauto | lia | lia]. }
    destruct (fits_the_box_row _ (share_labels_fit (clamp_pct x) Hr))
      as (labels & El & Hl).
    eexists. exists row, labels.
    split; [reflexivity|]. split; [exact Hrow|]. split; [exact Hw|].
    split; [exact El | exact Hl].
  - intros d. cbv zeta.
    destruct (IsCharging d); [|destruct (OnAC d)];
      apply line_fits; vm_compute; discriminate.
Qed.

(** ** The first reading of a key decides *)

Lemma digits_after_match_at (key s : gostring) :
  match_at (digits_after key) s
  = match strip_prefix key s with
    | Some t =>
        match unsigned_digits t with
        | Some rest => Some (rest, [(1%nat, consumed t rest)])
        | None => None
        end
    | None => None
    end.
Proof.
  unfold match_at, digits_after.
  change (Seq [Lit key; Group 1 (Plus is_digit)])
    with (Cat (Lit key) (Group 1 (Plus is_digit))).
  cbn [run]. rewrite run_Lit.
  destruct (strip_prefix key s) as [t|]; [|reflexivity].
  destruct t as [|y u]; [reflexivity|]. unfold unsigned_digits.
  destruct (is_digit y); [|reflexivity].
  erewrite rep_greedy by reflexivity. reflexivity.
Qed.

Lemma skipn_length_app (a b : gostring) : skipn (length a) (a ++ b) = b.
Proof. induction a as [|c a IH]; [reflexivity | exact IH]. Qed.

Lemma strip_prefix_short (L key rest t : gostring) :
  strip_prefix L (key ++ rest) = Some t -> (length L <= length key)%nat ->
  HasPrefix key L = true.
Proof.
  revert key. induction L as [|c L IH]; intros key H Hlen.
  - destruct key; reflexivity.
  - destruct key as [|x key]; [simpl in Hlen; lia|].
    simpl in H |- *. destruct (Ascii.eqb x c); [|discriminate].
    simpl in Hlen. apply IH; [exact H | lia].
Qed.

Lemma borderless_no_overlap (key a L2 rest t : gostring) :
  borderless key = true -> a <> [] -> key = a ++ L2 -> L2 <> [] ->
  strip_prefix L2 (key ++ rest) = Some t -> False.
Proof.
  intros Hb Ha Hk HL2 Hs. unfold borderless in Hb.
  rewrite forallb_forall in Hb.
  assert (Hlen : length key = (length a + length L2)%nat)
    by (rewrite Hk; apply length_app).
  assert (Hla : (0 < length a)%nat)
    by (destruct a; [contradiction | simpl; lia]).
  assert (Hl2 : (0 < length L2)%nat)
    by (destruct L2; [contradiction | simpl; lia]).
  specialize (Hb (length a)).
  assert (Hin : In (length a) (seq 1 (length key - 1)))
    by (apply in_seq; lia).
  specialize (Hb Hin).
  assert (Hskip : skipn (length a) key = L2)
    by (rewrite Hk; apply skipn_length_app).
  rewrite Hskip in Hb.
  rewrite (strip_prefix_short L2 key rest t Hs) in Hb by lia.
  discriminate Hb.
Qed.

Lemma digits_after_no_crossing (key a rest : gostring) :
  borderless key = true -> head_in not_digit key = true -> key <> [] ->
  a <> [] ->
  match_at (digits_after key) a = None ->
  match_at (digits_after key) (a ++ key ++ rest) = None.
Proof.
  intros Hb Hh Hk Ha H. rewrite digits_after_match_at in *.
  destruct (strip_prefix key (a ++ key ++ rest)) as [t|] eqn:E;
    [|reflexivity].
  destruct (strip_prefix_app_cases _ _ _ _ E)
    as [(t' & H1 & H2)|(L2 & H1 & H2 & H3)].
  - rewrite H1 in H. subst t.
    destruct (unsigned_digits t') eqn:E'; [discriminate|].
    destruct t' as [|y u].
    + destruct key as [|c key]; [contradiction|].
      cbn [app unsigned_digits]. unfold head_in, not_digit in Hh.
      destruct (is_digit c); [discriminate|reflexivity].
    + cbn [app unsigned_digits] in E' |- *.
      destruct (is_digit y); [discriminate|reflexivity].
  - exfalso. exact (borderless_no_overlap key a L2 rest t Hb Ha H1 H2 H3).
Qed.

(** Text without a reading does not change which reading is found after
    it. *)
Lemma digits_after_skip_prefix (key pre rest : gostring) :
  borderless key = true -> head_in not_digit key = true -> key <> [] ->
  FindStringSubmatch (digits_after key) pre = [] ->
  FindStringSubmatch (digits_after key) (pre ++ key ++ rest)
  = FindStringSubmatch (digits_after key) (key ++ rest).
Proof.
  intros Hb Hh Hk. induction pre as [|c pre IH]; intros H; [reflexivity|].
  apply FindStringSubmatch_nil_cons in H. destruct H as [H1 H2].
  rewrite (FindStringSubmatch_eq _ ((c :: pre) ++ key ++ rest)).
  rewrite digits_after_no_crossing by (discriminate || assumption).
  cbn [app]. apply IH. exact H2.
Qed.

Lemma drop_while_app_all (p : ascii -> bool) (u post : gostring) :
  forallb p u = true -> head_in (fun c => negb (p c)) post = true ->
  drop_while p (u ++ post) = post.
Proof.
  intros Hu Hp. induction u as [|c u IH].
  - destruct post as [|x post]; [reflexivity|]. simpl in Hp |- *.
    destruct (p x); [discriminate|reflexivity].
  - simpl in Hu |- *. apply andb_true_iff in Hu. destruct Hu as [Hc Hu].
    rewrite Hc. apply IH. exact Hu.
Qed.

Lemma NumSubexp_Lit (L : gostring) : NumSubexp (Lit L) = 0%nat.
Proof.
  induction L as [|c L IH]; [reflexivity|].
  destruct L as [|c2 L]; [reflexivity|].
  change (Lit (c :: c2 :: L)) with (Cat (Chr c) (Lit (c2 :: L))).
  cbn [NumSubexp]. rewrite IH. reflexivity.
Qed.

Lemma digits_after_find_at_key (key digits post : gostring) :
  digits <> [] -> forallb is_digit digits = true ->
  head_in not_digit post = true ->
  FindStringSubmatch (digits_after key) (key ++ digits ++ post)
  = [key ++ digits; digits].
Proof.
  intros Hne Hd Hp.
  rewrite FindStringSubmatch_eq, digits_after_match_at, strip_prefix_app.
  destruct digits as [|y u]; [contradiction|].
  simpl in Hd. apply andb_true_iff in Hd. destruct Hd as [Hy Hu].
  cbn [app unsigned_digits]. rewrite Hy.
  rewrite (drop_while_app_all is_digit u post Hu Hp).
  replace (NumSubexp (digits_after key)) with 1%nat
    by (unfold digits_after; cbn [Seq NumSubexp];
        rewrite NumSubexp_Lit; reflexivity).
  cbn [seq map lookup_capture Nat.eqb].
  replace (key ++ y :: u ++ post) with ((key ++ y :: u) ++ post)
    by (rewrite <- app_assoc; reflexivity).
  rewrite consumed_app.
  change (y :: u ++ post) with ((y :: u) ++ post).
  rewrite consumed_app. reflexivity.
Qed.

Lemma Atoi_unsigned (digits : gostring) :
  digits <> [] -> forallb is_digit digits = true ->
  Atoi digits
  = if digits_value 0 digits >=? 2 ^ 63 then (Int64.max_int, Some ErrRange)
    else (digits_value 0 digits, None).
Proof.
  intros Hne Hd. destruct digits as [|c s]; [contradiction|].
  unfold Atoi.
  assert (Hc : is_digit c = true).
  { simpl in Hd. apply andb_true_iff in Hd. tauto. }
  assert (Hm : Ascii.eqb c "-" = false).
  { destruct (Ascii.eqb c "-") eqn:E; [|reflexivity].
    apply Ascii.eqb_eq in E. subst c. discriminate Hc. }
  assert (Hplus : Ascii.eqb c "+" = false).
  { destruct (Ascii.eqb c "+") eqn:E; [|reflexivity].
    apply Ascii.eqb_eq in E. subst c. discriminate Hc. }
  rewrite Hm, Hplus. cbn [orb]. rewrite Hd. reflexivity.
Qed.

Lemma Lit_inj (a b : gostring) : Lit a = Lit b -> a = b.
Proof.
  revert b. induction a as [|c a IH]; intros b H.
  - destruct b as [|x [|y b]]; [reflexivity | discriminate | discriminate].
  - destruct a as [|c2 a].
    + destruct b as [|x [|y b]]; [discriminate | | discriminate].
      simpl in H. injection H as ->. reflexivity.
    + destruct b as [|x [|y b]]; [discriminate | discriminate |].
      change (Lit (c :: c2 :: a)) with (Cat (Chr c) (Lit (c2 :: a))) in H.
      change (Lit (x :: y :: b)) with (Cat (Chr x) (Lit (y :: b))) in H.
      injection H as -> H. f_equal. apply IH. exact H.
Qed.

(** The key of [patterns k] is [K]. *)
Ltac key_is K :=
  match goal with
  | Hp : patterns _ = Some (digits_after ?key) |- _ =>
      assert (key = K)
        by (apply Lit_inj;
            change (patterns _) with (Some (digits_after K)) in Hp;
            unfold digits_after in Hp; cbn [Seq] in Hp;
            injection Hp as Hp; symmetry; exact Hp);
      subst key
  end.

(** The keys of the poller that are followed by an unsigned number. *)
Lemma digits_after_keys (f : IntField) (key : gostring) :
  In f slow_int_fields -> patterns (if_key f) = Some (digits_after key) ->
  borderless key = true /\ head_in not_digit key = true /\ key <> [].
Proof.
  intros Hin Hp. simpl in Hin.
  destruct Hin as [<-|[<-|[<-|[<-|[<-|[<-|[]]]]]]]; cbn [if_key] in Hp;
    [ key_is (quoted "Watts" ++ str "=")
    | key_is (quoted "AdapterVoltage" ++ str "=")
    | key_is (quoted "Current" ++ str "=")
    | key_is (quoted "AppleRawBatteryVoltage" ++ str " = ")
    | change (patterns _) with (Some batteryA_re) in Hp;
      unfold batteryA_re, digits_after in Hp; cbn [Seq] in Hp;
      injection Hp as _ Hp; discriminate Hp
    | key_is (quoted "Temperature" ++ str " = ") ];
    (split; [vm_compute; reflexivity|]);
    (split; [vm_compute; reflexivity | discriminate]).
Qed.

(** X14.  For each integer field of the poller whose key is followed by
    an unsigned number, the first reading of the key in the dump decides:
    when the key is followed by a run of digits and nothing before it
    reads as the key with a number, the field takes the value of the
    digits if it lies within the range declared for the field, and keeps
    its previous value otherwise, whatever follows in the dump. *)
Theorem first_reading_decides (f : IntField)
    (key pre digits post : gostring) (d : PowerData) :
  In f slow_int_fields ->
  patterns (if_key f) = Some (digits_after key) ->
  FindStringSubmatch (digits_after key) pre = [] ->
  digits <> [] -> forallb is_digit digits = true ->
  head_in not_digit post = true ->
  let dump := pre ++ key ++ digits ++ post in
  let v := digits_value 0 digits in
  if_get f (state_of (pollIoreg_iter (mkCmdResult dump None) d))
  = if (if_min f <=? v) && (v <=? if_max f) then v else if_get f d.
Proof.
  intros Hin Hpat Hpre Hne Hd Hpost. cbv zeta.
  destruct (digits_after_keys f key Hin Hpat) as (Hb & Hh & Hk).
  destruct (slow_int_field_rule f
              (mkCmdResult (pre ++ key ++ digits ++ post) None) d Hin
              eq_refl) as (re & Hre & Hrule).
  rewrite Hpat in Hre. injection Hre as <-. rewrite Hrule. cbn [cmd_out].
  assert (Hrange : 0 <= if_min f /\ if_max f < 2 ^ 63).
  { simpl in Hin.
    destruct Hin as [<-|[<-|[<-|[<-|[<-|[<-|[]]]]]]]; cbn; try lia;
      discriminate Hpat. }
  unfold extractInt.
  rewrite (digits_after_skip_prefix key pre (digits ++ post) Hb Hh Hk Hpre).
  rewrite (digits_after_find_at_key key digits post Hne Hd Hpost).
  change (len [key ++ digits; digits] >? 1) with true. cbn [nth].
  rewrite (Atoi_unsigned digits Hne Hd).
  destruct (digits_value 0 digits >=? 2 ^ 63) eqn:Ebig.
  - cbn [is_nil andb].
    destruct (if_min f <=? digits_value 0 digits) eqn:E1;
      destruct (digits_value 0 digits <=? if_max f) eqn:E2;
      cbn [andb]; try reflexivity; lia.
  - cbn [is_nil andb].
    destruct (if_min f <=? digits_value 0 digits) eqn:E1;
      destruct (digits_value 0 digits <=? if_max f) eqn:E2;
      destruct (digits_value 0 digits >=? if_min f) eqn:E3;
      cbn [andb]; try rewrite E2; try reflexivity; lia.
Qed.

(** A dump with two readings of the temperature: the first one, 3012,
    is stored, and the second one is not looked at. *)
Lemma first_reading_decides_witness :
  let f := mkIntField "temp" 0 10000 Temperature in
  let key := quoted "Temperature" ++ str " = " in
  let pre := quoted "Voltage" ++ str " = 12 " in
  let digits := str "3012" in
  let post := NL :: quoted "Temperature" ++ str " = 99" in
  let dump := pre ++ key ++ digits ++ post in
  let v := digits_value 0 digits in
  (if_get f (state_of (pollIoreg_iter (mkCmdResult dump None) data0))
   = if (if_min f <=? v) && (v <=? if_max f) then v else if_get f data0)
  /\ Temperature (state_of (pollIoreg_iter (mkCmdResult dump None) data0))
     = 3012.
Proof.
  cbv zeta. split.
  - apply (first_reading_decides
             (mkIntField "temp" 0 10000 Temperature)
             (quoted "Temperature" ++ str " = ")
             (quoted "Voltage" ++ str " = 12 ")
             (str "3012")
             (NL :: quoted "Temperature" ++ str " = 99")
             data0);
      [ simpl; tauto | reflexivity | vm_compute; reflexivity | discriminate
      | reflexivity | reflexivity ].
  - vm_compute. reflexivity.
Defined.

(** ** A well-formed line of the child process *)

Lemma space_not_number (x : ascii) :
  is_space x = true -> is_digit_or_dot x = false.
Proof.
  unfold is_space, is_digit_or_dot, is_digit, in_rng. intros H.
  repeat (apply orb_true_iff in H; destruct H as [H|H]);
    apply Z.eqb_eq in H; rewrite H; reflexivity.
Qed.

Lemma number_not_space (x : ascii) :
  is_digit_or_dot x = true -> is_space x = false.
Proof.
  intros H. destruct (is_space x) eqn:E; [|reflexivity].
  rewrite (space_not_number x E) in H. discriminate H.
Qed.

Lemma space_not_unit (x : ascii) :
  is_space x = true -> Ascii.eqb x "m" = false.
Proof.
  intros H. destruct (Ascii.eqb x "m") eqn:E; [|reflexivity].
  apply Ascii.eqb_eq in E. subst x. discriminate H.
Qed.

Lemma power_match_at (label : string) (s : gostring) :
  match_at (power_re label) s
  = match strip_prefix (str label) s with
    | Some t =>
        match power_reading t with
        | Some (num, rest) => Some (rest, [(1%nat, num)])
        | None => None
        end
    | None => None
    end.
Proof.
  unfold match_at, power_re.
  change (Seq [Lit (str label); Plus is_space;
               Group 1 (Plus is_digit_or_dot); Plus is_space;
               Lit (str "mW")])
    with (Cat (Lit (str label))
           (Cat (Plus is_space)
             (Cat (Group 1 (Plus is_digit_or_dot))
               (Cat (Plus is_space) (Lit (str "mW")))))).
  cbn [run]. rewrite run_Lit.
  destruct (strip_prefix (str label) s) as [t|]; [|reflexivity].
  unfold power_reading, plus_step.
  destruct t as [|x u]; [reflexivity|].
  destruct (is_space x); [|reflexivity].
  rewrite rep_no_backtrack
    by (intros y s' Hy; rewrite (space_not_number y Hy); reflexivity).
  destruct (drop_while is_space u) as [|y v]; [reflexivity|].
  destruct (is_digit_or_dot y); [|reflexivity].
  rewrite rep_no_backtrack
    by (intros z s' Hz; rewrite (number_not_space z Hz); reflexivity).
  destruct (drop_while is_digit_or_dot v) as [|z w]; [reflexivity|].
  destruct (is_space z); [|reflexivity].
  rewrite rep_no_backtrack
    by (intros c s' Hc; rewrite run_Lit; cbn [strip_prefix str
          list_ascii_of_string]; rewrite (space_not_unit c Hc); reflexivity).
  rewrite run_Lit.
  destruct (strip_prefix (str "mW") (drop_while is_space w)); reflexivity.
Qed.

Lemma drop_while_app (p : ascii -> bool) (t X : gostring) :
  head_in (fun c => negb (p c)) X = true ->
  drop_while p (t ++ X) = drop_while p t ++ X.
Proof.
  intros HX. induction t as [|c t IH].
  - destruct X as [|x X]; [reflexivity|]. simpl in HX |- *.
    destruct (p x); [discriminate|reflexivity].
  - simpl. destruct (p c); [exact IH|reflexivity].
Qed.

Lemma plus_step_app (p : ascii -> bool) (t X : gostring) :
  head_in (fun c => negb (p c)) X = true ->
  plus_step p (t ++ X)
  = match plus_step p t with Some r => Some (r ++ X) | None => None end.
Proof.
  intros HX. destruct t as [|c t].
  - destruct X as [|x X]; [reflexivity|]. simpl in HX |- *.
    destruct (p x); [discriminate|reflexivity].
  - simpl. destruct (p c); [|reflexivity].
    rewrite drop_while_app by exact HX. reflexivity.
Qed.

Lemma plus_step_run (p : ascii -> bool) (u Y : gostring) :
  u <> [] -> forallb p u = true ->
  head_in (fun c => negb (p c)) Y = true ->
  plus_step p (u ++ Y) = Some Y.
Proof.
  intros Hne Hu HY. destruct u as [|c u]; [contradiction|].
  simpl in Hu |- *. apply andb_true_iff in Hu. destruct Hu as [Hc Hu].
  rewrite Hc, (drop_while_app_all p u Y Hu HY). reflexivity.
Qed.

Lemma stopper_head (P : ascii -> bool) (X : gostring) :
  (forall c, stopper c = true -> P c = true) ->
  X <> [] -> head_in stopper X = true -> head_in P X = true.
Proof.
  intros HP Hne H. destruct X as [|c X]; [contradiction|]. apply HP, H.
Qed.

(** A reading that fails on [t] fails on [t] followed by a text that
    starts with a stopper. *)
Lemma power_reading_app (t X : gostring) :
  X <> [] -> head_in stopper X = true ->
  power_reading t = None -> power_reading (t ++ X) = None.
Proof.
  intros Hne HX. unfold power_reading.
  assert (Hsp : head_in (fun c => negb (is_space c)) X = true).
  { apply stopper_head; [|exact Hne|exact HX]. unfold stopper. intros c H.
    destruct (is_space c); [discriminate|reflexivity]. }
  assert (Hnum : head_in (fun c => negb (is_digit_or_dot c)) X = true).
  { apply stopper_head; [|exact Hne|exact HX]. unfold stopper. intros c H.
    destruct (is_space c); [discriminate|].
    destruct (is_digit_or_dot c); [discriminate|reflexivity]. }
  rewrite (plus_step_app is_space t X Hsp).
  destruct (plus_step is_space t) as [t1|]; [|reflexivity].
  rewrite (plus_step_app is_digit_or_dot t1 X Hnum).
  destruct (plus_step is_digit_or_dot t1) as [t2|]; [|reflexivity].
  rewrite (plus_step_app is_space t2 X Hsp).
  destruct (plus_step is_space t2) as [t3|]; [|reflexivity].
  destruct (strip_prefix (str "mW") t3) as [r|] eqn:E3; [discriminate|].
  intros _.
  destruct (strip_prefix (str "mW") (t3 ++ X)) as [r|] eqn:E; [|reflexivity].
  exfalso.
  destruct (strip_prefix_app_cases _ _ _ _ E)
    as [(t' & H1 & _)|(L2 & H1 & H2 & H3)]; [congruence|].
  destruct X as [|c X]; [contradiction|]. unfold head_in, stopper in HX.
  destruct t3 as [|a [|b t3]].
  - simpl in H1. subst L2. cbn in H3.
    destruct (Ascii.eqb c "m"); [|discriminate H3].
    rewrite !andb_false_r in HX. discriminate HX.
  - cbn in H1. injection H1 as <- <-. cbn in H3.
    destruct (Ascii.eqb c "W"); [|discriminate H3].
    rewrite !andb_false_r in HX. discriminate HX.
  - cbn in H1. injection H1 as _ _ H1. destruct t3; [|discriminate H1].
    simpl in H1. subst L2. contradiction.
Qed.

Lemma power_no_crossing (label : string) (a rest : gostring) :
  borderless (str label) = true -> head_in stopper (str label) = true ->
  str label <> [] -> a <> [] ->
  match_at (power_re label) a = None ->
  match_at (power_re label) (a ++ str label ++ rest) = None.
Proof.
  intros Hb Hh Hk Ha H. rewrite power_match_at in *.
  destruct (strip_prefix (str label) (a ++ str label ++ rest)) as [t|] eqn:E;
    [|reflexivity].
  destruct (strip_prefix_app_cases _ _ _ _ E)
    as [(t' & H1 & H2)|(L2 & H1 & H2 & H3)].
  - rewrite H1 in H. subst t.
    destruct (power_reading t') as [[num r]|] eqn:E'; [discriminate|].
    rewrite power_reading_app; [reflexivity | | | exact E'].
    + destruct (str label); [contradiction|discriminate].
    + destruct (str label) as [|c L]; [contradiction|exact Hh].
  - exfalso.
    exact (borderless_no_overlap (str label) a L2 rest t Hb Ha H1 H2 H3).
Qed.

Lemma power_skip_prefix (label : string) (pre rest : gostring) :
  borderless (str label) = true -> head_in stopper (str label) = true ->
  str label <> [] ->
  FindStringSubmatch (power_re label) pre = [] ->
  FindStringSubmatch (power_re label) (pre ++ str label ++ rest)
  = FindStringSubmatch (power_re label) (str label ++ rest).
Proof.
  intros Hb Hh Hk. induction pre as [|c pre IH]; intros H; [reflexivity|].
  apply FindStringSubmatch_nil_cons in H. destruct H as [H1 H2].
  rewrite (FindStringSubmatch_eq _ ((c :: pre) ++ str label ++ rest)).
  rewrite power_no_crossing by (discriminate || assumption).
  cbn [app]. apply IH. exact H2.
Qed.

Lemma forallb_head (p q : ascii -> bool) (u Y : gostring) :
  (forall c, p c = true -> q c = true) ->
  u <> [] -> forallb p u = true -> head_in q (u ++ Y) = true.
Proof.
  intros Hpq Hne Hu. destruct u as [|c u]; [contradiction|].
  simpl in Hu |- *. apply andb_true_iff in Hu. apply Hpq, Hu.
Qed.

Lemma power_reading_run (ws num ws' post : gostring) :
  ws <> [] -> forallb is_space ws = true ->
  num <> [] -> forallb is_digit_or_dot num = true ->
  ws' <> [] -> forallb is_space ws' = true ->
  power_reading (ws ++ num ++ ws' ++ str "mW" ++ post) = Some (num, post).
Proof.
  intros Hws1 Hws2 Hn1 Hn2 Hw1 Hw2. unfold power_reading.
  rewrite (plus_step_run is_space ws) by
    (try assumption;
     apply (forallb_head is_digit_or_dot); try assumption;
     intros c Hc; rewrite (number_not_space c Hc); reflexivity).
  rewrite (plus_step_run is_digit_or_dot num) by
    (try assumption;
     apply (forallb_head is_space); try assumption;
     intros c Hc; rewrite (space_not_number c Hc); reflexivity).
  rewrite (plus_step_run is_space ws') by (try assumption; reflexivity).
  rewrite strip_prefix_app, consumed_app. reflexivity.
Qed.

Lemma NumSubexp_power_re (label : string) :
  NumSubexp (power_re label) = 1%nat.
Proof.
  unfold power_re. cbn [Seq NumSubexp]. rewrite !NumSubexp_Lit. reflexivity.
Qed.

Lemma power_find_at_label (label : string) (ws num ws' post : gostring) :
  ws <> [] -> forallb is_space ws = true ->
  num <> [] -> forallb is_digit_or_dot num = true ->
  ws' <> [] -> forallb is_space ws' = true ->
  exists whole,
    FindStringSubmatch (power_re label)
      (str label ++ ws ++ num ++ ws' ++ str "mW" ++ post)
    = [whole; num].
Proof.
  intros Hws1 Hws2 Hn1 Hn2 Hw1 Hw2.
  rewrite FindStringSubmatch_eq, power_match_at, strip_prefix_app.
  rewrite (power_reading_run ws num ws' post) by assumption.
  rewrite NumSubexp_power_re. cbn [seq map lookup_capture Nat.eqb].
  eexists. reflexivity.
Qed.

Lemma str_inj (a b : string) : str a = str b -> a = b.
Proof.
  unfold str. intros H.
  rewrite <- (string_of_list_ascii_of_string a).
  rewrite <- (string_of_list_ascii_of_string b). rewrite H. reflexivity.
Qed.

(** The label of [re] is [K]. *)
Ltac label_is K :=
  match goal with
  | Hp : _ = power_re ?label |- _ =>
      assert (label = K)
        by (apply str_inj, Lit_inj; unfold power_re in Hp;
            cbn [Seq] in Hp; injection Hp as Hp; symmetry; exact Hp);
      subst label
  end.

Lemma power_labels (re : Regex) (get : PowerData -> float64)
    (label : string) :
  In (re, get) fast_float_fields -> re = power_re label ->
  borderless (str label) = true /\ head_in stopper (str label) = true
  /\ str label <> [].
Proof.
  intros Hin Hre. simpl in Hin.
  destruct Hin as [E|[E|[E|[E|[]]]]]; injection E as <- <-;
    [ unfold cpuPowerRe in Hre; label_is "CPU Power:"%string
    | unfold gpuPowerRe in Hre; label_is "GPU Power:"%string
    | unfold anePowerRe in Hre; label_is "ANE Power:"%string
    | unfold packageRe in Hre;
      label_is "Combined Power (CPU + GPU + ANE):"%string ];
    (split; [vm_compute; reflexivity|]);
    (split; [vm_compute; reflexivity | discriminate]).
Qed.

(** X15.  A well-formed line of the child process sets its field: when
    the label of one of the four power fields is followed by white
    space, a run of digits and points, white space and the unit [mW], and
    nothing before the label reads as such a line, the field takes what
    [ParseFloat] returns for the run, whatever else the line holds. *)
Theorem power_line_sets_field (re : Regex) (get : PowerData -> float64)
    (label : string) (pre ws num ws' post : gostring) (d : PowerData) :
  In (re, get) fast_float_fields -> re = power_re label ->
  FindStringSubmatch re pre = [] ->
  ws <> [] -> forallb is_space ws = true ->
  num <> [] -> forallb is_digit_or_dot num = true ->
  ws' <> [] -> forallb is_space ws' = true ->
  let text := pre ++ str label ++ ws ++ num ++ ws' ++ str "mW" ++ post in
  get (state_of (scan_line text d)) = fst (ParseFloat num).
Proof.
  intros Hin Hre Hpre Hws1 Hws2 Hn1 Hn2 Hw1 Hw2. cbv zeta.
  destruct (power_labels re get label Hin Hre) as (Hb & Hh & Hk).
  rewrite (fast_float_field_rule re get _ d Hin). subst re.
  rewrite (power_skip_prefix label pre _ Hb Hh Hk Hpre).
  destruct (power_find_at_label label ws num ws' post
              Hws1 Hws2 Hn1 Hn2 Hw1 Hw2) as [whole ->].
  reflexivity.
Qed.

(** A line of [powermetrics] with the power of the processor cores. *)
Lemma power_line_sets_field_witness :
  let text := str "  " ++ str "CPU Power:" ++ str " " ++ str "312.5"
              ++ str " " ++ str "mW" ++ str " (avg)" in
  CPUPower (state_of (scan_line text data0)) = fst (ParseFloat (str "312.5"))
  /\ represents (fst (ParseFloat (str "312.5"))) 3125 10.
Proof.
  cbv zeta. split.
  - apply (power_line_sets_field cpuPowerRe CPUPower "CPU Power:"
             (str "  ") (str " ") (str "312.5") (str " ") (str " (avg)")
             data0);
      [ simpl; tauto | reflexivity | reflexivity | discriminate | reflexivity
      | discriminate | reflexivity | discriminate | reflexivity ].
  - vm_compute. reflexivity.
Defined.

(** ** The height of a frame *)

Lemma emits_ret {A} (a : A) (d : PowerData) : emits 0 (ret a) d.
Proof. exists a, []. split; reflexivity. Qed.

Lemma emits_out (s : gostring) (d : PowerData) : emits 1 (emit (Out s)) d.
Proof. exists tt, [s]. split; reflexivity. Qed.

Lemma emits_lift {A} (o : option A) (d : PowerData) :
  o <> None -> emits 0 (lift o) d.
Proof.
  intros H. destruct o as [a|]; [|contradiction].
  exists a, []. split; reflexivity.
Qed.

Lemma emits_bind {A B} (n1 n2 : nat) (m : M A) (k : A -> M B)
    (d : PowerData) :
  emits n1 m d -> (forall a, emits n2 (k a) d) ->
  emits (n1 + n2) (bind m k) d.
Proof.
  intros (a & o1 & Hm & H1) Hk. destruct (Hk a) as (b & o2 & Hka & H2).
  exists b, (o1 ++ o2). unfold bind. rewrite Hm, Hka. split.
  - rewrite map_app. reflexivity.
  - rewrite length_app, H1, H2. reflexivity.
Qed.

Lemma emits_load {B} (n : nat) (k : PowerData -> M B) (d : PowerData) :
  emits n (k d) d -> emits n (bind load k) d.
Proof.
  intros (b & o & Hk & H). exists b, o. unfold bind, load. rewrite Hk.
  split; [reflexivity | exact H].
Qed.

Lemma emits_put_line (content : gostring) (d : PowerData) :
  emits 1 (put_line content) d.
Proof.
  unfold put_line. apply (emits_bind 0 1).
  - apply emits_lift, line_total.
  - intros row. apply emits_out.
Qed.

Lemma locked_run {A} (body : M A) (d : PowerData) (a : A)
    (outs : list gostring) :
  body d = (Some a, d, map Out outs) ->
  (emit MuRLock ;; defer (emit MuRUnlock) body) d
  = (Some a, d, MuRLock :: map Out outs ++ [MuRUnlock]).
Proof. intros H. unfold bind, defer, emit. rewrite H. reflexivity. Qed.

Ltac count_writes :=
  repeat match goal with
  | |- emits _ (put_line _) _ => apply emits_put_line
  | |- emits _ (Println _) _ => apply emits_out
  | |- emits _ (Print _) _ => apply emits_out
  | |- emits _ (ret _) _ => apply emits_ret
  | |- emits _ (lift (colorBar _ _ _)) _ =>
      apply emits_lift, colorBar_ok; [lia | rewrite max_int_val; lia]
  | |- emits _ (lift (splitBar (Int64.sub 100 (clamp_pct ?x)) _ _)) _ =>
      apply emits_lift; destruct (render_shares x) as [? ->];
      apply splitBar_ok; [lia | lia | rewrite max_int_val; lia]
  | |- emits _ (bind _ _) _ => eapply emits_bind; [|intros ?]
  end.

(** X16.  A frame is 21 writes to the terminal on battery, 25 on the
    charger when it reports no power and 27 when it does: the cursor
    home, one write for each row, and the empty line.  The renderer
    homes the cursor and does not clear the screen, so that a frame
    overwrites the one before it row by row. *)
Theorem frame_height (FormatFloat : float64 -> Z -> gostring)
    (now : gostring) (d : PowerData) :
  exists outs,
    trace_of (render FormatFloat now d)
    = MuRLock :: map Out outs ++ [MuRUnlock]
    /\ length outs
       = (if OnAC d then if ChargerWatts d >? 0 then 27 else 25
          else 21)%nat.
Proof.
  unfold render.
  match goal with
  | |- context [defer (emit MuRUnlock) ?body] =>
      assert (H : exists n, emits n body d
                /\ n = (if OnAC d then if ChargerWatts d >? 0 then 27 else 25
                        else 21)%nat)
  end.
  { match goal with
    | |- exists n, emits n (bind (Print _) (fun _ => bind load ?K)) d /\ _ =>
        assert (HK : exists n, emits n (K d) d
                  /\ S n = (if OnAC d
                            then if ChargerWatts d >? 0 then 27 else 25
                            else 21)%nat)
    end.
    { cbv beta zeta.
      destruct (OnAC d); [destruct (ChargerWatts d >? 0)|];
        (eexists; split; [count_writes | reflexivity]). }
    destruct HK as (n & Hk & Hn). exists (1 + n)%nat. split; [|exact Hn].
    apply emits_bind; [apply emits_out | intros _].
    apply emits_load. exact Hk. }
  destruct H as (n & (a & outs & Hbody & Hlen) & Hn).
  exists outs. rewrite (locked_run _ d a outs Hbody).
  split; [reflexivity|]. rewrite Hlen. exact Hn.
Qed.

(** ** Visible length of a concatenation *)

(** X17.  The visible length of a string never exceeds its length in
    bytes, and it is additive over a concatenation whose second part
    starts with a single-byte character that a color sequence cannot
    continue with, that is, anything but a digit, [;], [m], [[] and
    [ESC].  Without that condition it is not: the two halves of a color
    sequence count 5 cells apart and none together. *)
Theorem visibleLen_additive :
  (forall s, 0 <= visibleLen s <= len s)
  /\ (forall a b c,
        is_ascii c = true -> separator c = true -> Ascii.eqb c ESC = false ->
        visibleLen (a ++ c :: b) = visibleLen a + visibleLen (c :: b))
  /\ visibleLen (ESC :: str "[3") + visibleLen (str "1m") = 5
  /\ visibleLen ((ESC :: str "[3") ++ str "1m") = 0.
Proof.
  split; [exact visibleLen_bounds|]. split.
  - intros a b c Ha Hs He. apply visibleLen_app; [exact Hs | | exact He].
    apply is_cont_ascii, Ha.
  - split; vm_compute; reflexivity.
Qed.

(** ** Numbers that are none *)

Lemma digit_not_point (c : ascii) : is_digit c = true -> (byte c =? 46) = false.
Proof.
  unfold is_digit, in_rng. intros H. apply andb_true_iff in H.
  destruct H as [H1 H2]. apply Z.eqb_neq. lia.
Qed.

Lemma read_decimal_malformed (s : gostring) (sawdot sawdigits : bool)
    (mant dp : Z) :
  forallb is_digit_or_dot s = true ->
  read_decimal sawdot sawdigits mant dp s = None
  <-> (2 <=? (if sawdot then 1 else 0) + points s)%nat
      || negb (sawdigits || existsb is_digit s) = true.
Proof.
  revert sawdot sawdigits mant dp.
  induction s as [|c s IH]; intros sawdot sawdigits mant dp Hs.
  - cbn [read_decimal points filter length existsb]. rewrite orb_false_r.
    destruct sawdot, sawdigits; simpl; split; congruence.
  - simpl in Hs. apply andb_true_iff in Hs. destruct Hs as [Hc Hs].
    cbn [read_decimal existsb]. unfold points. cbn [filter].
    destruct (is_digit c) eqn:Ed.
    + rewrite (digit_not_point c Ed). fold (points s).
      rewrite (IH sawdot true _ _ Hs). cbn [orb].
      rewrite orb_true_r. reflexivity.
    + assert (Hp : (byte c =? 46) = true).
      { unfold is_digit_or_dot in Hc. rewrite Ed in Hc. exact Hc. }
      rewrite Hp. cbn [length]. fold (points s). cbn [orb].
      destruct sawdot.
      * split; [intros _|reflexivity].
        apply orb_true_iff. left. apply Nat.leb_le. lia.
      * rewrite (IH true sawdigits _ _ Hs).
        replace ((if false then 1 else 0) + S (points s))%nat
          with ((if true then 1 else 0) + points s)%nat by (simpl; lia).
        reflexivity.
Qed.

Lemma ParseFloat_syntax (s : gostring) :
  forallb is_digit_or_dot s = true ->
  (malformed s = true -> ParseFloat s = (S754_zero false, Some ErrSyntax))
  /\ (malformed s = false -> snd (ParseFloat s) <> Some ErrSyntax).
Proof.
  intros Hs.
  pose proof (read_decimal_malformed s false false 0 0 Hs) as H.
  cbn [orb Nat.add] in H. fold (malformed s) in H.
  unfold ParseFloat. split.
  - intros Hm. apply H in Hm. rewrite Hm. reflexivity.
  - intros Hm.
    destruct (read_decimal false false 0 0 s) as [[mant dp]|] eqn:E.
    + destruct (f64_div (exact_int mant) (exact_int (10 ^ dp)));
        discriminate.
    + assert (Ht : malformed s = true) by (apply H; reflexivity).
      congruence.
Qed.

Lemma plus_step_shape (p : ascii -> bool) (t1 t2 : gostring) :
  plus_step p t1 = Some t2 ->
  consumed t1 t2 <> [] /\ forallb p (consumed t1 t2) = true.
Proof.
  unfold plus_step. destruct t1 as [|y u]; [discriminate|].
  destruct (p y) eqn:Ey; [|discriminate]. intros H. injection H as <-.
  rewrite consumed_cons by apply drop_while_length.
  rewrite consumed_drop_while. split; [discriminate|].
  simpl. rewrite Ey. apply take_while_all.
Qed.

(** The capture of a power pattern is a run of digits and points. *)
Lemma power_capture (label : string) (text w m1 : gostring)
    (rest : list gostring) :
  FindStringSubmatch (power_re label) text = w :: m1 :: rest ->
  m1 <> [] /\ forallb is_digit_or_dot m1 = true.
Proof.
  induction text as [|c text IH]; rewrite FindStringSubmatch_eq.
  - rewrite power_match_at.
    destruct (strip_prefix (str label) []) as [t|] eqn:E; [|discriminate].
    assert (t = []) by
      (apply strip_prefix_Some in E; symmetry in E;
       apply app_eq_nil in E; tauto).
    subst t. discriminate.
  - destruct (match_at (power_re label) (c :: text)) as [[r cs]|] eqn:E;
      [|exact IH].
    rewrite NumSubexp_power_re. cbn [seq map]. intros H.
    injection H as _ H _. rewrite power_match_at in E.
    destruct (strip_prefix (str label) (c :: text)) as [t|]; [|discriminate].
    unfold power_reading in E.
    destruct (plus_step is_space t) as [t1|]; [|discriminate].
    destruct (plus_step is_digit_or_dot t1) as [t2|] eqn:E2; [|discriminate].
    destruct (plus_step is_space t2) as [t3|]; [|discriminate].
    destruct (strip_prefix (str "mW") t3) as [r'|]; [|discriminate].
    injection E as <- <-. cbn [lookup_capture Nat.eqb] in H. subst m1.
    exact (plus_step_shape _ _ _ E2).
Qed.

Lemma fast_float_labels (re : Regex) (get : PowerData -> float64) :
  In (re, get) fast_float_fields -> exists label, re = power_re label.
Proof.
  intros Hin. simpl in Hin.
  destruct Hin as [E|[E|[E|[E|[]]]]]; injection E as <- <-;
    eexists; reflexivity.
Qed.

(** X18.  The scanner loop does not look at the error of [ParseFloat]:
    whenever the pattern of a power field matches a line, the capture is
    a run of digits and points, and when that run is no number, because
    it holds more than one point or no digit, the field is set to zero,
    whatever it held before.  Every other capture parses without a
    syntax error. *)
Theorem malformed_number_resets_field (re : Regex)
    (get : PowerData -> float64) (text whole num : gostring)
    (rest : list gostring) (d : PowerData) :
  In (re, get) fast_float_fields ->
  FindStringSubmatch re text = whole :: num :: rest ->
  (num <> [] /\ forallb is_digit_or_dot num = true)
  /\ (malformed num = true ->
      ParseFloat num = (S754_zero false, Some ErrSyntax)
      /\ get (state_of (scan_line text d)) = S754_zero false)
  /\ (malformed num = false -> snd (ParseFloat num) <> Some ErrSyntax).
Proof.
  intros Hin Hm. destruct (fast_float_labels re get Hin) as [label Hre].
  assert (Hcap : num <> [] /\ forallb is_digit_or_dot num = true).
  { subst re. exact (power_capture label text whole num rest Hm). }
  destruct (ParseFloat_syntax num (proj2 Hcap)) as [Hbad Hgood].
  split; [exact Hcap|]. split; [|exact Hgood].
  intros Hmal. split; [exact (Hbad Hmal)|].
  rewrite (fast_float_field_rule re get text d Hin), Hm, (Hbad Hmal).
  reflexivity.
Qed.

(** A reading with two points overwrites 1500 mW with zero. *)
Lemma malformed_number_resets_field_witness :
  let text := str "CPU Power: 1.2.3 mW" in
  let d := set_CPUPower (f64_of_int 1500) data0 in
  ((str "1.2.3" <> [] /\ forallb is_digit_or_dot (str "1.2.3") = true)
   /\ (malformed (str "1.2.3") = true ->
       ParseFloat (str "1.2.3") = (S754_zero false, Some ErrSyntax)
       /\ CPUPower (state_of (scan_line text d)) = S754_zero false)
   /\ (malformed (str "1.2.3") = false ->
       snd (ParseFloat (str "1.2.3")) <> Some ErrSyntax))
  /\ malformed (str "1.2.3") = true
  /\ CPUPower d <> S754_zero false.
Proof.
  cbv zeta. split; [|split; [reflexivity | vm_compute; discriminate]].
  apply (malformed_number_resets_field cpuPowerRe CPUPower
           (str "CPU Power: 1.2.3 mW") (str "CPU Power: 1.2.3 mW")
           (str "1.2.3") [] (set_CPUPower (f64_of_int 1500) data0));
    [simpl; tauto | vm_compute; reflexivity].
Defined.

(** ** The line of the battery percentage *)

Lemma percent_match_at (s : gostring) :
  match_at batteryPctRe s
  = match strip_prefix (str "percent_charge:") s with
    | Some t =>
        match percent_reading t with
        | Some (num, rest) => Some (rest, [(1%nat, num)])
        | None => None
        end
    | None => None
    end.
Proof.
  unfold match_at, batteryPctRe.
  change (Seq [Lit (str "percent_charge:"); Plus is_space;
               Group 1 (Plus is_digit)])
    with (Cat (Lit (str "percent_charge:"))
              (Cat (Plus is_space) (Group 1 (Plus is_digit)))).
  cbn [run]. rewrite run_Lit.
  destruct (strip_prefix (str "percent_charge:") s) as [t|]; [|reflexivity].
  unfold percent_reading, plus_step.
  destruct t as [|x u]; [reflexivity|].
  destruct (is_space x); [|reflexivity].
  rewrite rep_no_backtrack.
  - destruct (drop_while is_space u) as [|y v]; [reflexivity|].
    destruct (is_digit y); [|reflexivity].
    erewrite rep_greedy by reflexivity. reflexivity.
  - intros y s' Hy.
    assert (Hd : is_digit y = false).
    { pose proof (space_not_number y Hy) as H. unfold is_digit_or_dot in H.
      apply orb_false_iff in H. tauto. }
    rewrite Hd. reflexivity.
Qed.

Lemma percent_reading_app (t X : gostring) :
  head_in (fun c => negb (is_space c)) X = true ->
  head_in not_digit X = true ->
  percent_reading t = None -> percent_reading (t ++ X) = None.
Proof.
  intros Hsp Hd. unfold percent_reading.
  rewrite (plus_step_app is_space t X Hsp).
  destruct (plus_step is_space t) as [t1|]; [|reflexivity].
  rewrite (plus_step_app is_digit t1 X Hd).
  destruct (plus_step is_digit t1) as [t2|]; [discriminate|reflexivity].
Qed.

Lemma percent_no_crossing (a rest : gostring) :
  a <> [] ->
  match_at batteryPctRe a = None ->
  match_at batteryPctRe (a ++ str "percent_charge:" ++ rest) = None.
Proof.
  intros Ha H. rewrite percent_match_at in *.
  destruct (strip_prefix (str "percent_charge:")
              (a ++ str "percent_charge:" ++ rest)) as [t|] eqn:E;
    [|reflexivity].
  destruct (strip_prefix_app_cases _ _ _ _ E)
    as [(t' & H1 & H2)|(L2 & H1 & H2 & H3)].
  - rewrite H1 in H. subst t.
    destruct (percent_reading t') as [[num r]|] eqn:E'; [discriminate|].
    rewrite percent_reading_app; [reflexivity | reflexivity | reflexivity
                                  | exact E'].
  - exfalso.
    apply (borderless_no_overlap (str "percent_charge:") a L2 rest t);
      [vm_compute; reflexivity | exact Ha | exact H1 | exact H2 | exact H3].
Qed.

Lemma percent_skip_prefix (pre rest : gostring) :
  FindStringSubmatch batteryPctRe pre = [] ->
  FindStringSubmatch batteryPctRe (pre ++ str "percent_charge:" ++ rest)
  = FindStringSubmatch batteryPctRe (str "percent_charge:" ++ rest).
Proof.
  induction pre as [|c pre IH]; intros H; [reflexivity|].
  apply FindStringSubmatch_nil_cons in H. destruct H as [H1 H2].
  rewrite (FindStringSubmatch_eq _
             ((c :: pre) ++ str "percent_charge:" ++ rest)).
  rewrite percent_no_crossing by (discriminate || assumption).
  cbn [app]. apply IH. exact H2.
Qed.

Lemma digit_not_space (c : ascii) : is_digit c = true -> is_space c = false.
Proof.
  intros H. apply number_not_space. unfold is_digit_or_dot. rewrite H.
  reflexivity.
Qed.

(** X19.  A well-formed line with the charge of the battery sets
    [BatteryPct]: when [percent_charge:] is followed by white space and a
    run of digits, and nothing before it reads as such a line, the field
    takes the value of the digits, or the largest [int] when the value
    does not fit one.  There is no range check: any value is stored. *)
Theorem percent_line_sets_field (pre ws digits post : gostring)
    (d : PowerData) :
  FindStringSubmatch batteryPctRe pre = [] ->
  ws <> [] -> forallb is_space ws = true ->
  digits <> [] -> forallb is_digit digits = true ->
  head_in not_digit post = true ->
  let text := pre ++ str "percent_charge:" ++ ws ++ digits ++ post in
  BatteryPct (state_of (scan_line text d))
  = Z.min (digits_value 0 digits) Int64.max_int.
Proof.
  intros Hpre Hws1 Hws2 Hd1 Hd2 Hpost. cbv zeta.
  rewrite batteryPct_rule, (percent_skip_prefix pre _ Hpre).
  rewrite FindStringSubmatch_eq, percent_match_at, strip_prefix_app.
  unfold percent_reading.
  rewrite (plus_step_run is_space ws) by
    (try assumption;
     apply (forallb_head is_digit); try assumption;
     intros c Hc; rewrite (digit_not_space c Hc); reflexivity).
  rewrite (plus_step_run is_digit digits _ Hd1 Hd2 Hpost).
  rewrite consumed_app.
  change (NumSubexp batteryPctRe) with 1%nat.
  cbn [seq map lookup_capture Nat.eqb].
  rewrite (Atoi_unsigned digits Hd1 Hd2). rewrite max_int_val.
  destruct (digits_value 0 digits >=? 2 ^ 63) eqn:E; cbn [fst]; lia.
Qed.

(** A charge of 87 percent, and one of 150. *)
Lemma percent_line_sets_field_witness :
  BatteryPct (state_of (scan_line (str "  " ++ str "percent_charge:"
                                    ++ str " " ++ str "150" ++ str "; x")
                                  data0))
  = Z.min (digits_value 0 (str "150")) Int64.max_int
  /\ Z.min (digits_value 0 (str "150")) Int64.max_int = 150.
Proof.
  split.
  - apply (percent_line_sets_field (str "  ") (str " ") (str "150")
             (str "; x") data0);
      [ reflexivity | discriminate | reflexivity | discriminate
      | reflexivity | reflexivity ].
  - vm_compute. reflexivity.
Defined.

(** ** The first reading of the battery current and of a flag *)

Lemma Atoi_negative (digits : gostring) :
  digits <> [] -> forallb is_digit digits = true ->
  Atoi ("-"%char :: digits)
  = if digits_value 0 digits >? 2 ^ 63 then (Int64.min_int, Some ErrRange)
    else (- digits_value 0 digits, None).
Proof.
  intros Hne Hd. destruct digits as [|c s]; [contradiction|].
  unfold Atoi. rewrite Ascii.eqb_refl. cbn [orb]. rewrite Hd. reflexivity.
Qed.

Lemma signed_digits_run (minus : bool) (digits post : gostring) :
  digits <> [] -> forallb is_digit digits = true ->
  head_in not_digit post = true ->
  signed_digits ((if minus then str "-" else []) ++ digits ++ post)
  = Some post.
Proof.
  intros Hne Hd Hp. destruct digits as [|y u]; [contradiction|].
  simpl in Hd. apply andb_true_iff in Hd. destruct Hd as [Hy Hu].
  destruct minus.
  - cbn [str list_ascii_of_string app signed_digits unsigned_digits].
    change (is_char "-" "-") with true. cbv iota. rewrite Hy.
    rewrite (drop_while_app_all is_digit u post Hu Hp). reflexivity.
  - cbn [app signed_digits unsigned_digits].
    assert (Hm : is_char "-" y = false).
    { unfold is_char. destruct (Ascii.eqb y "-") eqn:E; [|reflexivity].
      apply Ascii.eqb_eq in E. subst y. discriminate Hy. }
    rewrite Hm, Hy.
    rewrite (drop_while_app_all is_digit u post Hu Hp). reflexivity.
Qed.

Ltac range_cases :=
  repeat match goal with
         | |- context [?a <=? ?b] => destruct (a <=? b) eqn:?
         | |- context [?a >=? ?b] => destruct (a >=? b) eqn:?
         end;
  cbn [andb]; try reflexivity; lia.

(** X20.  The first reading of the battery current decides: when
    ["Amperage" = ] is followed by a run of digits, with or without a
    minus sign, and nothing before it reads as such, [BatteryAmps] takes
    the signed value if it lies within -15000..15000 and keeps its
    previous value otherwise, whatever follows in the dump. *)
Theorem first_amperage_decides (minus : bool)
    (pre digits post : gostring) (d : PowerData) :
  FindStringSubmatch batteryA_re pre = [] ->
  digits <> [] -> forallb is_digit digits = true ->
  head_in not_digit post = true ->
  let sign := if minus then str "-" else [] in
  let dump := pre ++ quoted "Amperage" ++ str " = " ++ sign ++ digits
              ++ post in
  let v := if minus then - digits_value 0 digits
           else digits_value 0 digits in
  BatteryAmps (state_of (pollIoreg_iter (mkCmdResult dump None) d))
  = if (-15000 <=? v) && (v <=? 15000) then v else BatteryAmps d.
Proof.
  intros Hpre Hne Hd Hpost. cbv zeta.
  set (sign := if minus then str "-" else []).
  destruct (slow_int_field_rule
              (mkIntField "batteryA" (-15000) 15000 BatteryAmps)
              (mkCmdResult
                 (pre ++ quoted "Amperage" ++ str " = " ++ sign ++ digits
                  ++ post) None) d
              ltac:(simpl; tauto) eq_refl) as (re & Hre & Hrule).
  change (patterns _) with (Some batteryA_re) in Hre. injection Hre as <-.
  cbn [if_get if_min if_max cmd_out] in Hrule. rewrite Hrule.
  unfold extractInt.
  replace (pre ++ quoted "Amperage" ++ str " = " ++ sign ++ digits ++ post)
    with (pre ++ DQUOTE :: "A"%char
          :: (str "mperage" ++ DQUOTE :: str " = " ++ sign ++ digits
              ++ post))
    by reflexivity.
  rewrite batteryA_skip_prefix by exact Hpre.
  change (DQUOTE :: "A"%char
          :: (str "mperage" ++ DQUOTE :: str " = " ++ sign ++ digits
              ++ post))
    with (amperage_key ++ (sign ++ digits ++ post)).
  rewrite (batteryA_find_at_key _ post)
    by (apply signed_digits_run; assumption).
  match goal with
  | |- context [len [?a; ?b] >? 1] => change (len [a; b] >? 1) with true
  end.
  cbn [nth].
  replace (sign ++ digits ++ post) with ((sign ++ digits) ++ post)
    by (rewrite <- app_assoc; reflexivity).
  rewrite consumed_app. clear Hrule. unfold sign. clear sign.
  pose proof (digits_value_ge digits 0 Hd ltac:(lia)) as Hge.
  destruct minus.
  - change (str "-" ++ digits) with ("-"%char :: digits).
    rewrite (Atoi_negative digits Hne Hd).
    destruct (digits_value 0 digits >? 2 ^ 63) eqn:Ebig;
      cbn [is_nil andb]; range_cases.
  - cbn [app]. rewrite (Atoi_unsigned digits Hne Hd).
    destruct (digits_value 0 digits >=? 2 ^ 63) eqn:Ebig;
      cbn [is_nil andb]; range_cases.
Qed.

(** A battery that discharges at 1250 mA; a second reading follows. *)
Lemma first_amperage_decides_witness :
  let dump := str "x " ++ quoted "Amperage" ++ str " = " ++ str "-"
              ++ str "1250" ++ (NL :: quoted "Amperage" ++ str " = 7") in
  BatteryAmps (state_of (pollIoreg_iter (mkCmdResult dump None) data0))
  = (if (-15000 <=? - digits_value 0 (str "1250"))
        && (- digits_value 0 (str "1250") <=? 15000)
     then - digits_value 0 (str "1250") else BatteryAmps data0)
  /\ BatteryAmps (state_of (pollIoreg_iter (mkCmdResult dump None) data0))
     = -1250.
Proof.
  cbv zeta. split.
  - apply (first_amperage_decides true (str "x ") (str "1250")
             (NL :: quoted "Amperage" ++ str " = 7") data0);
      [vm_compute; reflexivity | discriminate | reflexivity | reflexivity].
  - vm_compute. reflexivity.
Defined.

Lemma flag_match_at (key s : gostring) :
  match_at (Seq [Lit key; Group 1 yes_no]) s
  = match strip_prefix key s with
    | Some t =>
        match flag_word t with
        | Some (w, rest) => Some (rest, [(1%nat, w)])
        | None => None
        end
    | None => None
    end.
Proof.
  unfold match_at.
  change (Seq [Lit key; Group 1 yes_no]) with (Cat (Lit key) (Group 1 yes_no)).
  cbn [run]. rewrite run_Lit.
  destruct (strip_prefix key s) as [t|]; [|reflexivity].
  unfold yes_no. cbn [run]. rewrite !run_Lit. unfold flag_word.
  destruct (strip_prefix (str "Yes") t) as [r|] eqn:E1.
  - apply strip_prefix_Some in E1. subst t. rewrite consumed_app.
    reflexivity.
  - destruct (strip_prefix (str "No") t) as [r|] eqn:E2; [|reflexivity].
    apply strip_prefix_Some in E2. subst t. rewrite consumed_app.
    reflexivity.
Qed.

(** A literal that fails on [t] fails on [t] followed by a text whose
    first character the literal does not hold. *)
Lemma strip_prefix_app_stop (W t X : gostring) :
  X <> [] -> head_in (fun c => negb (existsb (Ascii.eqb c) W)) X = true ->
  strip_prefix W t = None -> strip_prefix W (t ++ X) = None.
Proof.
  intros Hne HX Ht.
  destruct (strip_prefix W (t ++ X)) as [r|] eqn:E; [|reflexivity].
  exfalso.
  destruct (strip_prefix_app_cases _ _ _ _ E)
    as [(t' & H1 & _)|(L2 & H1 & H2 & H3)]; [congruence|].
  destruct X as [|x X]; [contradiction|].
  destruct L2 as [|c L2]; [contradiction|].
  simpl in H3. destruct (Ascii.eqb x c) eqn:Exc; [|discriminate].
  simpl in HX. apply negb_true_iff in HX.
  assert (Hex : existsb (Ascii.eqb x) W = true).
  { apply existsb_exists. exists c. split; [|exact Exc].
    rewrite H1. apply in_or_app. right. left. reflexivity. }
  congruence.
Qed.

Lemma flag_word_app (t X : gostring) :
  X <> [] ->
  head_in (fun c => negb (existsb (Ascii.eqb c) (str "YesNo"))) X = true ->
  flag_word t = None -> flag_word (t ++ X) = None.
Proof.
  intros Hne HX. unfold flag_word.
  destruct (strip_prefix (str "Yes") t) as [r|] eqn:E1; [discriminate|].
  destruct (strip_prefix (str "No") t) as [r|] eqn:E2; [discriminate|].
  intros _.
  rewrite (strip_prefix_app_stop (str "Yes") t X Hne), 
          (strip_prefix_app_stop (str "No") t X Hne);
    try reflexivity; try assumption;
    destruct X as [|x X]; try contradiction; simpl in HX |- *;
    apply negb_true_iff in HX; apply negb_true_iff;
    repeat (apply orb_false_iff in HX; destruct HX as [? HX]);
    repeat (apply orb_false_iff; split); assumption.
Qed.

Lemma flag_no_crossing (key a rest : gostring) :
  borderless key = true ->
  head_in (fun c => negb (existsb (Ascii.eqb c) (str "YesNo"))) key = true ->
  key <> [] -> a <> [] ->
  match_at (Seq [Lit key; Group 1 yes_no]) a = None ->
  match_at (Seq [Lit key; Group 1 yes_no]) (a ++ key ++ rest) = None.
Proof.
  intros Hb Hh Hk Ha H. rewrite flag_match_at in *.
  destruct (strip_prefix key (a ++ key ++ rest)) as [t|] eqn:E;
    [|reflexivity].
  destruct (strip_prefix_app_cases _ _ _ _ E)
    as [(t' & H1 & H2)|(L2 & H1 & H2 & H3)].
  - rewrite H1 in H. subst t.
    destruct (flag_word t') as [[w r]|] eqn:E'; [discriminate|].
    rewrite flag_word_app; [reflexivity | | | exact E'].
    + destruct key; [contradiction|discriminate].
    + destruct key as [|c key]; [contradiction|exact Hh].
  - exfalso. exact (borderless_no_overlap key a L2 rest t Hb Ha H1 H2 H3).
Qed.

Lemma flag_skip_prefix (key pre rest : gostring) :
  borderless key = true ->
  head_in (fun c => negb (existsb (Ascii.eqb c) (str "YesNo"))) key = true ->
  key <> [] ->
  FindStringSubmatch (Seq [Lit key; Group 1 yes_no]) pre = [] ->
  FindStringSubmatch (Seq [Lit key; Group 1 yes_no]) (pre ++ key ++ rest)
  = FindStringSubmatch (Seq [Lit key; Group 1 yes_no]) (key ++ rest).
Proof.
  intros Hb Hh Hk. induction pre as [|c pre IH]; intros H; [reflexivity|].
  apply FindStringSubmatch_nil_cons in H. destruct H as [H1 H2].
  rewrite (FindStringSubmatch_eq _ ((c :: pre) ++ key ++ rest)).
  rewrite flag_no_crossing by (discriminate || assumption).
  cbn [app]. apply IH. exact H2.
Qed.

Lemma flag_find_at_key (key post : gostring) (yes : bool) :
  exists whole,
    FindStringSubmatch (Seq [Lit key; Group 1 yes_no])
      (key ++ (if yes then str "Yes" else str "No") ++ post)
    = [whole; if yes then str "Yes" else str "No"].
Proof.
  rewrite FindStringSubmatch_eq, flag_match_at, strip_prefix_app.
  replace (NumSubexp (Seq [Lit key; Group 1 yes_no])) with 1%nat
    by (cbn [Seq NumSubexp]; rewrite NumSubexp_Lit; reflexivity).
  destruct yes; eexists; reflexivity.
Qed.

(** The key of [patterns k] is [K]. *)
Ltac flag_key_is K :=
  match goal with
  | Hp : patterns _ = Some (Seq [Lit ?key; Group 1 yes_no]) |- _ =>
      assert (key = K)
        by (apply Lit_inj;
            change (patterns _) with (Some (Seq [Lit K; Group 1 yes_no]))
              in Hp;
            cbn [Seq] in Hp; injection Hp as Hp; symmetry; exact Hp);
      subst key
  end.

(** X21.  The first reading of a flag decides: when the key of
    [IsCharging] or of [ExternalConnected] is followed by [Yes] or [No]
    and nothing before it reads as such, the flag is set to whether the
    word is [Yes], whatever follows in the dump. *)
Theorem first_flag_decides (name : string) (get : PowerData -> bool)
    (key pre post : gostring) (yes : bool) (d : PowerData) :
  In (name, get) slow_bool_fields ->
  patterns name = Some (Seq [Lit key; Group 1 yes_no]) ->
  FindStringSubmatch (Seq [Lit key; Group 1 yes_no]) pre = [] ->
  let word := if yes then str "Yes" else str "No" in
  let dump := pre ++ key ++ word ++ post in
  get (state_of (pollIoreg_iter (mkCmdResult dump None) d)) = yes.
Proof.
  intros Hin Hpat Hpre. cbv zeta.
  assert (Hkey : borderless key = true
                 /\ head_in (fun c => negb (existsb (Ascii.eqb c)
                                             (str "YesNo"))) key = true
                 /\ key <> []).
  { simpl in Hin. destruct Hin as [E|[E|[]]]; injection E as <- <-;
      [ flag_key_is (quoted "IsCharging" ++ str " = ")
      | flag_key_is (quoted "ExternalConnected" ++ str " = ") ];
      (split; [vm_compute; reflexivity|]);
      (split; [vm_compute; reflexivity | discriminate]). }
  destruct Hkey as (Hb & Hh & Hk).
  match goal with
  | |- get (state_of (pollIoreg_iter ?r d)) = _ =>
      destruct (slow_bool_field_rule name get r d Hin eq_refl)
        as (re & Hre & Hrule)
  end.
  rewrite Hpat in Hre. injection Hre as <-. rewrite Hrule. cbn [cmd_out].
  rewrite (flag_skip_prefix key pre _ Hb Hh Hk Hpre).
  destruct (flag_find_at_key key post yes) as [whole Hfind].
  destruct yes; rewrite Hfind; reflexivity.
Qed.

(** A dump that says that no charger is connected. *)
Lemma first_flag_decides_witness :
  OnAC (state_of
          (pollIoreg_iter
             (mkCmdResult
                (str "{ " ++ (quoted "ExternalConnected" ++ str " = ")
                 ++ str "No" ++ str " }") None)
             (set_OnAC true data0)))
  = false.
Proof.
  apply (first_flag_decides "external" OnAC
           (quoted "ExternalConnected" ++ str " = ") (str "{ ") (str " }")
           false (set_OnAC true data0));
    [simpl; tauto | reflexivity | vm_compute; reflexivity].
Defined.

(** ** What a frame holds *)

Lemma writes_here {A B} (o : gostring) (m : M A) (k : A -> M B)
    (d : PowerData) :
  writes o m d -> writes o (bind m k) d.
Proof.
  unfold writes, bind, trace_of.
  destruct (m d) as [[[a|] d1] t1]; cbn [snd]; intros H; [|exact H].
  destruct (k a d1) as [[r d2] t2]. cbn [snd]. apply in_or_app. left.
  exact H.
Qed.

Lemma writes_later {A B} (o : gostring) (m : M A) (k : A -> M B)
    (d : PowerData) :
  never_panics m -> prints_only m -> (forall a, writes o (k a) d) ->
  writes o (bind m k) d.
Proof.
  intros Hn Hp Hk. specialize (Hn d). destruct (Hp d) as [Hs _].
  unfold writes, bind, trace_of, result_of, state_of in *.
  destruct (m d) as [[[a|] d1] t1]; cbn [fst snd] in *; [|contradiction].
  subst d1. specialize (Hk a). destruct (k a d) as [[r d2] t2].
  cbn [snd] in *. apply in_or_app. right. exact Hk.
Qed.

Lemma writes_after_value {A B} (o : gostring) (v : A) (k : A -> M B)
    (d : PowerData) :
  writes o (k v) d -> writes o (bind (lift (Some v)) k) d.
Proof.
  unfold writes, bind, lift, ret, trace_of.
  destruct (k v d) as [[r d2] t2]. cbn [snd app]. intros H. exact H.
Qed.

Lemma writes_load {B} (o : gostring) (k : PowerData -> M B)
    (d : PowerData) :
  writes o (k d) d -> writes o (bind load k) d.
Proof.
  unfold writes, bind, load, trace_of.
  destruct (k d d) as [[r d2] t2]. cbn [snd app]. intros H. exact H.
Qed.

Lemma writes_put_line (content row : gostring) (d : PowerData) :
  line content = Some row -> writes (row ++ [NL]) (put_line content) d.
Proof.
  intros H. unfold writes, put_line, bind, lift. rewrite H.
  left. reflexivity.
Qed.

Lemma writes_locked {A} (o : gostring) (body : M A) (d : PowerData) :
  writes o body d ->
  writes o (emit MuRLock ;; defer (emit MuRUnlock) body) d.
Proof.
  unfold writes, bind, defer, emit, trace_of.
  destruct (body d) as [[r d1] t1]. cbn [snd app]. intros H.
  right. apply in_or_app. left. exact H.
Qed.

(** Looking for the row of [H : line content = Some row] along a
    sequence of writes: it is the next write, or comes after it. *)
Ltac find_row H :=
  lazymatch goal with
  | |- writes _ (put_line _) _ => apply writes_put_line; exact H
  | |- writes _ (bind (lift (Some _)) _) _ =>
      apply writes_after_value; find_row H
  | |- writes _ (bind _ _) _ =>
      first [ solve [apply writes_here; find_row H]
            | apply writes_later;
              [ solve [auto 80 with total] | solve [auto 60 with printer]
              | intros ?; find_row H ] ]
  end.

(** The body of [render], after the cursor has been sent home and the
    snapshot read. *)
Ltac enter_render :=
  unfold render; apply writes_locked;
  apply writes_later;
    [ solve [auto with total] | solve [auto with printer] | intros _ ];
  apply writes_load; cbv beta zeta.

Lemma line_row (content : gostring) : exists row, line content = Some row.
Proof.
  destruct (line content) as [row|] eqn:E; [exists row; reflexivity|].
  exfalso. exact (line_total content E).
Qed.

(** X13.  The rows of a frame that depend on the snapshot through a
    percentage or a flag are as wide as the border of the box, 56
    cells, whatever the snapshot holds.  Every frame that [render] writes
    holds the border, the row with the bar of the battery and the status
    row, each 56 cells wide; on the charger with a positive power it also
    holds the row with the split bar and the row that names the two
    shares, each 56 cells wide. *)
Theorem bar_rows_fit_the_box (FormatFloat : float64 -> Z -> gostring)
    (now : gostring) (d : PowerData) :
  let frame := trace_of (render FormatFloat now d) in
  (visibleLen box_top = 56 /\ In (Out (box_top ++ [NL])) frame)
  /\ (exists bar row,
        colorBar (BatteryPct d) 44 Yellow = Some bar
        /\ line (str "  [" ++ bar ++ str "]") = Some row
        /\ visibleLen row = 56
        /\ In (Out (row ++ [NL])) frame)
  /\ (let status :=
        if IsCharging d then Green ++ str "charging" ++ Reset
        else if OnAC d then Blue ++ str "full/maintaining" ++ Reset
        else Red ++ str "draining" ++ Reset in
      exists row,
        line (str "  " ++ status) = Some row
        /\ visibleLen row = 56
        /\ In (Out (row ++ [NL])) frame)
  /\ (OnAC d = true -> ChargerWatts d > 0 ->
      let k := f64_of_int 1000 in
      let batteryV := f64_div (f64_of_int (BatteryVoltage d)) k in
      let batteryA := f64_div (f64_of_int (BatteryAmps d)) k in
      let batteryW := f64_mul batteryV batteryA in
      let batteryPct :=
        clamp_pct
          (int_of_f64
             (f64_mul (f64_div batteryW (f64_of_int (ChargerWatts d)))
                      (f64_of_int 100))) in
      let systemPct := Int64.sub 100 batteryPct in
      exists bar row labels,
        splitBar systemPct batteryPct 40 = Some bar
        /\ line (str "  [" ++ bar ++ str "]") = Some row
        /\ visibleLen row = 56
        /\ In (Out (row ++ [NL])) frame
        /\ line (str "   " ++ Cyan ++ str "system " ++ Itoa systemPct
                 ++ str "%" ++ Reset ++ str "          " ++ Yellow
                 ++ str "battery " ++ Itoa batteryPct ++ str "%" ++ Reset)
           = Some labels
        /\ visibleLen labels = 56
        /\ In (Out (labels ++ [NL])) frame).
Proof.
  cbv zeta.
  destruct bar_rows_width as (Htop & Hbat & Hsplit & Hstatus).
  rewrite Htop in Hbat, Hsplit, Hstatus.
  split; [|split; [|split]].
  - split; [exact Htop|].
    change (writes (box_top ++ [NL]) (render FormatFloat now) d).
    enter_render. apply writes_here. left. reflexivity.
  - destruct (Hbat (BatteryPct d)) as (bar & row & Hbar & Hrow & Hw).
    exists bar, row. split; [exact Hbar|]. split; [exact Hrow|].
    split; [exact Hw|].
    change (writes (row ++ [NL]) (render FormatFloat now) d).
    enter_render. rewrite Hbar. find_row Hrow.
  - destruct (Hstatus d) as (row & Hrow & Hw). cbv zeta in Hrow.
    exists row. split; [exact Hrow|]. split; [exact Hw|].
    change (writes (row ++ [NL]) (render FormatFloat now) d).
    enter_render. find_row Hrow.
  - intros HAC HW.
    match goal with
    | |- context [clamp_pct ?X] =>
        destruct (Hsplit X) as (bar & row & labels & Hbar & Hrow & Hw
                                & Hlab & Hwl)
    end.
    cbv zeta in Hbar, Hlab.
    exists bar, row, labels.
    split; [exact Hbar|]. split; [exact Hrow|]. split; [exact Hw|].
    assert (HW' : (ChargerWatts d >? 0) = true) by (apply Z.gtb_lt; lia).
    split; [|split; [exact Hlab|split; [exact Hwl|]]].
    + change (writes (row ++ [NL]) (render FormatFloat now) d).
      enter_render. rewrite HAC, HW'. cbv iota. rewrite Hbar.
      find_row Hrow.
    + change (writes (labels ++ [NL]) (render FormatFloat now) d).
      enter_render. rewrite HAC, HW'. cbv iota. rewrite Hbar.
      find_row Hlab.
Qed.

(** ** The scenario of the fast producer *)

Lemma scan_update_CPUPower (text : gostring) (d : PowerData) :
  CPUPower (scan_update text d)
  = match FindStringSubmatch cpuPowerRe text with
    | _ :: m1 :: _ => fst (ParseFloat m1)
    | _ => CPUPower d
    end.
Proof.
  pose proof (fast_float_field_rule cpuPowerRe CPUPower text d
                (or_introl eq_refl)) as H.
  rewrite scan_line_run in H. exact H.
Qed.

Lemma scan_update_BatteryPct (text : gostring) (d : PowerData) :
  BatteryPct (scan_update text d)
  = match FindStringSubmatch batteryPctRe text with
    | _ :: m1 :: _ => fst (Atoi m1)
    | _ => BatteryPct d
    end.
Proof.
  pose proof (batteryPct_rule text d) as H.
  rewrite scan_line_run in H. exact H.
Qed.

(** The row of the processor cores in a frame drawn from a snapshot that
    holds 1500 mW. *)
Lemma render_cpu_row (FormatFloat : float64 -> Z -> gostring)
    (now : gostring) (d : PowerData) :
  CPUPower d = f64_of_int 1500 ->
  exists bar row,
    colorBar 15 20 Magenta = Some bar
    /\ line (str "  CPU:  "
             ++ fmt_f FormatFloat 5 2
                  (S754_finite false 6755399441055744 (-52))
             ++ str " W  [" ++ bar ++ str "]") = Some row
    /\ writes (row ++ [NL]) (render FormatFloat now) d.
Proof.
  intros HCPU.
  destruct (colorBar 15 20 Magenta) as [bar|] eqn:Hbar;
    [|vm_compute in Hbar; discriminate Hbar].
  destruct (line_row (str "  CPU:  "
              ++ fmt_f FormatFloat 5 2
                   (S754_finite false 6755399441055744 (-52))
              ++ str " W  [" ++ bar ++ str "]")) as [row Hrow].
  exists bar, row. split; [reflexivity|]. split; [exact Hrow|].
  enter_render. rewrite HCPU.
  replace (f64_div (f64_of_int 1500) (f64_of_int 1000))
    with (S754_finite false 6755399441055744 (-52))
    by (vm_compute; reflexivity).
  replace (int_of_f64
             (f64_mul (S754_finite false 6755399441055744 (-52))
                      (f64_of_int 10)))
    with 15 by (vm_compute; reflexivity).
  rewrite Hbar. find_row Hrow.
Qed.

(** The effects of one turn of the scanner loop. *)
Lemma scanner_loop_step (FormatFloat : float64 -> Z -> gostring)
    (l : Line) (ls : list Line) (d : PowerData) :
  trace_of (scanner_loop FormatFloat (l :: ls) d)
  = [MuLock; MuUnlock]
    ++ (if HasPrefix (text l) (str "***")
        then trace_of (render FormatFloat (clock l)
                         (scan_update (text l) d))
        else [])
    ++ trace_of (scanner_loop FormatFloat ls (scan_update (text l) d)).
Proof.
  cbn [scanner_loop]. unfold bind. rewrite scan_line_run.
  destruct (scanner_loop_run FormatFloat ls (scan_update (text l) d))
    as (t & Hrun & _).
  destruct (HasPrefix (text l) (str "***")).
  - destruct (render_run FormatFloat (clock l) (scan_update (text l) d))
      as [outs Hr].
    rewrite Hr, Hrun. reflexivity.
  - cbn [ret]. rewrite Hrun. reflexivity.
Qed.

(** C6.  The line ["CPU Power: 1500.0 mW"] stores 1500 in [CPUPower],
    and a frame drawn from that snapshot shows the processor cores at
    1.5 W: the number that [render] hands to the formatter of its row,
    [data.CPUPower / 1000], is the binary64 number 1.5, and the bar of
    the row stands at 15 of 100.  The line ["percent_charge: 87"] stores
    87 in [BatteryPct].  When [main] reads the two lines and a delimiter
    from the child process, the frame it writes holds that row of the
    processor cores and the bar of the battery at 87. *)
Theorem fast_producer_scenario (d : PowerData) :
  (let d' := state_of (scan_line (str "CPU Power: 1500.0 mW") d) in
   CPUPower d' = f64_of_int 1500
   /\ represents (CPUPower d') 1500 1)
  /\ BatteryPct (state_of (scan_line (str "percent_charge: 87") d)) = 87
  /\ (forall FormatFloat now,
        let d' := state_of (scan_line (str "CPU Power: 1500.0 mW") d) in
        let cpuW := S754_finite false 6755399441055744 (-52) in
        represents cpuW 15 10
        /\ exists bar row,
             colorBar 15 20 Magenta = Some bar
             /\ line (str "  CPU:  " ++ fmt_f FormatFloat 5 2 cpuW
                      ++ str " W  [" ++ bar ++ str "]") = Some row
             /\ In (Out (row ++ [NL]))
                   (trace_of (render FormatFloat now d')))
  /\ (forall FormatFloat t1 t2 t3,
        let env := mkEnv None None
                     [mkLine (str "CPU Power: 1500.0 mW") t1;
                      mkLine (str "percent_charge: 87") t2;
                      mkLine (str "*** Sampled system activity") t3] in
        let cpuW := S754_finite false 6755399441055744 (-52) in
        let frame := trace_of (main FormatFloat env d) in
        CPUPower (state_of (main FormatFloat env d)) = f64_of_int 1500
        /\ BatteryPct (state_of (main FormatFloat env d)) = 87
        /\ (exists bar row,
              colorBar 15 20 Magenta = Some bar
              /\ line (str "  CPU:  " ++ fmt_f FormatFloat 5 2 cpuW
                       ++ str " W  [" ++ bar ++ str "]") = Some row
              /\ In (Out (row ++ [NL])) frame)
        /\ (exists bar row,
              colorBar 87 44 Yellow = Some bar
              /\ line (str "  [" ++ bar ++ str "]") = Some row
              /\ In (Out (row ++ [NL])) frame)).
Proof.
  assert (Hcpu : forall d0,
            CPUPower (scan_update (str "CPU Power: 1500.0 mW") d0)
            = f64_of_int 1500).
  { intros d0. rewrite scan_update_CPUPower.
    replace (FindStringSubmatch cpuPowerRe (str "CPU Power: 1500.0 mW"))
      with [str "CPU Power: 1500.0 mW"; str "1500.0"]
      by (vm_compute; reflexivity).
    vm_compute. reflexivity. }
  assert (Hpct : forall d0,
            BatteryPct (scan_update (str "percent_charge: 87") d0) = 87).
  { intros d0. rewrite scan_update_BatteryPct.
    replace (FindStringSubmatch batteryPctRe (str "percent_charge: 87"))
      with [str "percent_charge: 87"; str "87"]
      by (vm_compute; reflexivity).
    vm_compute. reflexivity. }
  split; [|split; [|split]].
  - cbv zeta. rewrite scan_line_run. unfold state_of. cbn [fst snd].
    rewrite Hcpu. split; vm_compute; reflexivity.
  - rewrite scan_line_run. apply Hpct.
  - intros FormatFloat now. cbv zeta. split; [vm_compute; reflexivity|].
    rewrite scan_line_run. unfold state_of. cbn [fst snd].
    exact (render_cpu_row FormatFloat now _ (Hcpu d)).
  - intros FormatFloat t1 t2 t3. cbv zeta.
    set (d1 := scan_update (str "CPU Power: 1500.0 mW") d).
    set (d2 := scan_update (str "percent_charge: 87") d1).
    set (d3 := scan_update (str "*** Sampled system activity") d2).
    assert (H3c : CPUPower d3 = f64_of_int 1500).
    { unfold d3, d2. rewrite !scan_update_CPUPower.
      replace (FindStringSubmatch cpuPowerRe
                 (str "*** Sampled system activity"))
        with (@nil gostring) by (vm_compute; reflexivity).
      replace (FindStringSubmatch cpuPowerRe (str "percent_charge: 87"))
        with (@nil gostring) by (vm_compute; reflexivity).
      apply Hcpu. }
    assert (H3p : BatteryPct d3 = 87).
    { unfold d3. rewrite scan_update_BatteryPct.
      replace (FindStringSubmatch batteryPctRe
                 (str "*** Sampled system activity"))
        with (@nil gostring) by (vm_compute; reflexivity).
      apply Hpct. }
    rewrite (main_run FormatFloat
               (mkEnv None None
                  [mkLine (str "CPU Power: 1500.0 mW") t1;
                   mkLine (str "percent_charge: 87") t2;
                   mkLine (str "*** Sampled system activity") t3])
               d eq_refl eq_refl).
    cbn [lines].
    change (Scan [mkLine (str "CPU Power: 1500.0 mW") t1;
                  mkLine (str "percent_charge: 87") t2;
                  mkLine (str "*** Sampled system activity") t3])
      with [mkLine (str "CPU Power: 1500.0 mW") t1;
            mkLine (str "percent_charge: 87") t2;
            mkLine (str "*** Sampled system activity") t3].
    unfold state_of at 1 2. cbn [fst snd].
    change (scan_all [mkLine (str "CPU Power: 1500.0 mW") t1;
                      mkLine (str "percent_charge: 87") t2;
                      mkLine (str "*** Sampled system activity") t3] d)
      with d3.
    split; [exact H3c|]. split; [exact H3p|].
    assert (Hframe : forall o,
              writes o (render FormatFloat t3) d3 ->
              In (Out o)
                 (trace_of
                    (@pair (option unit * PowerData) (list event)
                       (Some tt, d3)
                       ([Out (ESC :: str "[?25l");
                         Out (ESC :: str "[H" ++ ESC :: str "[2J");
                         Go "pollIoreg"; SignalNotify; Go "func1"]
                        ++ trace_of
                             (scanner_loop FormatFloat
                                [mkLine (str "CPU Power: 1500.0 mW") t1;
                                 mkLine (str "percent_charge: 87") t2;
                                 mkLine (str "*** Sampled system activity")
                                        t3] d)
                        ++ [ProcessKill])))).
    { intros o Ho. unfold trace_of at 1. cbn [snd].
      rewrite !scanner_loop_step. cbn [text clock].
      change (HasPrefix (str "CPU Power: 1500.0 mW") (str "***")) with false.
      change (HasPrefix (str "percent_charge: 87") (str "***")) with false.
      change (HasPrefix (str "*** Sampled system activity") (str "***"))
        with true.
      cbv iota. fold d1. fold d2. fold d3.
      apply in_or_app. right. apply in_or_app. left.
      apply in_or_app. right. apply in_or_app. right.
      apply in_or_app. right. apply in_or_app. right.
      apply in_or_app. right. apply in_or_app. left. exact Ho. }
    split.
    + destruct (render_cpu_row FormatFloat t3 d3 H3c)
        as (bar & row & Hbar & Hrow & Hw).
      exists bar, row. split; [exact Hbar|]. split; [exact Hrow|].
      apply Hframe, Hw.
    + destruct bar_rows_width as (_ & Hbat & _).
      destruct (Hbat 87) as (bar & row & Hbar & Hrow & _).
      exists bar, row. split; [exact Hbar|]. split; [exact Hrow|].
      apply Hframe.
      enter_render. rewrite H3p, Hbar. find_row Hrow.
Qed.
